(** * The ngalert state manager (package [state], manager.go)

    A shallow embedding of the alert state manager: the evaluation-result
    ingestion ([ProcessEvalResults], [setNextState]), the stale-series sweep
    ([staleResultsHandler], [isItStale]), the start-up rehydration ([Warm],
    [translateInstanceState]) and the rule reset ([ResetStateByRuleUID]).

    Go pointers [*State] are locations of an explicit heap, the cache holds
    locations, and every call to a collaborator (instance store, rule store,
    image service, annotation repository, logger) is recorded in a trace. *)

From stdpp Require Import gmap strings list fin_maps.
From Stdlib Require Import ZArith Lia.

Local Open Scope string_scope.
Local Open Scope list_scope.
Local Open Scope Z_scope.

(** ** Time

    A [time.Time] is an instant, kept as the number of nanoseconds since the
    Unix epoch; Go's [Time] spans a far wider range than 64 bits of
    nanoseconds, so instants are unbounded here.  A [time.Duration] is an
    [int64] count of nanoseconds, and its arithmetic wraps around at 64
    bits. *)

Definition Time := Z.
Definition Duration := Z.

Definition int64_wrap (z : Z) : Z := (z + 2 ^ 63) `mod` 2 ^ 64 - 2 ^ 63.

Definition int64_range (z : Z) : Prop := - 2 ^ 63 ≤ z < 2 ^ 63.

Module time.
Definition Second : Duration := 1000000000.
Definition Millisecond : Duration := 1000000.
(** [a * b] on [time.Duration] *)
Definition mul (a b : Duration) : Duration := int64_wrap (a * b).
(** [t.Add(d)] *)
Definition Add (t : Time) (d : Duration) : Time := t + d.
(** [t.After(u)] *)
Definition After (t u : Time) : bool := bool_decide (u < t).
(** [t.UnixNano()] *)
Definition UnixNano (t : Time) : Z := int64_wrap t.
End time.

(** [data.Labels], [ngModels.InstanceLabels]: [map[string]string]. *)
Abbreviation Labels := (gmap string string).

(** ** Package [eval] *)

Module eval.
(** Modelled from the spec: the declaration of [eval.State] lives in
    package eval, outside manager.go; the spec lists the enum as Normal,
    Alerting, Pending, NoData, Error, and [String] gives the state's name. *)
Inductive State : Set := Normal | Alerting | Pending | NoData | Error.

Definition String (s : State) : string :=
  match s with
  | Normal => "Normal"
  | Alerting => "Alerting"
  | Pending => "Pending"
  | NoData => "NoData"
  | Error => "Error"
  end.

#[global] Instance State_eq_dec : EqDecision State.
Proof. solve_decision. Defined.

(** [eval.Result]; only the fields the manager reads. The captured values
    are floating-point numbers that are only carried along, kept here as
    their bit patterns. *)
Record Result : Type := {
  Instance : Labels;
  ResultState : State;            (* Go field [State] *)
  EvaluatedAt : Time;
  EvaluationDuration : Duration;
  EvaluationString : string;
  Values : gmap string (option Z)
}.
End eval.

(** ** Package [ngModels] *)

Module ngModels.
(** A [*ngModels.Image] is a reference to a stored screenshot. *)
Definition Image := positive.

Record AlertRule : Type := {
  ID : Z;
  OrgID : Z;
  UID : string;
  Title : string;
  Condition : string;
  IntervalSeconds : Z;
  Annotations : gmap string string;
  RuleLabels : Labels;            (* Go field [Labels] *)
  DashboardUID : option string;
  PanelID : option Z
}.

Record AlertRuleKey : Type := { KeyOrgID : Z; KeyUID : string }.

Definition GetKey (r : AlertRule) : AlertRuleKey :=
  {| KeyOrgID := OrgID r; KeyUID := UID r |}.

(** [InstanceStateType] is a string type. *)
Definition InstanceStateType := string.

(** Modelled from the spec: the constants of [InstanceStateType] are
    declared in package models, outside manager.go. The persisted enum is two-valued
    (Firing/Normal); [saveState] stores [eval.State.String()], so a firing
    instance is stored under the name of [eval.Alerting]. *)
Definition InstanceStateFiring : InstanceStateType := "Alerting".
Definition InstanceStateNormal : InstanceStateType := "Normal".

(** Modelled from the spec: the constant is declared in package models;
    it is the reason given to instances that are resolved because their
    series went missing. *)
Definition StateReasonMissingSeries : string := "missing series".

(** A persisted instance, as [ListAlertInstances] returns it. *)
Record AlertInstance : Type := {
  RuleOrgID : Z;
  RuleUID : string;
  InstLabels : Labels;            (* Go field [Labels] *)
  CurrentState : InstanceStateType;
  CurrentReason : string;
  CurrentStateSince : Time;
  CurrentStateEnd : Time;
  LastEvalTime : Time
}.

Record SaveAlertInstanceCommand : Type := {
  SaveRuleOrgID : Z;
  SaveRuleUID : string;
  SaveLabels : Labels;
  SaveState : InstanceStateType;
  SaveStateReason : string;
  SaveLastEvalTime : Time;
  SaveCurrentStateSince : Time;
  SaveCurrentStateEnd : Time
}.
End ngModels.

Module annotations.
Record Item : Type := {
  AlertId : Z;
  OrgId : Z;
  DashboardId : Z;
  PanelId : Z;
  PrevState : string;
  NewState : string;
  Text : string;
  Epoch : Z
}.
End annotations.

(** ** The state of one alert instance *)

Record Evaluation : Type := {
  EvaluationTime : Time;
  EvaluationState : eval.State;
  EvalValues : gmap string (option Z);   (* Go field [Values] *)
  EvalCondition : string                 (* Go field [Condition] *)
}.

Record State : Type := {
  AlertRuleUID : string;
  OrgID : Z;
  CacheID : string;
  StartsAt : Time;
  EndsAt : Time;
  LastEvaluationTime : Time;
  AlertState : eval.State;               (* Go field [State] *)
  StateReason : string;
  LastEvaluationString : string;
  EvaluationDuration : Duration;
  Results : list Evaluation;
  Resolved : bool;
  Image : option ngModels.Image;
  Annotations : gmap string string;
  Labels_ : Labels                       (* Go field [Labels] *)
}.

(** Field assignments [s.F = v]. *)
Definition set_LastEvaluationTime (v : Time) (s : State) : State :=
  {| AlertRuleUID := AlertRuleUID s; OrgID := OrgID s; CacheID := CacheID s;
     StartsAt := StartsAt s; EndsAt := EndsAt s; LastEvaluationTime := v;
     AlertState := AlertState s; StateReason := StateReason s;
     LastEvaluationString := LastEvaluationString s;
     EvaluationDuration := EvaluationDuration s; Results := Results s;
     Resolved := Resolved s; Image := Image s; Annotations := Annotations s;
     Labels_ := Labels_ s |}.
Definition set_EvaluationDuration (v : Duration) (s : State) : State :=
  {| AlertRuleUID := AlertRuleUID s; OrgID := OrgID s; CacheID := CacheID s;
     StartsAt := StartsAt s; EndsAt := EndsAt s;
     LastEvaluationTime := LastEvaluationTime s;
     AlertState := AlertState s; StateReason := StateReason s;
     LastEvaluationString := LastEvaluationString s;
     EvaluationDuration := v; Results := Results s;
     Resolved := Resolved s; Image := Image s; Annotations := Annotations s;
     Labels_ := Labels_ s |}.
Definition set_Results (v : list Evaluation) (s : State) : State :=
  {| AlertRuleUID := AlertRuleUID s; OrgID := OrgID s; CacheID := CacheID s;
     StartsAt := StartsAt s; EndsAt := EndsAt s;
     LastEvaluationTime := LastEvaluationTime s;
     AlertState := AlertState s; StateReason := StateReason s;
     LastEvaluationString := LastEvaluationString s;
     EvaluationDuration := EvaluationDuration s; Results := v;
     Resolved := Resolved s; Image := Image s; Annotations := Annotations s;
     Labels_ := Labels_ s |}.
Definition set_LastEvaluationString (v : string) (s : State) : State :=
  {| AlertRuleUID := AlertRuleUID s; OrgID := OrgID s; CacheID := CacheID s;
     StartsAt := StartsAt s; EndsAt := EndsAt s;
     LastEvaluationTime := LastEvaluationTime s;
     AlertState := AlertState s; StateReason := StateReason s;
     LastEvaluationString := v;
     EvaluationDuration := EvaluationDuration s; Results := Results s;
     Resolved := Resolved s; Image := Image s; Annotations := Annotations s;
     Labels_ := Labels_ s |}.
Definition set_AlertState (v : eval.State) (s : State) : State :=
  {| AlertRuleUID := AlertRuleUID s; OrgID := OrgID s; CacheID := CacheID s;
     StartsAt := StartsAt s; EndsAt := EndsAt s;
     LastEvaluationTime := LastEvaluationTime s;
     AlertState := v; StateReason := StateReason s;
     LastEvaluationString := LastEvaluationString s;
     EvaluationDuration := EvaluationDuration s; Results := Results s;
     Resolved := Resolved s; Image := Image s; Annotations := Annotations s;
     Labels_ := Labels_ s |}.
Definition set_StateReason (v : string) (s : State) : State :=
  {| AlertRuleUID := AlertRuleUID s; OrgID := OrgID s; CacheID := CacheID s;
     StartsAt := StartsAt s; EndsAt := EndsAt s;
     LastEvaluationTime := LastEvaluationTime s;
     AlertState := AlertState s; StateReason := v;
     LastEvaluationString := LastEvaluationString s;
     EvaluationDuration := EvaluationDuration s; Results := Results s;
     Resolved := Resolved s; Image := Image s; Annotations := Annotations s;
     Labels_ := Labels_ s |}.
Definition set_EndsAt (v : Time) (s : State) : State :=
  {| AlertRuleUID := AlertRuleUID s; OrgID := OrgID s; CacheID := CacheID s;
     StartsAt := StartsAt s; EndsAt := v;
     LastEvaluationTime := LastEvaluationTime s;
     AlertState := AlertState s; StateReason := StateReason s;
     LastEvaluationString := LastEvaluationString s;
     EvaluationDuration := EvaluationDuration s; Results := Results s;
     Resolved := Resolved s; Image := Image s; Annotations := Annotations s;
     Labels_ := Labels_ s |}.
Definition set_Resolved (v : bool) (s : State) : State :=
  {| AlertRuleUID := AlertRuleUID s; OrgID := OrgID s; CacheID := CacheID s;
     StartsAt := StartsAt s; EndsAt := EndsAt s;
     LastEvaluationTime := LastEvaluationTime s;
     AlertState := AlertState s; StateReason := StateReason s;
     LastEvaluationString := LastEvaluationString s;
     EvaluationDuration := EvaluationDuration s; Results := Results s;
     Resolved := v; Image := Image s; Annotations := Annotations s;
     Labels_ := Labels_ s |}.
Definition set_Image (v : option ngModels.Image) (s : State) : State :=
  {| AlertRuleUID := AlertRuleUID s; OrgID := OrgID s; CacheID := CacheID s;
     StartsAt := StartsAt s; EndsAt := EndsAt s;
     LastEvaluationTime := LastEvaluationTime s;
     AlertState := AlertState s; StateReason := StateReason s;
     LastEvaluationString := LastEvaluationString s;
     EvaluationDuration := EvaluationDuration s; Results := Results s;
     Resolved := Resolved s; Image := v; Annotations := Annotations s;
     Labels_ := Labels_ s |}.

(** Modelled from the spec: [State.Resolve] lives in state.go, outside
    manager.go. A forced resolution makes the instance
    Normal with the given reason, ends its validity interval at the sweep
    time and flags it as resolved. *)
Definition Resolve (reason : string) (evaluatedAt : Time) (s : State) : State :=
  set_Resolved true (set_EndsAt evaluatedAt
    (set_StateReason reason (set_AlertState eval.Normal s))).

(** ** [isItStale] and [translateInstanceState] *)

Definition isItStale (evaluatedAt lastEval : Time) (intervalSeconds : Z) : bool :=
  negb (time.After
          (time.Add lastEval (time.mul (time.mul 2 intervalSeconds) time.Second))
          evaluatedAt).

Definition translateInstanceState (state : ngModels.InstanceStateType) : eval.State :=
  if bool_decide (state = ngModels.InstanceStateFiring) then eval.Alerting
  else if bool_decide (state = ngModels.InstanceStateNormal) then eval.Normal
  else eval.Error.

(** [InstanceStateAndReason] groups a state with its reason. *)
Record InstanceStateAndReason : Type := {
  ISState : eval.State;     (* Go field [State] *)
  ISReason : string         (* Go field [Reason] *)
}.

Definition InstanceStateAndReason_String (i : InstanceStateAndReason) : string :=
  let s := eval.String (ISState i) in
  if bool_decide (0 < String.length (ISReason i))%nat
  then s +:+ " (" +:+ ISReason i +:+ ")"
  else s.

(** ** The collaborators

    The manager talks to the instance store, the rule store, the image
    service, the dashboard service, the annotation repository and the logger.
    Every such call is recorded as an [Event]; the answer of a collaborator
    is an arbitrary function of the call and of everything that happened
    before it. An [option string] answer is a Go [error] ([None] is [nil]). *)

Module log.
Inductive Level : Set := Debug | Info | Warn | Error.
End log.

Definition loc := nat.

Inductive Event : Type :=
| EvLog (lvl : log.Level) (msg : string)
| EvFetchOrgIds
| EvListAlertRules (orgID : Z)
| EvListAlertInstances (orgID : Z)
| EvSaveAlertInstance (cmd : ngModels.SaveAlertInstanceCommand)
| EvDeleteAlertInstance (orgID : Z) (ruleUID labelsHash : string)
| EvDeleteAlertInstancesByRule (key : ngModels.AlertRuleKey)
| EvTakeImage (r : ngModels.AlertRule)
| EvGetDashboard (uid : string) (orgID : Z)
| EvAnnotationSave (item : annotations.Item)
  (* [go st.annotateState(...)]: the annotation is handed to a goroutine *)
| EvGoAnnotateState (r : ngModels.AlertRule) (labels : Labels) (evaluatedAt : Time)
                    (currentData previousData : InstanceStateAndReason).

Record Env : Type := {
  FetchOrgIds : list Event → list Z * option string;
  ListAlertRules : list Event → Z → list ngModels.AlertRule * option string;
  ListAlertInstances : list Event → Z → list ngModels.AlertInstance * option string;
  SaveAlertInstance : list Event → ngModels.SaveAlertInstanceCommand → option string;
  DeleteAlertInstance : list Event → Z → string → string → option string;
  DeleteAlertInstancesByRule : list Event → ngModels.AlertRuleKey → option string;
  (** [takeImage(ctx, st.imageService, rule)]: an image or nil, and an error *)
  TakeImage : list Event → ngModels.AlertRule → option ngModels.Image * option string;
  (** [dashboardService.GetDashboard]: the dashboard's numeric id, and an error *)
  GetDashboard : list Event → string → Z → Z * option string;
  AnnotationsSave : list Event → annotations.Item → option string
}.

(** Functions and constants that the manager calls and whose code lives
    outside manager.go (state.go, package models): the per-result transition
    functions of state.go, the history trimming, the image policy, the label
    keys and hashes. They are parameters of the development. *)
Record Deps : Type := {
  resultNormal : ngModels.AlertRule → eval.Result → State → State;
  resultAlerting : ngModels.AlertRule → eval.Result → State → State;
  resultError : ngModels.AlertRule → eval.Result → State → State;
  resultNoData : ngModels.AlertRule → eval.Result → State → State;
  (** [State.TrimResults] bounds the history of evaluations *)
  TrimResults : ngModels.AlertRule → list Evaluation → list Evaluation;
  NewEvaluationValues : gmap string (option Z) → gmap string (option Z);
  shouldTakeImage : eval.State → eval.State → option ngModels.Image → bool → bool;
  (** [InstanceLabels.StringKey]: the cache id of a label set, and an error *)
  StringKey : Labels → string * option string;
  (** [InstanceLabels.StringAndHash]: the labels' hash, and an error *)
  StringAndHash : Labels → string * string * option string;
  LabelsString : Labels → string;
  (** [strconv.ParseInt(s, 10, 64)] *)
  ParseInt : string → option Z;
  DashboardUIDAnnotation : string;
  PanelIDAnnotation : string
}.

(** ** The manager's world: heap, cache, trace *)

(** The cache, [map[int64]map[string]map[string]*State]. *)
Abbreviation Cache := (gmap Z (gmap string (gmap string loc))).

(** The zero value of the [State] struct. *)
Definition zeroState : State := {|
  AlertRuleUID := ""; OrgID := 0; CacheID := ""; StartsAt := 0; EndsAt := 0;
  LastEvaluationTime := 0; AlertState := eval.Normal; StateReason := "";
  LastEvaluationString := ""; EvaluationDuration := 0; Results := [];
  Resolved := false; Image := None; Annotations := ∅; Labels_ := ∅ |}.

#[global] Instance State_inhabited : Inhabited State := populate zeroState.

Record World : Type := {
  heap : gmap loc State;     (* the [State] structs the pointers refer to *)
  next : loc;                (* the next location to allocate *)
  cache : Cache;
  trace : list Event         (* oldest event first *)
}.

Definition M (A : Type) : Type := World → A * World.

#[global] Instance M_ret : MRet M := λ A a w, (a, w).
#[global] Instance M_bind : MBind M := λ A B k m w, let '(a, w') := m w in k a w'.
Definition ret {A} (a : A) : M A := mret a.

Definition deref (l : loc) : M State := λ w, (heap w !!! l, w).

(** the assignment through a pointer, [s.F = v] for [s : *State] *)
Definition modify (l : loc) (f : State → State) : M unit := λ w,
  (tt, {| heap := <[l := f (heap w !!! l)]> (heap w);
          next := next w; cache := cache w; trace := trace w |}).

(** [&State{...}] *)
Definition alloc (s : State) : M loc := λ w,
  (next w, {| heap := <[next w := s]> (heap w);
              next := S (next w); cache := cache w; trace := trace w |}).

Definition emit (e : Event) : M unit := λ w,
  (tt, {| heap := heap w; next := next w; cache := cache w;
          trace := trace w ++ [e] |}).

(** A call to a collaborator: recorded, then answered from the history. *)
Definition call {A} (e : Event) (answer : list Event → A) : M A := λ w,
  (answer (trace w),
   {| heap := heap w; next := next w; cache := cache w;
      trace := trace w ++ [e] |}).

Definition logf (lvl : log.Level) (msg : string) : M unit := emit (EvLog lvl msg).

Definition when (b : bool) (m : M unit) : M unit := if b then m else ret tt.

Definition isErr (e : option string) : bool := bool_decide (is_Some e).

Fixpoint forM_ {A} (xs : list A) (f : A → M unit) : M unit :=
  match xs with
  | [] => ret tt
  | x :: xs' => f x ;; forM_ xs' f
  end.

Fixpoint foldM {A B} (f : B → A → M B) (b : B) (xs : list A) : M B :=
  match xs with
  | [] => ret b
  | x :: xs' => b' ← f b x ; foldM f b' xs'
  end.

(** ** The cache

    Modelled from the spec: the cache lives in cache.go, outside manager.go.
    The spec gives it as a keyed store
    [map[OrgID] → map[AlertRuleUID] → map[CacheID] → State] with the
    operations below. *)

Definition cache_get (c : Cache) (orgID : Z) (ruleUID cacheID : string) : option loc :=
  rules ← c !! orgID; states ← (rules : gmap string (gmap string loc)) !! ruleUID;
  (states : gmap string loc) !! cacheID.

(** The instances of one rule, by cache id. *)
Definition cache_rule (c : Cache) (orgID : Z) (ruleUID : string) : gmap string loc :=
  default ∅ (rules ← c !! orgID; (rules : gmap string (gmap string loc)) !! ruleUID).

Definition cache_insert (orgID : Z) (ruleUID cacheID : string) (l : loc) (c : Cache) : Cache :=
  let rules := default ∅ (c !! orgID) in
  let states := default ∅ (rules !! ruleUID) in
  <[orgID := <[ruleUID := <[cacheID := l]> states]> rules]> c.

Definition cache_delete (orgID : Z) (ruleUID cacheID : string) (c : Cache) : Cache :=
  alter (alter (delete cacheID) ruleUID) orgID c.

Definition cache_delete_rule (orgID : Z) (ruleUID : string) (c : Cache) : Cache :=
  alter (delete ruleUID) orgID c.

Definition with_cache (f : Cache → Cache) : M unit := λ w,
  (tt, {| heap := heap w; next := next w; cache := f (cache w); trace := trace w |}).

Module cache_.
(** [set(entry)]: files the instance under its own identity. *)
Definition set (entry : loc) : M unit :=
  s ← deref entry ;
  with_cache (cache_insert (OrgID s) (AlertRuleUID s) (CacheID s) entry).

(** [getStatesForRuleUID(org, rule)]: a snapshot of the rule's instances. *)
Definition getStatesForRuleUID (orgID : Z) (alertRuleUID : string) : M (list loc) := λ w,
  ((map_to_list (cache_rule (cache w) orgID alertRuleUID)).*2, w).

(** [removeByRuleUID(org, rule)]: deletes and returns all matching states. *)
Definition removeByRuleUID (orgID : Z) (uid : string) : M (list loc) :=
  states ← getStatesForRuleUID orgID uid ;
  with_cache (cache_delete_rule orgID uid) ;;
  ret states.

(** [deleteEntry(org, rule, id)]: deletes one instance. *)
Definition deleteEntry (orgID : Z) (alertRuleUID cacheID : string) : M unit :=
  with_cache (cache_delete orgID alertRuleUID cacheID).

(** [reset()]: clears everything. *)
Definition reset : M unit := with_cache (λ _, ∅).

(** [getOrCreate(ctx, rule, result, extraLabels)]: merges the labels (extra
    labels override rule labels override result labels), derives the cache
    id, and returns the existing instance or files a new Normal one whose
    validity interval starts and ends at the evaluation time. *)
Definition getOrCreate (d : Deps) (alertRule : ngModels.AlertRule)
    (result : eval.Result) (extraLabels : Labels) : M loc := λ w,
  let lbs := extraLabels ∪ ngModels.RuleLabels alertRule ∪ eval.Instance result in
  let id := (StringKey d lbs).1 in
  match cache_get (cache w) (ngModels.OrgID alertRule) (ngModels.UID alertRule) id with
  | Some l => (l, w)
  | None =>
      (newState ← alloc {|
          AlertRuleUID := ngModels.UID alertRule;
          OrgID := ngModels.OrgID alertRule;
          CacheID := id;
          StartsAt := eval.EvaluatedAt result;
          EndsAt := eval.EvaluatedAt result;
          LastEvaluationTime := 0;
          AlertState := eval.Normal;
          StateReason := "";
          LastEvaluationString := "";
          EvaluationDuration := 0;
          Results := [];
          Resolved := false;
          Image := None;
          Annotations := ngModels.Annotations alertRule;
          Labels_ := lbs |} ;
       with_cache (cache_insert (ngModels.OrgID alertRule) (ngModels.UID alertRule) id newState) ;;
       ret newState) w
  end.
End cache_.

(** ** The manager *)

Section Manager.
Variable env : Env.
Variable d : Deps.

Definition getOrCreate := cache_.getOrCreate d.
Definition set := cache_.set.
Definition GetStatesForRuleUID := cache_.getStatesForRuleUID.
Definition ResetAllStates : M unit := cache_.reset.

Definition takeImage (r : ngModels.AlertRule) : M (option ngModels.Image * option string) :=
  call (EvTakeImage r) (λ tr, TakeImage env tr r).

Definition saveState (s : State) : M (option string) :=
  let cmd := {|
    ngModels.SaveRuleOrgID := OrgID s;
    ngModels.SaveRuleUID := AlertRuleUID s;
    ngModels.SaveLabels := Labels_ s;
    ngModels.SaveState := eval.String (AlertState s);
    ngModels.SaveStateReason := StateReason s;
    ngModels.SaveLastEvalTime := LastEvaluationTime s;
    ngModels.SaveCurrentStateSince := StartsAt s;
    ngModels.SaveCurrentStateEnd := EndsAt s |} in
  call (EvSaveAlertInstance cmd) (λ tr, SaveAlertInstance env tr cmd).

Definition HasSuffix (s suffix : string) : bool :=
  String.prefix (String.rev suffix) (String.rev s).

Definition removePrivateLabels (labels : Labels) : Labels :=
  filter (λ kv, String.prefix "__" kv.1 = false ∧ HasSuffix kv.1 "__" = false) labels.

Definition annotationsSave (alertRule : ngModels.AlertRule) (item : annotations.Item) : M unit :=
  err ← call (EvAnnotationSave item) (λ tr, AnnotationsSave env tr item);
  when (isErr err) (logf log.Error "error saving alert annotation").

Definition annotateState (alertRule : ngModels.AlertRule) (labels : Labels)
    (evaluatedAt : Time) (currentData previousData : InstanceStateAndReason) : M unit :=
  logf log.Debug "alert state changed creating annotation" ;;
  let labels := removePrivateLabels labels in
  let annotationText :=
    ngModels.Title alertRule +:+ " {" +:+ LabelsString d labels +:+ "} - "
      +:+ InstanceStateAndReason_String currentData in
  let item (dashboardId panelId : Z) := {|
    annotations.AlertId := ngModels.ID alertRule;
    annotations.OrgId := ngModels.OrgID alertRule;
    annotations.DashboardId := dashboardId;
    annotations.PanelId := panelId;
    annotations.PrevState := InstanceStateAndReason_String previousData;
    annotations.NewState := InstanceStateAndReason_String currentData;
    annotations.Text := annotationText;
    annotations.Epoch :=
      time.UnixNano evaluatedAt `quot` time.Millisecond |} in
  match ngModels.Annotations alertRule !! DashboardUIDAnnotation d with
  | Some dashUid =>
      let panelUid := default "" (ngModels.Annotations alertRule !! PanelIDAnnotation d) in
      match ParseInt d panelUid with
      | None => logf log.Error "error parsing panelUID for alert annotation"
      | Some panelId =>
          '(dashId, err) ← call (EvGetDashboard dashUid (ngModels.OrgID alertRule))
                             (λ tr, GetDashboard env tr dashUid (ngModels.OrgID alertRule));
          if isErr err
          then logf log.Error "error getting dashboard for alert annotation"
          else annotationsSave alertRule (item dashId panelId)
      end
  | None => annotationsSave alertRule (item 0 0)
  end.

(** Set the current state based on evaluation results *)
Definition setNextState (alertRule : ngModels.AlertRule) (result : eval.Result)
    (extraLabels : Labels) : M loc :=
  currentState ← getOrCreate alertRule result extraLabels;
  modify currentState (set_LastEvaluationTime (eval.EvaluatedAt result)) ;;
  modify currentState (set_EvaluationDuration (eval.EvaluationDuration result)) ;;
  modify currentState (λ s, set_Results (Results s ++ [ {|
      EvaluationTime := eval.EvaluatedAt result;
      EvaluationState := eval.ResultState result;
      EvalValues := NewEvaluationValues d (eval.Values result);
      EvalCondition := ngModels.Condition alertRule |} ]) s) ;;
  modify currentState (set_LastEvaluationString (eval.EvaluationString result)) ;;
  modify currentState (λ s, set_Results (TrimResults d alertRule (Results s)) s) ;;
  s ← deref currentState;
  let oldState := AlertState s in
  let oldReason := StateReason s in
  logf log.Debug "setting alert state" ;;
  match eval.ResultState result with
  | eval.Normal => modify currentState (resultNormal d alertRule result)
  | eval.Alerting => modify currentState (resultAlerting d alertRule result)
  | eval.Error => modify currentState (resultError d alertRule result)
  | eval.NoData => modify currentState (resultNoData d alertRule result)
  | eval.Pending => ret tt (* we do not emit results with this state *)
  end ;;
  (* Set reason iff: result is different than state, reason is not Alerting or Normal *)
  modify currentState (set_StateReason "") ;;
  s ← deref currentState;
  when (bool_decide (AlertState s ≠ eval.ResultState result)
        && bool_decide (eval.ResultState result ≠ eval.Normal)
        && bool_decide (eval.ResultState result ≠ eval.Alerting))
    (modify currentState (set_StateReason (eval.String (eval.ResultState result)))) ;;
  (* Set Resolved property so the scheduler knows to send a postable alert *)
  modify currentState (λ s, set_Resolved
     (bool_decide (oldState = eval.Alerting) && bool_decide (AlertState s = eval.Normal)) s) ;;
  s ← deref currentState;
  when (shouldTakeImage d (AlertState s) oldState (Image s) (Resolved s))
    ('(image, err) ← takeImage alertRule;
     if isErr err then logf log.Warn "Failed to take an image"
     else match image with
          | Some _ => modify currentState (set_Image image)
          | None => ret tt
          end) ;;
  set currentState ;;
  s ← deref currentState;
  let shouldUpdateAnnotation :=
    bool_decide (oldState ≠ AlertState s) || bool_decide (oldReason ≠ StateReason s) in
  when shouldUpdateAnnotation
    (emit (EvGoAnnotateState alertRule (Labels_ s) (eval.EvaluatedAt result)
             {| ISState := AlertState s; ISReason := StateReason s |}
             {| ISState := oldState; ISReason := oldReason |})) ;;
  ret currentState.

(** One turn of the loop of [staleResultsHandler] over the known states;
    the accumulator holds the loop's variables [resolvedImage] and
    [resolvedStates]. *)
Definition staleStep (r : ngModels.AlertRule) (states : gmap string loc)
    (evaluatedAt : Time) (acc : option ngModels.Image * list loc) (sp : loc)
    : M (option ngModels.Image * list loc) :=
  let '(resolvedImage, resolvedStates) := acc in
  s ← deref sp;
  let ok := bool_decide (is_Some (states !! CacheID s)) in
  if negb ok && isItStale evaluatedAt (LastEvaluationTime s) (ngModels.IntervalSeconds r) then
    logf log.Debug "removing stale state entry" ;;
    cache_.deleteEntry (OrgID s) (AlertRuleUID s) (CacheID s) ;;
    let ilbs := Labels_ s in
    let '(_, labelsHash, err) := StringAndHash d ilbs in
    when (isErr err) (logf log.Error "unable to get labelsHash") ;;
    err ← call (EvDeleteAlertInstance (OrgID s) (AlertRuleUID s) labelsHash)
             (λ tr, DeleteAlertInstance env tr (OrgID s) (AlertRuleUID s) labelsHash);
    when (isErr err) (logf log.Error "unable to delete stale instance from database") ;;
    if bool_decide (AlertState s = eval.Alerting) then
      let previousState := {| ISState := AlertState s; ISReason := StateReason s |} in
      modify sp (Resolve ngModels.StateReasonMissingSeries evaluatedAt) ;;
      s ← deref sp;
      annotateState r (Labels_ s) evaluatedAt
        {| ISState := eval.Normal; ISReason := StateReason s |} previousState ;;
      (* If there is no resolved image for this rule then take one *)
      resolvedImage ←
        match resolvedImage with
        | None =>
            '(image, err) ← takeImage r;
            if isErr err then logf log.Warn "Failed to take an image" ;; ret resolvedImage
            else match image with
                 | Some _ => ret image
                 | None => ret resolvedImage
                 end
        | Some _ => ret resolvedImage
        end;
      modify sp (set_Image resolvedImage) ;;
      ret (resolvedImage, resolvedStates ++ [sp])
    else ret (resolvedImage, resolvedStates)
  else ret (resolvedImage, resolvedStates).

Definition staleResultsHandler (r : ngModels.AlertRule) (states : gmap string loc)
    (evaluatedAt : Time) : M (list loc) :=
  knownStates ← GetStatesForRuleUID (ngModels.OrgID r) (ngModels.UID r);
  '(_, resolvedStates) ← foldM (staleStep r states evaluatedAt) (None, []) knownStates;
  ret resolvedStates.

(** The first loop of [ProcessEvalResults]; the accumulator holds [states]
    and [processedResults]. *)
Definition processResult (alertRule : ngModels.AlertRule) (extraLabels : Labels)
    (acc : list loc * gmap string loc) (result : eval.Result)
    : M (list loc * gmap string loc) :=
  let '(states, processedResults) := acc in
  s ← setNextState alertRule result extraLabels;
  st ← deref s;
  ret (states ++ [s], <[CacheID st := s]> processedResults).

Definition saveStates (states : list loc) : M unit :=
  forM_ states (λ state,
    s ← deref state;
    err ← saveState s;
    when (isErr err) (logf log.Error "failed to save alert state")).

(** [ProcessEvalResults] updates the current states that belong to a rule
    with the evaluation results. *)
Definition ProcessEvalResults (evaluatedAt : Time) (alertRule : ngModels.AlertRule)
    (results : list eval.Result) (extraLabels : Labels) : M (list loc) :=
  logf log.Debug "state manager processing evaluation results" ;;
  '(states, processedResults) ←
    foldM (processResult alertRule extraLabels) ([], ∅) results;
  resolvedStates ← staleResultsHandler alertRule processedResults evaluatedAt;
  when (bool_decide (0 < length states)%nat)
    (logf log.Debug "saving new states to the database" ;;
     saveStates states) ;;
  ret (states ++ resolvedStates).

(** [ResetStateByRuleUID] deletes all entries in the state manager that
    match the given rule UID. *)
Definition ResetStateByRuleUID (ruleKey : ngModels.AlertRuleKey) : M (list loc) :=
  logf log.Debug "resetting state of the rule" ;;
  states ← cache_.removeByRuleUID (ngModels.KeyOrgID ruleKey) (ngModels.KeyUID ruleKey);
  when (bool_decide (0 < length states)%nat)
    (err ← call (EvDeleteAlertInstancesByRule ruleKey)
              (λ tr, DeleteAlertInstancesByRule env tr ruleKey);
     when (isErr err)
       (logf log.Error "failed to delete states that belong to a rule from database")) ;;
  logf log.Info "rules state was reset" ;;
  ret states.

(** The state [Warm] rebuilds from one persisted instance and its rule. *)
Definition stateForEntry (entry : ngModels.AlertInstance) (ruleForEntry : ngModels.AlertRule)
    (cacheID : string) : State := {|
  AlertRuleUID := ngModels.RuleUID entry;
  OrgID := ngModels.RuleOrgID entry;
  CacheID := cacheID;
  Labels_ := ngModels.InstLabels entry;
  AlertState := translateInstanceState (ngModels.CurrentState entry);
  StateReason := ngModels.CurrentReason entry;
  LastEvaluationString := "";
  StartsAt := ngModels.CurrentStateSince entry;
  EndsAt := ngModels.CurrentStateEnd entry;
  LastEvaluationTime := ngModels.LastEvalTime entry;
  Annotations := ngModels.Annotations ruleForEntry;
  EvaluationDuration := 0;
  Results := [];
  Resolved := false;
  Image := None |}.

(** The inner loop of [Warm], over the persisted instances of one org. *)
Definition warmEntry (ruleByUID : gmap string ngModels.AlertRule) (states : list loc)
    (entry : ngModels.AlertInstance) : M (list loc) :=
  match ruleByUID !! ngModels.RuleUID entry with
  | None =>
      logf log.Error "rule not found for instance, ignoring" ;;
      ret states
  | Some ruleForEntry =>
      let '(cacheID, err) := StringKey d (ngModels.InstLabels entry) in
      when (isErr err) (logf log.Error "error getting cacheID for entry") ;;
      stateForEntry ← alloc (stateForEntry entry ruleForEntry cacheID);
      ret (states ++ [stateForEntry])
  end.

Definition indexRules (rules : list ngModels.AlertRule) : gmap string ngModels.AlertRule :=
  foldl (λ ruleByUID rule, <[ngModels.UID rule := rule]> ruleByUID) ∅ rules.

(** The outer loop of [Warm], over the orgs. *)
Definition warmOrg (states : list loc) (orgId : Z) : M (list loc) :=
  (* Get Rules *)
  '(rules, err) ← call (EvListAlertRules orgId) (λ tr, ListAlertRules env tr orgId);
  when (isErr err) (logf log.Error "unable to fetch previous state") ;;
  let ruleByUID := indexRules rules in
  (* Get Instances *)
  '(instances, err) ← call (EvListAlertInstances orgId) (λ tr, ListAlertInstances env tr orgId);
  when (isErr err) (logf log.Error "unable to fetch previous state") ;;
  foldM (warmEntry ruleByUID) states instances.

Definition Warm : M unit :=
  logf log.Info "warming cache for startup" ;;
  ResetAllStates ;;
  '(orgIds, err) ← call EvFetchOrgIds (λ tr, FetchOrgIds env tr);
  when (isErr err) (logf log.Error "unable to fetch orgIds") ;;
  states ← foldM warmOrg [] orgIds;
  forM_ states set.

Definition Put (states : list loc) : M unit := forM_ states set.

End Manager.


(** * Specification vocabulary *)

(** Counting the events of one kind in a trace. *)
Definition countEv (p : Event → bool) (tr : list Event) : nat :=
  length (List.filter p tr).

Definition isGoAnnotate (e : Event) : bool :=
  match e with EvGoAnnotateState _ _ _ _ _ => true | _ => false end.

Definition isTakeImage (e : Event) : bool :=
  match e with EvTakeImage _ => true | _ => false end.

Definition isDeleteAlertInstance (e : Event) : bool :=
  match e with EvDeleteAlertInstance _ _ _ => true | _ => false end.

Definition isErrorLog (msg : string) (e : Event) : bool :=
  match e with
  | EvLog log.Error m => bool_decide (m = msg)
  | _ => false
  end.

(** The command [saveState] sends for an instance. *)
Definition saveCommand (s : State) : ngModels.SaveAlertInstanceCommand := {|
  ngModels.SaveRuleOrgID := OrgID s;
  ngModels.SaveRuleUID := AlertRuleUID s;
  ngModels.SaveLabels := Labels_ s;
  ngModels.SaveState := eval.String (AlertState s);
  ngModels.SaveStateReason := StateReason s;
  ngModels.SaveLastEvalTime := LastEvaluationTime s;
  ngModels.SaveCurrentStateSince := StartsAt s;
  ngModels.SaveCurrentStateEnd := EndsAt s |}.

(** The saves of a trace that the instance store answered with an error;
    [pre] is the history before the trace. *)
Fixpoint failedSaves (env : Env) (pre tr : list Event) : nat :=
  match tr with
  | [] => 0
  | e :: tr' =>
      (match e with
       | EvSaveAlertInstance cmd =>
           if isErr (SaveAlertInstance env pre cmd) then 1 else 0
       | _ => 0
       end + failedSaves env (pre ++ [e]) tr')%nat
  end.

(** The same collaborators with another [SaveAlertInstance]. *)
Definition withSaveAlertInstance
    (save : list Event → ngModels.SaveAlertInstanceCommand → option string)
    (env : Env) : Env := {|
  FetchOrgIds := FetchOrgIds env;
  ListAlertRules := ListAlertRules env;
  ListAlertInstances := ListAlertInstances env;
  SaveAlertInstance := save;
  DeleteAlertInstance := DeleteAlertInstance env;
  DeleteAlertInstancesByRule := DeleteAlertInstancesByRule env;
  TakeImage := TakeImage env;
  GetDashboard := GetDashboard env;
  AnnotationsSave := AnnotationsSave env |}.

(** The same collaborators with another [DeleteAlertInstancesByRule]. *)
Definition withDeleteAlertInstancesByRule
    (delete : list Event → ngModels.AlertRuleKey → option string)
    (env : Env) : Env := {|
  FetchOrgIds := FetchOrgIds env;
  ListAlertRules := ListAlertRules env;
  ListAlertInstances := ListAlertInstances env;
  SaveAlertInstance := SaveAlertInstance env;
  DeleteAlertInstance := DeleteAlertInstance env;
  DeleteAlertInstancesByRule := delete;
  TakeImage := TakeImage env;
  GetDashboard := GetDashboard env;
  AnnotationsSave := AnnotationsSave env |}.

(** ** One evaluation result, as a function on the instance

    [setNextState] works on one instance through its pointer; what it does to
    the instance, the image apart, is the composition of the functions
    below. *)

Section NextState.
Variable d : Deps.
Variable alertRule : ngModels.AlertRule.
Variable result : eval.Result.

(** The bookkeeping before the state-setting switch. *)
Definition bookkeeping (s : State) : State :=
  let s := set_LastEvaluationTime (eval.EvaluatedAt result) s in
  let s := set_EvaluationDuration (eval.EvaluationDuration result) s in
  let s := set_Results (Results s ++ [ {|
      EvaluationTime := eval.EvaluatedAt result;
      EvaluationState := eval.ResultState result;
      EvalValues := NewEvaluationValues d (eval.Values result);
      EvalCondition := ngModels.Condition alertRule |} ]) s in
  let s := set_LastEvaluationString (eval.EvaluationString result) s in
  set_Results (TrimResults d alertRule (Results s)) s.

(** The state-setting switch. *)
Definition applyResult (s : State) : State :=
  match eval.ResultState result with
  | eval.Normal => resultNormal d alertRule result s
  | eval.Alerting => resultAlerting d alertRule result s
  | eval.Error => resultError d alertRule result s
  | eval.NoData => resultNoData d alertRule result s
  | eval.Pending => s
  end.

(** The reason and the resolved flag, given the state before the switch. *)
Definition settle (oldState : eval.State) (s : State) : State :=
  let s := set_StateReason "" s in
  let s :=
    if bool_decide (AlertState s ≠ eval.ResultState result)
       && bool_decide (eval.ResultState result ≠ eval.Normal)
       && bool_decide (eval.ResultState result ≠ eval.Alerting)
    then set_StateReason (eval.String (eval.ResultState result)) s
    else s in
  set_Resolved
    (bool_decide (oldState = eval.Alerting) && bool_decide (AlertState s = eval.Normal)) s.

Definition nextState (s : State) : State :=
  let s1 := bookkeeping s in
  settle (AlertState s1) (applyResult s1).

End NextState.

(** Whether [setNextState] hands an annotation to a goroutine. *)
Definition annotationDue (old new : State) : bool :=
  bool_decide (AlertState old ≠ AlertState new)
  || bool_decide (StateReason old ≠ StateReason new).

(** The identity of an instance. *)
Definition keyOf (s : State) : Z * string * string :=
  (OrgID s, AlertRuleUID s, CacheID s).

(** ** The cache invariant

    Every cached instance is filed under its own identity
    [(OrgID, AlertRuleUID, CacheID)]; [set] files instances that way. *)
Definition cache_wf (w : World) : Prop :=
  ∀ orgID ruleUID cacheID l,
    cache_get (cache w) orgID ruleUID cacheID = Some l →
    OrgID (heap w !!! l) = orgID
    ∧ AlertRuleUID (heap w !!! l) = ruleUID
    ∧ CacheID (heap w !!! l) = cacheID.

(** The same invariant, as a check that computes. *)
Definition cache_wfb (w : World) : bool :=
  bool_decide
    (map_Forall (λ orgID (rules : gmap string (gmap string loc)),
       map_Forall (λ ruleUID (states : gmap string loc),
         map_Forall (λ cacheID (l : loc),
           OrgID (heap w !!! l) = orgID
           ∧ AlertRuleUID (heap w !!! l) = ruleUID
           ∧ CacheID (heap w !!! l) = cacheID) states) rules) (cache w)).

(** The invariant of the manager's world: the cache invariant, and every
    cached pointer is allocated. *)
Definition manager_inv (w : World) : Prop :=
  cache_wf w
  ∧ ∀ orgID ruleUID cacheID l,
      cache_get (cache w) orgID ruleUID cacheID = Some l → (l < next w)%nat.

(** The transition functions of state.go leave the identity of the
    instance alone. *)
Definition IdentityPreserving (d : Deps) : Prop :=
  ∀ alertRule result s,
    keyOf (resultNormal d alertRule result s) = keyOf s
    ∧ keyOf (resultAlerting d alertRule result s) = keyOf s
    ∧ keyOf (resultError d alertRule result s) = keyOf s
    ∧ keyOf (resultNoData d alertRule result s) = keyOf s.

(** ** The stale sweep, by instance *)

Section Sweep.
Variable r : ngModels.AlertRule.
Variable states : gmap string loc.
Variable evaluatedAt : Time.

(** The instance is missing from the batch and stale: the sweep evicts
    it. *)
Definition evicted (s : State) : bool :=
  negb (bool_decide (is_Some (states !! CacheID s)))
  && isItStale evaluatedAt (LastEvaluationTime s) (ngModels.IntervalSeconds r).

(** It is evicted and was Alerting: the sweep resolves it. *)
Definition resolvedBySweep (s : State) : bool :=
  evicted s && bool_decide (AlertState s = eval.Alerting).

End Sweep.

(** The instance was rebuilt by [Warm] from a persisted instance of a
    fetched org whose rule the rule store returned for that org. *)
Definition warmed (env : Env) (d : Deps) (s : State) : Prop :=
  ∃ tr0 tr1 tr2 orgId entry rule,
    orgId ∈ (FetchOrgIds env tr0).1
    ∧ rule ∈ (ListAlertRules env tr1 orgId).1
    ∧ entry ∈ (ListAlertInstances env tr2 orgId).1
    ∧ ngModels.UID rule = ngModels.RuleUID entry
    ∧ s = stateForEntry entry rule (StringKey d (ngModels.InstLabels entry)).1.

(** What the loops of [Warm] maintain: the cache is untouched, and the
    states listed so far are allocated and satisfy [Q]. *)
Definition warming (Q : State → Prop) (c0 : Cache) (states : list loc) (w : World) : Prop :=
  cache w = c0 ∧ ∀ l, l ∈ states → (l < next w)%nat ∧ Q (heap w !!! l).

(** The staleness condition as the spec words it, in exact arithmetic:
    the last evaluation plus twice the interval is not after the sweep. *)
Definition staleBySpec (evaluatedAt lastEval : Time) (intervalSeconds : Z) : Prop :=
  lastEval + 2 * intervalSeconds * 1000000000 ≤ evaluatedAt.

(** The states of a cache, as a list of entries. *)
Definition cache_entries (c : Cache) : list (Z * string * string * loc) :=
  '(orgID, rules) ← map_to_list c;
  '(ruleUID, states) ← map_to_list (rules : gmap string (gmap string loc));
  '(cacheID, l) ← map_to_list (states : gmap string loc);
  [(orgID, ruleUID, cacheID, l)].

(** * Sample data

    A small installation used to run the definitions on concrete inputs. *)

Module Demo.

Definition deps : Deps := {|
  resultNormal := λ _ res s, set_EndsAt (eval.EvaluatedAt res) (set_AlertState eval.Normal s);
  resultAlerting := λ _ res s,
    set_EndsAt (eval.EvaluatedAt res + 30 * time.Second) (set_AlertState eval.Alerting s);
  resultError := λ _ res s, set_EndsAt (eval.EvaluatedAt res) (set_AlertState eval.Error s);
  resultNoData := λ _ res s, set_EndsAt (eval.EvaluatedAt res) (set_AlertState eval.NoData s);
  TrimResults := λ _ l, drop (length l - 10) l;
  NewEvaluationValues := λ v, v;
  shouldTakeImage := λ new old img resolved,
    bool_decide (new ≠ old) || resolved;
  StringKey := λ l, (default "" (l !! "alertname"), None);
  StringAndHash := λ l, (default "" (l !! "alertname"), default "" (l !! "alertname"), None);
  LabelsString := λ l, default "" (l !! "alertname");
  ParseInt := λ _, None;
  DashboardUIDAnnotation := "__dashboardUid__";
  PanelIDAnnotation := "__panelId__" |}.

(** Collaborators that never fail; the image service has no image. *)
Definition quiet : Env := {|
  FetchOrgIds := λ _, ([1], None);
  ListAlertRules := λ _ _, ([], None);
  ListAlertInstances := λ _ _, ([], None);
  SaveAlertInstance := λ _ _, None;
  DeleteAlertInstance := λ _ _ _ _, None;
  DeleteAlertInstancesByRule := λ _ _, None;
  TakeImage := λ _ _, (None, None);
  GetDashboard := λ _ _ _, (0, None);
  AnnotationsSave := λ _ _, None |}.

(** An image service that fails every other request, and returns image 7
    otherwise. *)
Definition flaky : Env := {|
  FetchOrgIds := λ _, ([1], None);
  ListAlertRules := λ _ _, ([], None);
  ListAlertInstances := λ _ _, ([], None);
  SaveAlertInstance := λ _ _, None;
  DeleteAlertInstance := λ _ _ _ _, None;
  DeleteAlertInstancesByRule := λ _ _, None;
  TakeImage := λ tr _,
    if Nat.even (countEv isTakeImage tr)
    then (None, Some "screenshot failed")
    else (Some 7%positive, None);
  GetDashboard := λ _ _ _, (0, None);
  AnnotationsSave := λ _ _, None |}.

Definition rule (intervalSeconds : Z) : ngModels.AlertRule := {|
  ngModels.ID := 1; ngModels.OrgID := 1; ngModels.UID := "rule-1";
  ngModels.Title := "cpu"; ngModels.Condition := "A";
  ngModels.IntervalSeconds := intervalSeconds;
  ngModels.Annotations := ∅; ngModels.RuleLabels := ∅;
  ngModels.DashboardUID := None; ngModels.PanelID := None |}.

Definition result (name : string) (st : eval.State) (t : Time) : eval.Result := {|
  eval.Instance := {[ "alertname" := name ]}; eval.ResultState := st;
  eval.EvaluatedAt := t; eval.EvaluationDuration := 5;
  eval.EvaluationString := ""; eval.Values := ∅ |}.

Definition empty : World := {| heap := ∅; next := 0%nat; cache := ∅; trace := [] |}.

(** The world after one evaluation at time 0 that found the series "a" and
    "b" Alerting and "c" Normal. *)
Definition firing (intervalSeconds : Z) : World :=
  (ProcessEvalResults quiet deps 0 (rule intervalSeconds)
     [result "a" eval.Alerting 0; result "b" eval.Alerting 0; result "c" eval.Normal 0]
     ∅ empty).2.

(** One persisted Firing instance and its rule. *)
Definition persisted : ngModels.AlertInstance := {|
  ngModels.RuleOrgID := 1; ngModels.RuleUID := "rule-1";
  ngModels.InstLabels := {[ "alertname" := "a" ]};
  ngModels.CurrentState := ngModels.InstanceStateFiring;
  ngModels.CurrentReason := ""; ngModels.CurrentStateSince := 0;
  ngModels.CurrentStateEnd := 30; ngModels.LastEvalTime := 0 |}.


End Demo.

(** * Effects

    Which collaborators an operation talks to, read off its trace. *)

(** The kinds of events. *)
Inductive Kind : Set :=
| KLog | KFetchOrgIds | KListAlertRules | KListAlertInstances
| KSaveAlertInstance | KDeleteAlertInstance | KDeleteAlertInstancesByRule
| KTakeImage | KGetDashboard | KAnnotationSave | KGoAnnotateState.

#[global] Instance Kind_eq_dec : EqDecision Kind.
Proof. solve_decision. Defined.

Definition kindOf (e : Event) : Kind :=
  match e with
  | EvLog _ _ => KLog
  | EvFetchOrgIds => KFetchOrgIds
  | EvListAlertRules _ => KListAlertRules
  | EvListAlertInstances _ => KListAlertInstances
  | EvSaveAlertInstance _ => KSaveAlertInstance
  | EvDeleteAlertInstance _ _ _ => KDeleteAlertInstance
  | EvDeleteAlertInstancesByRule _ => KDeleteAlertInstancesByRule
  | EvTakeImage _ => KTakeImage
  | EvGetDashboard _ _ => KGetDashboard
  | EvAnnotationSave _ => KAnnotationSave
  | EvGoAnnotateState _ _ _ _ _ => KGoAnnotateState
  end.

(** The event is of one of the kinds [ks]. *)
Definition ofKinds (ks : list Kind) (e : Event) : bool :=
  bool_decide (kindOf e ∈ ks).

(** Running [m] appends only events of the kinds [ks] to the trace, whatever
    the world it starts from. *)
Definition emits {A} (ks : list Kind) (m : M A) : Prop :=
  ∀ w, ∃ T, trace (m w).2 = trace w ++ T ∧ Forall (λ e, ofKinds ks e = true) T.

(** The events of a trace that are not log lines. *)
Definition calls (tr : list Event) : list Event :=
  List.filter (λ e, negb (ofKinds [KLog] e)) tr.

(** The persisted instance [entry] holds what the command [cmd] saved. *)
Definition persistedAs (cmd : ngModels.SaveAlertInstanceCommand)
    (entry : ngModels.AlertInstance) : Prop :=
  ngModels.RuleOrgID entry = ngModels.SaveRuleOrgID cmd
  ∧ ngModels.RuleUID entry = ngModels.SaveRuleUID cmd
  ∧ ngModels.InstLabels entry = ngModels.SaveLabels cmd
  ∧ ngModels.CurrentState entry = ngModels.SaveState cmd
  ∧ ngModels.CurrentReason entry = ngModels.SaveStateReason cmd
  ∧ ngModels.CurrentStateSince entry = ngModels.SaveCurrentStateSince cmd
  ∧ ngModels.CurrentStateEnd entry = ngModels.SaveCurrentStateEnd cmd
  ∧ ngModels.LastEvalTime entry = ngModels.SaveLastEvalTime cmd.

(** What the loops of [Warm] maintain besides [warming]: the states listed
    so far are new, and the states that were allocated before are untouched. *)
Definition warm_fresh (n0 : loc) (h0 : gmap loc State) (states : list loc) (w : World) : Prop :=
  (n0 ≤ next w)%nat
  ∧ (∀ l, l ∈ states → (n0 ≤ l)%nat)
  ∧ ∀ l, (l < n0)%nat → heap w !! l = h0 !! l.

(** The store calls [Warm] makes for the org ids it fetched. *)
Definition warmCalls (orgIds : list Z) : list Event :=
  EvFetchOrgIds :: (orgIds ≫= λ orgId, [EvListAlertRules orgId; EvListAlertInstances orgId]).

(** The last state of the list that has the identity [key], if any. *)
Definition lastWithKey (h : gmap loc State) (key : Z * string * string)
    (states : list loc) : option loc :=
  last (List.filter (λ l, bool_decide (keyOf (h !!! l) = key)) states).

Module Samples.
(** An instance store that cannot tell the orgs. *)
Definition noOrgs : Env := {|
  FetchOrgIds := λ _, ([], Some "database is down");
  ListAlertRules := λ _ _, ([Demo.rule 10], None);
  ListAlertInstances := λ _ _, ([Demo.persisted], None);
  SaveAlertInstance := λ _ _, None;
  DeleteAlertInstance := λ _ _ _ _, None;
  DeleteAlertInstancesByRule := λ _ _, None;
  TakeImage := λ _ _, (None, None);
  GetDashboard := λ _ _ _, (0, None);
  AnnotationsSave := λ _ _, None |}.
End Samples.

(** ** One evaluation result, with the image

    What [setNextState] asks of the image service and what it makes of the
    answer, given the instance after the transition and the state it had
    before. *)
Section NextImage.
Variable env : Env.
Variable d : Deps.
Variable alertRule : ngModels.AlertRule.

(** Whether an image is requested. *)
Definition wantsImage (old s' : State) : bool :=
  shouldTakeImage d (AlertState s') (AlertState old) (Image s') (Resolved s').

(** The instance after the image step; [tr] is the history at the
    request. *)
Definition withImage (tr : list Event) (old s' : State) : State :=
  if wantsImage old s' && negb (isErr (TakeImage env tr alertRule).2)
  then match (TakeImage env tr alertRule).1 with
       | Some image => set_Image (Some image) s'
       | None => s'
       end
  else s'.

(** The events of the image step. *)
Definition imageEvents (tr : list Event) (old s' : State) : list Event :=
  if wantsImage old s'
  then EvTakeImage alertRule
       :: (if isErr (TakeImage env tr alertRule).2
           then [EvLog log.Warn "Failed to take an image"] else [])
  else [].

End NextImage.

(** The same instance, the image apart. *)
Definition sameButImage (s1 s2 : State) : Prop :=
  set_Image None s1 = set_Image None s2.

(** The events of the kind [k] in a trace. *)
Definition eventsOf (k : Kind) (tr : list Event) : list Event :=
  List.filter (ofKinds [k]) tr.

(** ** The worlds the manager can be in

    A new manager has an empty cache ([NewManager] builds one with
    [newCache]); from there the world changes by the manager's operations. *)
Inductive reachable (env : Env) (d : Deps) : World → Prop :=
| reach_NewManager h n t :
    reachable env d {| heap := h; next := n; cache := ∅; trace := t |}
| reach_Warm w :
    reachable env d w → reachable env d (Warm env d w).2
| reach_ProcessEvalResults w evaluatedAt alertRule results extraLabels :
    reachable env d w →
    reachable env d (ProcessEvalResults env d evaluatedAt alertRule results extraLabels w).2
| reach_ResetStateByRuleUID w ruleKey :
    reachable env d w → reachable env d (ResetStateByRuleUID env ruleKey w).2
| reach_ResetAllStates w :
    reachable env d w → reachable env d (ResetAllStates w).2
| reach_Put w states :
    reachable env d w → (∀ l, l ∈ states → (l < next w)%nat) →
    reachable env d (Put states w).2.


(** * The answers of the image service *)

(** The answers of the image service to the requests of a trace, oldest
    first; [pre] is the history before the trace. *)
Fixpoint imageAnswers (env : Env) (pre tr : list Event)
    : list (option ngModels.Image * option string) :=
  match tr with
  | [] => []
  | e :: tr' =>
      match e with
      | EvTakeImage r => [TakeImage env pre r]
      | _ => []
      end ++ imageAnswers env (pre ++ [e]) tr'
  end.

(** The answer gives an image: no error, and an image that is not nil. *)
Definition givesImage (answer : option ngModels.Image * option string) : bool :=
  negb (isErr answer.2) && bool_decide (is_Some answer.1).

(** The images a sweep assigns, by the answers it got: each instance
    resolved while no image has been obtained takes the answer to a request
    of its own, and once an answer gives an image no further request is made
    and that image goes to all the instances resolved from there on. *)
Inductive served : list (option ngModels.Image * option string)
                   → list (option ngModels.Image) → Prop :=
| served_none : served [] []
| served_miss a answers imgs :
    givesImage a = false → served answers imgs → served (a :: answers) (None :: imgs)
| served_hit a m :
    givesImage a = true → served [a] (replicate (S m) a.1).

(** * What [Warm] reads from the stores *)

(** An answer of the rule store or of the instance store to a listing. *)
Inductive StoreAnswer : Type :=
| RulesOf (orgID : Z) (rules : list ngModels.AlertRule)
| InstancesOf (orgID : Z) (instances : list ngModels.AlertInstance).

(** The answers of the stores to the listings of a trace, oldest first;
    [pre] is the history before the trace. *)
Fixpoint listAnswers (env : Env) (pre tr : list Event) : list StoreAnswer :=
  match tr with
  | [] => []
  | e :: tr' =>
      match e with
      | EvListAlertRules orgID => [RulesOf orgID (ListAlertRules env pre orgID).1]
      | EvListAlertInstances orgID =>
          [InstancesOf orgID (ListAlertInstances env pre orgID).1]
      | _ => []
      end ++ listAnswers env (pre ++ [e]) tr'
  end.

(** One round of [Warm]: an org, the rules the rule store returned for it
    and the persisted instances the instance store returned for it. *)
Record WarmRound : Type := {
  roundOrg : Z;
  roundRules : list ngModels.AlertRule;
  roundInstances : list ngModels.AlertInstance
}.

(** The answers of a round. *)
Definition roundAnswers (rd : WarmRound) : list StoreAnswer :=
  [RulesOf (roundOrg rd) (roundRules rd); InstancesOf (roundOrg rd) (roundInstances rd)].

(** The rounds of a list of answers: a listing of rules followed by a
    listing of instances. *)
Fixpoint warmRounds (answers : list StoreAnswer) : list WarmRound :=
  match answers with
  | RulesOf orgID rules :: InstancesOf _ instances :: rest =>
      {| roundOrg := orgID; roundRules := rules; roundInstances := instances |}
      :: warmRounds rest
  | _ => []
  end.

(** The [RuleUID] of the persisted instance matches a rule of the list. *)
Definition hasRule (rules : list ngModels.AlertRule) (entry : ngModels.AlertInstance) : bool :=
  bool_decide (ngModels.RuleUID entry ∈ ngModels.UID <$> rules).

(** The instances of the rounds whose rule was returned in their round, in
    order, each with the rules of its round. *)
Definition keptInstances (rounds : list WarmRound)
    : list (list ngModels.AlertRule * ngModels.AlertInstance) :=
  rd ← rounds;
  (λ entry, (roundRules rd, entry)) <$> List.filter (hasRule (roundRules rd)) (roundInstances rd).

(** The instances of the rounds whose rule was not returned in their
    round. *)
Definition orphanInstances (rounds : list WarmRound) : list ngModels.AlertInstance :=
  rd ← rounds;
  List.filter (λ entry, negb (hasRule (roundRules rd) entry)) (roundInstances rd).

(** The identity [Warm] gives the state of a persisted instance. *)
Definition instanceKey (d : Deps) (entry : ngModels.AlertInstance) : Z * string * string :=
  (ngModels.RuleOrgID entry, ngModels.RuleUID entry,
   (StringKey d (ngModels.InstLabels entry)).1).

(** The states of the heap [h] from the location [n] on are the states
    rebuilt from the instances [kept], in order, each from its instance and
    the rule that the index of the rules of its round holds for it. *)
Definition rebuiltAt (d : Deps) (h : gmap loc State) (n : loc)
    (kept : list (list ngModels.AlertRule * ngModels.AlertInstance)) : Prop :=
  ∀ k rules entry, kept !! k = Some (rules, entry) →
    ∃ rule, indexRules rules !! ngModels.RuleUID entry = Some rule
          ∧ h !! (n + k)%nat
            = Some (stateForEntry entry rule (StringKey d (ngModels.InstLabels entry)).1).

Module Restart.
(** A persisted instance whose rule has been deleted. *)
Definition orphan : ngModels.AlertInstance := {|
  ngModels.RuleOrgID := 1; ngModels.RuleUID := "rule-gone";
  ngModels.InstLabels := {[ "alertname" := "o" ]};
  ngModels.CurrentState := ngModels.InstanceStateFiring;
  ngModels.CurrentReason := ""; ngModels.CurrentStateSince := 0;
  ngModels.CurrentStateEnd := 30; ngModels.LastEvalTime := 0 |}.

(** A persisted Normal instance of the rule "rule-1". *)
Definition normal : ngModels.AlertInstance := {|
  ngModels.RuleOrgID := 1; ngModels.RuleUID := "rule-1";
  ngModels.InstLabels := {[ "alertname" := "n" ]};
  ngModels.CurrentState := ngModels.InstanceStateNormal;
  ngModels.CurrentReason := ""; ngModels.CurrentStateSince := 0;
  ngModels.CurrentStateEnd := 0; ngModels.LastEvalTime := 0 |}.

(** A persisted instance of the rule "rule-1" stored as NoData. *)
Definition noData : ngModels.AlertInstance := {|
  ngModels.RuleOrgID := 1; ngModels.RuleUID := "rule-1";
  ngModels.InstLabels := {[ "alertname" := "d" ]};
  ngModels.CurrentState := "NoData";
  ngModels.CurrentReason := ""; ngModels.CurrentStateSince := 0;
  ngModels.CurrentStateEnd := 0; ngModels.LastEvalTime := 0 |}.

(** Stores that hold one org with the rule "rule-1" and four persisted
    instances, one of them of a rule that is gone. The rule store returns the
    rule only when it is asked right after the org ids were fetched. *)
Definition stores : Env := {|
  FetchOrgIds := λ _, ([1], None);
  ListAlertRules := λ tr _,
    match last tr with
    | Some EvFetchOrgIds => ([Demo.rule 10], None)
    | _ => ([], None)
    end;
  ListAlertInstances := λ _ _, ([Demo.persisted; orphan; normal; noData], None);
  SaveAlertInstance := λ _ _, None;
  DeleteAlertInstance := λ _ _ _ _, None;
  DeleteAlertInstancesByRule := λ _ _, None;
  TakeImage := λ _ _, (None, None);
  GetDashboard := λ _ _ _, (0, None);
  AnnotationsSave := λ _ _, None |}.
End Restart.

(** * The results of a batch, and its saves *)

(** The cache id under which [getOrCreate] looks up, or files, the instance
    of an evaluation result: the key of the result's labels merged with the
    rule's labels and the extra labels. *)
Definition resultID (d : Deps) (alertRule : ngModels.AlertRule) (extraLabels : Labels)
    (result : eval.Result) : string :=
  (StringKey d (extraLabels ∪ ngModels.RuleLabels alertRule ∪ eval.Instance result)).1.

(** The line [ProcessEvalResults] logs when a save fails. *)
Definition saveFailed : Event := EvLog log.Error "failed to save alert state".

(** In the trace [T], which follows the history [pre], the saves that the
    instance store answered with an error are those that are followed at once
    by the line [saveFailed]. *)
Definition savesLogged (env : Env) (pre T : list Event) : Prop :=
  ∀ T1 cmd T2, T = T1 ++ EvSaveAlertInstance cmd :: T2 →
    head T2 = Some saveFailed ↔ isErr (SaveAlertInstance env (pre ++ T1) cmd) = true.

(** Running [m] appends only events that satisfy [p] to the trace, whatever
    the world it starts from. *)
Definition emitsOnly {A} (p : Event → bool) (m : M A) : Prop :=
  ∀ w, ∃ T, trace (m w).2 = trace w ++ T ∧ Forall (λ e, p e = true) T.

(** Neither a save nor the line that reports a failed save. *)
Definition noSave (e : Event) : bool :=
  negb (ofKinds [KSaveAlertInstance] e)
  && negb (isErrorLog "failed to save alert state" e).

Module Outage.
(** The collaborators of [Demo.quiet] with an instance store that refuses
    the saves of the series "a". *)
Definition env : Env :=
  withSaveAlertInstance
    (λ _ cmd, if bool_decide (ngModels.SaveLabels cmd !! "alertname" = Some "a")
              then Some "database is down" else None)
    Demo.quiet.
End Outage.
(** * The authentication middleware (package [middleware], auth.go)

    A handler reads the request context and answers by calling methods of
    the context ([JsonApiErr], [JSON], [Redirect]) or by writing a cookie;
    these calls, and the queries to the SQL store, are recorded in order. A
    handler that records nothing lets the request through. *)

From Stdlib Require Import Ascii.

Module middleware.

(** [strconv.ParseBool] of the Go standard library; [None] is an error. *)
Definition ParseBool (str : string) : option bool :=
  if bool_decide (str ∈ ["1"; "t"; "T"; "true"; "TRUE"; "True"]) then Some true
  else if bool_decide (str ∈ ["0"; "f"; "F"; "false"; "FALSE"; "False"]) then Some false
  else None.

(** [strings.HasPrefix(s, prefix)] *)
Definition HasPrefix (s prefix : string) : bool := String.prefix prefix s.

(** [models.RoleType] is a string type. *)
Definition RoleType := string.

(** The error [c.LookupTokenErr], as [errors.As] sees it: it holds a
    [*models.TokenRevokedError] or it does not. *)
Inductive LookupErr : Type :=
| TokenRevokedError (MaxConcurrentSessions : Z)
| OtherError (msg : string).

(** [models.ReqContext]; only what the handlers read. *)
Record ReqContext : Type := {
  IsApiRequest : bool;                  (* the answer of [c.IsApiRequest()] *)
  IsSignedIn : bool;
  IsGrafanaAdmin : bool;
  AllowAnonymous : bool;
  OrgRole : RoleType;
  OrgId : Z;
  HasRoleEditor : bool;                 (* [c.SignedInUser.HasRole(models.ROLE_EDITOR)] *)
  LookupTokenErr : option LookupErr;
  RequestURI : string;                  (* [c.Req.RequestURI] *)
  Query : string → string               (* [c.Req.URL.Query().Get(key)] *)
}.

Record AuthOptions : Type := {
  ReqGrafanaAdmin : bool;
  ReqSignedIn : bool;
  ReqNoAnonynmous : bool
}.

(** What the package reads from other packages: the settings, the admin
    role constant, and two library functions. *)
Record Deps : Type := {
  AppSubUrl : string;                   (* [setting.AppSubUrl] *)
  ViewersCanEdit : bool;                (* [setting.ViewersCanEdit] *)
  ROLE_ADMIN : RoleType;                (* [models.ROLE_ADMIN] *)
  ParseInt : string → option Z;         (* [strconv.ParseInt(s, 10, 64)] *)
  QueryEscape : string → string         (* [url.QueryEscape] *)
}.

(** The answers of the SQL store: the query's [Result], and an error. *)
Record Store : Type := {
  HasAdminPermissionInFolders : bool * option string;
  IsAdminOfTeams : bool * option string
}.

Inductive Event : Type :=
| EvJsonApiErr (status : Z) (message : string)
  (* [c.JSON(status, {message, error: {id, maxConcurrentSessions}})] *)
| EvJSON (status : Z) (message id : string) (maxConcurrentSessions : Z)
| EvRedirect (location : string)
| EvWriteCookie (name value : string) (maxAge : Z)
| EvHasAdminPermissionInFolders
| EvIsAdminOfTeams.

(** [forceLoginParamsRegexp.ReplaceAllString(str, "")] for the regular
    expression [&?forceLogin=true]: the matches are found from left to
    right, the leftmost one first, with the ampersand when there is one, and
    none overlaps the one before. [skip] counts the characters of the
    current match that are still to be dropped. *)
Fixpoint removeForceLoginParams_from (skip : nat) (str : string) : string :=
  match str with
  | "" => ""
  | String ch rest =>
      match skip with
      | S skip' => removeForceLoginParams_from skip' rest
      | O =>
          if String.prefix "&forceLogin=true" str
          then removeForceLoginParams_from 15 rest
          else if String.prefix "forceLogin=true" str
          then removeForceLoginParams_from 14 rest
          else String ch (removeForceLoginParams_from 0 rest)
      end
  end.

Definition removeForceLoginParams (str : string) : string :=
  removeForceLoginParams_from 0 str.

(** Whether [sub] occurs in [str]. *)
Fixpoint contains (sub str : string) : bool :=
  String.prefix sub str
  || match str with
     | "" => false
     | String _ rest => contains sub rest
     end.

Section Handlers.
Variable s : Deps.

Definition accessForbidden (c : ReqContext) : list Event :=
  if IsApiRequest c then [EvJsonApiErr 403 "Permission denied"]
  else [EvRedirect (AppSubUrl s +:+ "/")].

Definition writeRedirectCookie (c : ReqContext) : list Event :=
  let redirectTo := RequestURI c in
  let redirectTo :=
    if negb (bool_decide (AppSubUrl s = "")) && negb (HasPrefix redirectTo (AppSubUrl s))
    then AppSubUrl s +:+ RequestURI c
    else redirectTo in
  (* remove any forceLogin=true params *)
  let redirectTo := removeForceLoginParams redirectTo in
  [EvWriteCookie "redirect_to" (QueryEscape s redirectTo) 0].

Definition notAuthorized (c : ReqContext) : list Event :=
  if IsApiRequest c then [EvJsonApiErr 401 "Unauthorized"]
  else writeRedirectCookie c ++ [EvRedirect (AppSubUrl s +:+ "/login")].

Definition tokenRevoked (c : ReqContext) (MaxConcurrentSessions : Z) : list Event :=
  if IsApiRequest c
  then [EvJSON 401 "Token revoked" "ERR_TOKEN_REVOKED" MaxConcurrentSessions]
  else writeRedirectCookie c ++ [EvRedirect (AppSubUrl s +:+ "/login")].

Definition EnsureEditorOrViewerCanEdit (c : ReqContext) : list Event :=
  if negb (HasRoleEditor c) && negb (ViewersCanEdit s) then accessForbidden c else [].

(** The loop of [RoleAuth]: [ok] becomes true at the first role that is the
    user's, and the loop stops there. *)
Fixpoint RoleAuth_ok (roles : list RoleType) (c : ReqContext) : bool :=
  match roles with
  | [] => false
  | role :: roles' => if bool_decide (role = OrgRole c) then true else RoleAuth_ok roles' c
  end.

Definition RoleAuth (roles : list RoleType) (c : ReqContext) : list Event :=
  let ok := RoleAuth_ok roles c in
  if negb ok then accessForbidden c else [].

(** [shouldForceLogin] checks if user should be enforced to login. *)
Definition shouldForceLogin (c : ReqContext) : bool :=
  let forceLogin := false in
  match ParseBool (Query c "forceLogin") with
  | Some forceLoginParam => forceLoginParam
  | None => forceLogin
  end.

Definition Auth (options : AuthOptions) (c : ReqContext) : list Event :=
  let forceLogin := false in
  let forceLogin :=
    if AllowAnonymous c then
      let forceLogin := shouldForceLogin c in
      if negb forceLogin then
        let orgIDValue := Query c "orgId" in
        match ParseInt s orgIDValue with
        | Some orgID =>
            if bool_decide (0 < orgID) && negb (bool_decide (orgID = OrgId c))
            then true else forceLogin
        | None => forceLogin
        end
      else forceLogin
    else forceLogin in
  let requireLogin :=
    negb (AllowAnonymous c) || forceLogin || ReqNoAnonynmous options in
  if negb (IsSignedIn c) && ReqSignedIn options && requireLogin then
    match LookupTokenErr c with
    | Some (TokenRevokedError max) => tokenRevoked c max
    | _ => notAuthorized c
    end
  else if negb (IsGrafanaAdmin c) && ReqGrafanaAdmin options then accessForbidden c
  else [].

Definition AdminOrFeatureEnabled (enabled : bool) (c : ReqContext) : list Event :=
  if bool_decide (OrgRole c = ROLE_ADMIN s) then []
  else if negb enabled then accessForbidden c else [].

Definition SnapshotPublicModeOrSignedIn (SnapshotPublicMode : bool) (c : ReqContext)
    : list Event :=
  if SnapshotPublicMode then []
  else if negb (IsSignedIn c) then notAuthorized c else [].

Definition ReqNotSignedIn (c : ReqContext) : list Event :=
  if IsSignedIn c then [EvRedirect (AppSubUrl s +:+ "/")] else [].

Definition NoAuth (c : ReqContext) : list Event :=
  if shouldForceLogin c then notAuthorized c else [].

Definition OrgAdminFolderAdminOrTeamAdmin (store : Store) (c : ReqContext) : list Event :=
  if bool_decide (OrgRole c = ROLE_ADMIN s) then []
  else
    let '(folderResult, err) := HasAdminPermissionInFolders store in
    [EvHasAdminPermissionInFolders]
    ++ (if isErr err
        then [EvJsonApiErr 500 "Failed to check if user is a folder admin"] else [])
    ++ if folderResult then []
       else
         let '(teamResult, err) := IsAdminOfTeams store in
         [EvIsAdminOfTeams]
         ++ (if isErr err
             then [EvJsonApiErr 500 "Failed to check if user is a team admin"] else [])
         ++ if teamResult then [] else accessForbidden c.

End Handlers.

(** The event answers an API request: a JSON body with status 401 or
    403. *)
Definition isApiAnswer (e : Event) : bool :=
  match e with
  | EvJsonApiErr status _ => bool_decide (status = 401 ∨ status = 403)
  | EvJSON status _ _ _ => bool_decide (status = 401)
  | _ => false
  end.

(** The events answer a browser request: a redirect to the root, or the
    [redirect_to] cookie followed by a redirect to the login page. *)
Definition isBrowserAnswer (s : Deps) (evs : list Event) : bool :=
  match evs with
  | [EvRedirect location] => bool_decide (location = AppSubUrl s +:+ "/")
  | [EvWriteCookie name _ maxAge; EvRedirect location] =>
      bool_decide (name = "redirect_to" ∧ maxAge = 0 ∧ location = AppSubUrl s +:+ "/login")
  | _ => false
  end.

(** The handler lets the request through, or answers it once, in the way
    that fits the kind of request. *)
Definition answersInKind (s : Deps) (c : ReqContext) (evs : list Event) : Prop :=
  evs = []
  ∨ if IsApiRequest c
    then ∃ e, evs = [e] ∧ isApiAnswer e = true
    else isBrowserAnswer s evs = true.

(** The [orgId] query parameter names an org other than the user's. *)
Definition orgMismatch (s : Deps) (c : ReqContext) : bool :=
  match ParseInt s (Query c "orgId") with
  | Some orgID => bool_decide (0 < orgID ∧ orgID ≠ OrgId c)
  | None => false
  end.

(** The queries and the error answers of [OrgAdminFolderAdminOrTeamAdmin]
    that do not decide the request. *)
Definition isCheck (e : Event) : bool :=
  match e with
  | EvHasAdminPermissionInFolders | EvIsAdminOfTeams => true
  | EvJsonApiErr status _ => bool_decide (status = 500)
  | _ => false
  end.

(** The answer reports a failed query. *)
Definition isServerError (e : Event) : bool :=
  match e with
  | EvJsonApiErr status _ => bool_decide (status = 500)
  | _ => false
  end.

End middleware.

(** * Properties *)

(** ** Running the monad, one statement at a time *)

Lemma run_bind {A B} (m : M A) (k : A → M B) (w : World) (a : A) (w' : World) :
  m w = (a, w') → (m ≫= k) w = k a w'.
Proof. intros E. unfold mbind, M_bind. by rewrite E. Qed.

Lemma run_assoc {A B C} (m : M A) (f : A → M B) (k : B → M C) (w : World) :
  ((m ≫= f) ≫= k) w = (m ≫= (λ a, f a ≫= k)) w.
Proof. unfold mbind, M_bind. by destruct (m w). Qed.

Lemma run_ret {A B} (a : A) (k : A → M B) (w : World) : (ret a ≫= k) w = k a w.
Proof. done. Qed.

Lemma run_modify {B} l f (k : unit → M B) h n c t :
  (modify l f ≫= k) {| heap := h; next := n; cache := c; trace := t |}
  = k tt {| heap := <[l := f (h !!! l)]> h; next := n; cache := c; trace := t |}.
Proof. done. Qed.

Lemma run_deref {B} l (k : State → M B) (w : World) :
  (deref l ≫= k) w = k (heap w !!! l) w.
Proof. done. Qed.

Lemma run_emit {B} e (k : unit → M B) h n c t :
  (emit e ≫= k) {| heap := h; next := n; cache := c; trace := t |}
  = k tt {| heap := h; next := n; cache := c; trace := t ++ [e] |}.
Proof. done. Qed.

Lemma run_logf {B} lvl msg (k : unit → M B) h n c t :
  (logf lvl msg ≫= k) {| heap := h; next := n; cache := c; trace := t |}
  = k tt {| heap := h; next := n; cache := c; trace := t ++ [EvLog lvl msg] |}.
Proof. done. Qed.

Lemma run_call {A B} e (answer : list Event → A) (k : A → M B) h n c t :
  (call e answer ≫= k) {| heap := h; next := n; cache := c; trace := t |}
  = k (answer t) {| heap := h; next := n; cache := c; trace := t ++ [e] |}.
Proof. done. Qed.

Lemma run_with_cache {B} f (k : unit → M B) h n c t :
  (with_cache f ≫= k) {| heap := h; next := n; cache := c; trace := t |}
  = k tt {| heap := h; next := n; cache := f c; trace := t |}.
Proof. done. Qed.

Lemma run_alloc {B} s (k : loc → M B) h n c t :
  (alloc s ≫= k) {| heap := h; next := n; cache := c; trace := t |}
  = k n {| heap := <[n := s]> h; next := S n; cache := c; trace := t |}.
Proof. done. Qed.

Lemma run_set {B} l (k : unit → M B) h n c t :
  (cache_.set l ≫= k) {| heap := h; next := n; cache := c; trace := t |}
  = k tt {| heap := h; next := n;
            cache := cache_insert (OrgID (h !!! l)) (AlertRuleUID (h !!! l))
                       (CacheID (h !!! l)) l c;
            trace := t |}.
Proof. done. Qed.

Lemma heap_insert_read (h : gmap loc State) l s : <[l := s]> h !!! l = s.
Proof. by rewrite lookup_total_insert_eq. Qed.

Lemma run_when_modify {B} (b : bool) l f (k : unit → M B) h n c t s :
  (when b (modify l f) ≫= k) {| heap := <[l := s]> h; next := n; cache := c; trace := t |}
  = k tt {| heap := <[l := if b then f s else s]> h; next := n; cache := c; trace := t |}.
Proof.
  destruct b; simpl; [|done].
  by rewrite run_modify, lookup_total_insert_eq, insert_insert_eq.
Qed.

Ltac heap_norm :=
  cbv beta zeta;
  rewrite ?heap_insert_read, ?insert_insert_eq.

Ltac step :=
  rewrite ?run_assoc;
  first [ rewrite run_modify | rewrite run_deref | rewrite run_logf
        | rewrite run_emit | rewrite run_call | rewrite run_with_cache
        | rewrite run_alloc | rewrite run_ret ];
  cbn [heap next cache trace]; heap_norm.

(** ** Counting events *)

Lemma countEv_app p tr1 tr2 :
  countEv p (tr1 ++ tr2) = (countEv p tr1 + countEv p tr2)%nat.
Proof. unfold countEv. by rewrite List.filter_app, length_app. Qed.

Lemma countEv_snoc p tr e :
  countEv p (tr ++ [e]) = (countEv p tr + if p e then 1 else 0)%nat.
Proof. rewrite countEv_app. unfold countEv. simpl. by destruct (p e). Qed.

(** ** [setNextState] refines [nextState] *)

Lemma getOrCreate_trace d alertRule result extraLabels w :
  trace (getOrCreate d alertRule result extraLabels w).2 = trace w.
Proof.
  unfold getOrCreate, cache_.getOrCreate.
  by destruct (cache_get _ _ _ _).
Qed.

Lemma run_switch {B} d alertRule result l (k : unit → M B) h n c t s :
  (match eval.ResultState result with
   | eval.Normal => modify l (resultNormal d alertRule result)
   | eval.Alerting => modify l (resultAlerting d alertRule result)
   | eval.Error => modify l (resultError d alertRule result)
   | eval.NoData => modify l (resultNoData d alertRule result)
   | eval.Pending => ret tt
   end ≫= k) {| heap := <[l := s]> h; next := n; cache := c; trace := t |}
  = k tt {| heap := <[l := applyResult d alertRule result s]> h;
            next := n; cache := c; trace := t |}.
Proof. unfold applyResult. destruct (eval.ResultState result); by step. Qed.

Lemma run_image env alertRule l (b : bool) h n c t s :
  ∃ t' s',
    (s' = s ∨ ∃ img, s' = set_Image (Some img) s)
    ∧ countEv isGoAnnotate t' = countEv isGoAnnotate t
    ∧ ∀ B (k : unit → M B),
      (when b
         (takeImage env alertRule ≫= λ '(image, err),
            if isErr err then logf log.Warn "Failed to take an image"
            else match image with
                 | Some _ => modify l (set_Image image)
                 | None => ret tt
                 end) ≫= k)
        {| heap := <[l := s]> h; next := n; cache := c; trace := t |}
      = k tt {| heap := <[l := s']> h; next := n; cache := c; trace := t' |}.
Proof.
  destruct b; [|by eexists t, s; split; [left|]].
  unfold when, takeImage.
  destruct (TakeImage env t alertRule) as [image err] eqn:E.
  destruct (isErr err) eqn:Eerr; [|destruct image as [img|]].
  - eexists _, s. split; [by left|]. split; [|intros; step; rewrite E, Eerr; by step].
    rewrite !countEv_snoc. simpl. lia.
  - eexists _, (set_Image (Some img) s). split; [right; by eexists|].
    split; [|intros; step; rewrite E, Eerr; by step].
    rewrite !countEv_snoc. simpl. lia.
  - eexists _, s. split; [by left|]. split; [|intros; step; rewrite E, Eerr; by step].
    rewrite !countEv_snoc. simpl. lia.
Qed.

Lemma setNextState_spec env d alertRule result extraLabels w :
  let l := (getOrCreate d alertRule result extraLabels w).1 in
  let w0 := (getOrCreate d alertRule result extraLabels w).2 in
  let s' := nextState d alertRule result (heap w0 !!! l) in
  ∃ w', setNextState env d alertRule result extraLabels w = (l, w')
      ∧ (heap w' !!! l = s' ∨ ∃ img, heap w' !!! l = set_Image (Some img) s')
      ∧ (∀ l', l' ≠ l → heap w' !! l' = heap w0 !! l')
      ∧ cache w' = cache_insert (OrgID s') (AlertRuleUID s') (CacheID s') l (cache w0)
      ∧ next w' = next w0
      ∧ countEv isGoAnnotate (trace w') =
          (countEv isGoAnnotate (trace w)
           + if annotationDue (heap w0 !!! l) s' then 1 else 0)%nat.
Proof.
  intros l w0 s'.
  unfold setNextState.
  erewrite run_bind; [|apply surjective_pairing]. fold l w0.
  pose proof (getOrCreate_trace d alertRule result extraLabels w) as Ht. fold w0 in Ht.
  clearbody w0 l. destruct w0 as [h n c t]. simpl in Ht. subst t.
  cbn [heap] in s'.
  do 5 step.
  change (<[l := _]> h) with (<[l := bookkeeping d alertRule result (h !!! l)]> h).
  assert (Hold : AlertState (bookkeeping d alertRule result (h !!! l)) = AlertState (h !!! l))
    by done.
  assert (Holdr : StateReason (bookkeeping d alertRule result (h !!! l)) = StateReason (h !!! l))
    by done.
  unfold annotationDue. rewrite <- Hold, <- Holdr. clear Hold Holdr.
  subst s'. unfold nextState. cbv zeta.
  generalize (bookkeeping d alertRule result (h !!! l)). intros s1.
  do 2 step. rewrite run_switch.
  generalize (applyResult d alertRule result s1). intros s2.
  do 2 step. rewrite run_when_modify. step.
  change (<[l := _]> h) with (<[l := settle result (AlertState s1) s2]> h).
  generalize (settle result (AlertState s1) s2). intros s3.
  step.
  destruct (run_image env alertRule l
    (shouldTakeImage d (AlertState s3) (AlertState s1) (Image s3) (Resolved s3)) h n c
    (trace w ++ [EvLog log.Debug "setting alert state"]) s3) as (t' & s4 & Hs4 & Ht' & Hrun).
  rewrite Hrun. clear Hrun.
  unfold set. rewrite run_set. heap_norm. step.
  assert (Hid : OrgID s4 = OrgID s3 ∧ AlertRuleUID s4 = AlertRuleUID s3
                ∧ CacheID s4 = CacheID s3
                ∧ AlertState s4 = AlertState s3 ∧ StateReason s4 = StateReason s3).
  { by destruct Hs4 as [->|[img ->]]. }
  destruct Hid as (-> & -> & -> & -> & ->).
  destruct (bool_decide (AlertState s1 ≠ AlertState s3)
            || bool_decide (StateReason s1 ≠ StateReason s3));
    unfold when; step; (eexists; split; [reflexivity|]); cbn [heap cache trace next];
    rewrite heap_insert_read; (split; [done|]);
    (split; [by intros; rewrite lookup_insert_ne|]); (split; [done|]); (split; [done|]).
  - rewrite countEv_snoc, Ht', countEv_snoc. simpl. lia.
  - rewrite Ht', countEv_snoc. simpl. lia.
Qed.

Lemma settle_AlertState result o s : AlertState (settle result o s) = AlertState s.
Proof. unfold settle. cbv zeta. by destruct (_ && _ && _). Qed.

Lemma settle_Resolved result o s :
  Resolved (settle result o s)
  = bool_decide (o = eval.Alerting) && bool_decide (AlertState s = eval.Normal).
Proof. unfold settle. cbv zeta. by destruct (_ && _ && _). Qed.

Lemma settle_StateReason result o s :
  StateReason (settle result o s)
  = if bool_decide (AlertState s ≠ eval.ResultState result)
       && bool_decide (eval.ResultState result ≠ eval.Normal)
       && bool_decide (eval.ResultState result ≠ eval.Alerting)
    then eval.String (eval.ResultState result) else "".
Proof. unfold settle. cbv zeta. simpl. by destruct (_ && _ && _). Qed.

Lemma settle_frame result o s :
  StartsAt (settle result o s) = StartsAt s
  ∧ EndsAt (settle result o s) = EndsAt s
  ∧ LastEvaluationTime (settle result o s) = LastEvaluationTime s
  ∧ EvaluationDuration (settle result o s) = EvaluationDuration s
  ∧ Results (settle result o s) = Results s.
Proof. unfold settle. cbv zeta. by destruct (_ && _ && _). Qed.

Lemma eval_String_nonempty s : eval.String s ≠ "".
Proof. by destruct s. Qed.

(** What [setNextState] leaves in the instance, field by field: the image
    apart, it is [nextState] of the instance [getOrCreate] returned. *)
Lemma setNextState_fields env d alertRule result extraLabels w :
  let l0 := (getOrCreate d alertRule result extraLabels w).1 in
  let w0 := (getOrCreate d alertRule result extraLabels w).2 in
  let l := (setNextState env d alertRule result extraLabels w).1 in
  let w' := (setNextState env d alertRule result extraLabels w).2 in
  let s' := nextState d alertRule result (heap w0 !!! l0) in
  l = l0
  ∧ AlertState (heap w' !!! l) = AlertState s'
  ∧ StateReason (heap w' !!! l) = StateReason s'
  ∧ Resolved (heap w' !!! l) = Resolved s'
  ∧ StartsAt (heap w' !!! l) = StartsAt s'
  ∧ EndsAt (heap w' !!! l) = EndsAt s'
  ∧ LastEvaluationTime (heap w' !!! l) = LastEvaluationTime s'
  ∧ EvaluationDuration (heap w' !!! l) = EvaluationDuration s'
  ∧ Results (heap w' !!! l) = Results s'
  ∧ countEv isGoAnnotate (trace w') =
      (countEv isGoAnnotate (trace w)
       + if annotationDue (heap w0 !!! l0) s' then 1 else 0)%nat.
Proof.
  intros l0 w0 l w' s'.
  destruct (setNextState_spec env d alertRule result extraLabels w)
    as (w1 & Hrun & Hs & _ & _ & _ & Hcount).
  fold l0 w0 s' in Hrun, Hs, Hcount.
  subst l w'. rewrite Hrun. cbn [fst snd].
  split; [done|].
  by destruct Hs as [->|[img ->]].
Qed.

(** C2. For every evaluation result processed by [setNextState], the
    resulting state's [Resolved] flag is true if and only if the instance's
    state before the transition was Alerting and its state after the
    transition is Normal; in every other transition, Alerting to Alerting
    included, it is false. *)
Theorem setNextState_Resolved env d alertRule result extraLabels w :
  let got := getOrCreate d alertRule result extraLabels w in
  let ran := setNextState env d alertRule result extraLabels w in
  let old := heap got.2 !!! got.1 in
  let new := heap ran.2 !!! ran.1 in
  ran.1 = got.1
  ∧ (Resolved new = true
     ↔ AlertState old = eval.Alerting ∧ AlertState new = eval.Normal)
  ∧ (Resolved new = false
     ↔ ¬ (AlertState old = eval.Alerting ∧ AlertState new = eval.Normal))
  ∧ (AlertState old = eval.Alerting ∧ AlertState new = eval.Alerting
     → Resolved new = false).
Proof.
  intros got ran old new.
  destruct (setNextState_fields env d alertRule result extraLabels w)
    as (Hl & HA & _ & HR & _).
  fold got ran in Hl, HA, HR. fold new old in HA, HR.
  rewrite HA, HR. unfold nextState. cbv zeta.
  rewrite settle_Resolved, settle_AlertState.
  change (AlertState (bookkeeping d alertRule result old)) with (AlertState old).
  split; [done|].
  rewrite andb_true_iff, !bool_decide_eq_true.
  split; [done|]. split.
  - rewrite <- not_true_iff_false, andb_true_iff, !bool_decide_eq_true. done.
  - intros [-> E]. rewrite E. done.
Qed.

(** The series "a" is found Alerting at time 0 and again at time 10: the
    second transition, Alerting to Alerting, is not a resolution. *)
Lemma setNextState_Resolved_witness :
  let w1 := (setNextState Demo.quiet Demo.deps (Demo.rule 10)
               (Demo.result "a" eval.Alerting 0) ∅ Demo.empty).2 in
  let got := getOrCreate Demo.deps (Demo.rule 10) (Demo.result "a" eval.Alerting 10) ∅ w1 in
  let ran := setNextState Demo.quiet Demo.deps (Demo.rule 10)
               (Demo.result "a" eval.Alerting 10) ∅ w1 in
  (AlertState (heap got.2 !!! got.1) = eval.Alerting
   ∧ AlertState (heap ran.2 !!! ran.1) = eval.Alerting)
  ∧ Resolved (heap ran.2 !!! ran.1) = false.
Proof.
  intros w1 got ran.
  assert (H : AlertState (heap got.2 !!! got.1) = eval.Alerting
              ∧ AlertState (heap ran.2 !!! ran.1) = eval.Alerting)
    by (by vm_compute).
  split; [exact H|].
  exact (proj2 (proj2 (proj2 (setNextState_Resolved Demo.quiet Demo.deps (Demo.rule 10)
                                (Demo.result "a" eval.Alerting 10) ∅ w1))) H).
Defined.

(** C3. After [setNextState] processes any evaluation result, the
    instance's [StateReason] is non-empty if and only if the instance's
    resulting state differs from the raw result's state and the raw result's
    state is neither Normal nor Alerting; when non-empty, it is the name of
    the raw result's state. *)
Theorem setNextState_StateReason env d alertRule result extraLabels w :
  let ran := setNextState env d alertRule result extraLabels w in
  let new := heap ran.2 !!! ran.1 in
  (StateReason new ≠ ""
   ↔ AlertState new ≠ eval.ResultState result
     ∧ eval.ResultState result ≠ eval.Normal
     ∧ eval.ResultState result ≠ eval.Alerting)
  ∧ (StateReason new = "" ∨ StateReason new = eval.String (eval.ResultState result)).
Proof.
  intros ran new.
  destruct (setNextState_fields env d alertRule result extraLabels w)
    as (_ & HA & HR & _).
  fold ran in HA, HR. fold new in HA, HR.
  rewrite HA, HR. unfold nextState. cbv zeta.
  rewrite settle_StateReason, settle_AlertState.
  destruct (_ && _ && _) eqn:E.
  - rewrite !andb_true_iff, !bool_decide_eq_true in E.
    split; [|by right]. split; [tauto|]. intros _. apply eval_String_nonempty.
  - split; [|by left]. split; [done|]. intros H.
    rewrite <- not_true_iff_false, !andb_true_iff, !bool_decide_eq_true in E. tauto.
Qed.

(** C9. When an evaluation result has state Pending, the state-setting
    switch applies no transition function: the instance's [AlertState],
    [StartsAt] and [EndsAt] are as [getOrCreate] returned them, while the
    bookkeeping fields ([LastEvaluationTime], [EvaluationDuration], the
    [Results] history) are updated. *)
Theorem setNextState_Pending env d alertRule result extraLabels w
    (HPending : eval.ResultState result = eval.Pending) :
  let got := getOrCreate d alertRule result extraLabels w in
  let ran := setNextState env d alertRule result extraLabels w in
  let old := heap got.2 !!! got.1 in
  let new := heap ran.2 !!! ran.1 in
  ran.1 = got.1
  ∧ AlertState new = AlertState old
  ∧ StartsAt new = StartsAt old
  ∧ EndsAt new = EndsAt old
  ∧ LastEvaluationTime new = eval.EvaluatedAt result
  ∧ EvaluationDuration new = eval.EvaluationDuration result
  ∧ Results new =
      TrimResults d alertRule (Results old ++ [ {|
        EvaluationTime := eval.EvaluatedAt result;
        EvaluationState := eval.Pending;
        EvalValues := NewEvaluationValues d (eval.Values result);
        EvalCondition := ngModels.Condition alertRule |} ]).
Proof.
  intros got ran old new.
  destruct (setNextState_fields env d alertRule result extraLabels w)
    as (Hl & HA & _ & _ & HS & HE & HL & HD & HRs & _).
  fold got ran in Hl, HA, HS, HE, HL, HD, HRs. fold new old in HA, HS, HE, HL, HD, HRs.
  rewrite HA, HS, HE, HL, HD, HRs. unfold nextState. cbv zeta.
  rewrite settle_AlertState.
  destruct (settle_frame result
    (AlertState (bookkeeping d alertRule result old))
    (applyResult d alertRule result (bookkeeping d alertRule result old)))
    as (-> & -> & -> & -> & ->).
  unfold applyResult. rewrite HPending. simpl. by rewrite HPending.
Qed.

(** A Pending result at time 0 for a series never seen before. *)
Lemma setNextState_Pending_witness :
  let result := Demo.result "a" eval.Pending 0 in
  let got := getOrCreate Demo.deps (Demo.rule 10) result ∅ Demo.empty in
  let ran := setNextState Demo.quiet Demo.deps (Demo.rule 10) result ∅ Demo.empty in
  let old := heap got.2 !!! got.1 in
  let new := heap ran.2 !!! ran.1 in
  eval.ResultState result = eval.Pending
  ∧ AlertState new = AlertState old
  ∧ StartsAt new = StartsAt old
  ∧ EndsAt new = EndsAt old
  ∧ LastEvaluationTime new = 0
  ∧ EvaluationDuration new = 5.
Proof.
  intros result got ran old new.
  destruct (setNextState_Pending Demo.quiet Demo.deps (Demo.rule 10) result ∅ Demo.empty
              eq_refl) as (_ & HA & HS & HE & HL & HD & _).
  split; [reflexivity|]. repeat split; assumption.
Defined.

(** C6. Within [setNextState] an annotation write is dispatched if and only
    if the instance's [AlertState] or its [StateReason] changed across the
    transition, and none is when both are unchanged. Consequently a Normal
    to Alerting transition followed by an Alerting to Normal one in the next
    cycle dispatches exactly two annotation writes. *)
Theorem setNextState_annotation env d alertRule result extraLabels w :
  let got := getOrCreate d alertRule result extraLabels w in
  let ran := setNextState env d alertRule result extraLabels w in
  let old := heap got.2 !!! got.1 in
  let new := heap ran.2 !!! ran.1 in
  let before := countEv isGoAnnotate (trace w) in
  let after := countEv isGoAnnotate (trace ran.2) in
  (after = S before
   ↔ AlertState old ≠ AlertState new ∨ StateReason old ≠ StateReason new)
  ∧ (after = before
     ↔ AlertState old = AlertState new ∧ StateReason old = StateReason new)
  ∧ ∀ result2 extraLabels2,
      let got2 := getOrCreate d alertRule result2 extraLabels2 ran.2 in
      let ran2 := setNextState env d alertRule result2 extraLabels2 ran.2 in
      AlertState old = eval.Normal →
      AlertState new = eval.Alerting →
      AlertState (heap got2.2 !!! got2.1) = eval.Alerting →
      AlertState (heap ran2.2 !!! ran2.1) = eval.Normal →
      countEv isGoAnnotate (trace ran2.2) = (before + 2)%nat.
Proof.
  assert (Hone : ∀ res ex w,
    let got := getOrCreate d alertRule res ex w in
    let ran := setNextState env d alertRule res ex w in
    countEv isGoAnnotate (trace ran.2) =
      (countEv isGoAnnotate (trace w)
       + if bool_decide (AlertState (heap got.2 !!! got.1) ≠ AlertState (heap ran.2 !!! ran.1))
            || bool_decide (StateReason (heap got.2 !!! got.1)
                            ≠ StateReason (heap ran.2 !!! ran.1))
         then 1 else 0)%nat).
  { intros res ex w3 got ran.
    destruct (setNextState_fields env d alertRule res ex w3)
      as (_ & HA & HR & _ & _ & _ & _ & _ & _ & Hc).
    fold got ran in HA, HR, Hc. rewrite Hc. unfold annotationDue.
    by rewrite HA, HR. }
  intros got ran old new before after.
  pose proof (Hone result extraLabels w) as H1. cbv zeta in H1.
  fold got ran in H1. fold old new before after in H1. rewrite H1.
  destruct (_ || _) eqn:E.
  - rewrite orb_true_iff, !bool_decide_eq_true in E.
    split; [split; [done|lia]|]. split; [split; [lia|tauto]|].
    intros result2 extraLabels2 got2 ran2 _ _ Ha Hn.
    pose proof (Hone result2 extraLabels2 ran.2) as H2. cbv zeta in H2.
    fold got2 ran2 in H2. fold after in H2. rewrite H2, H1, Ha, Hn. simpl. lia.
  - rewrite orb_false_iff, !bool_decide_eq_false in E.
    destruct E as [E1 E2]. apply dec_stable in E1, E2.
    split; [split; [lia|tauto]|]. split; [split; [done|lia]|].
    intros result2 extraLabels2 got2 ran2 Ho Hn. congruence.
Qed.

(** The series "a" goes Alerting at time 0 and Normal at time 10: two
    annotation writes are dispatched. *)
Lemma setNextState_annotation_witness :
  let ran := setNextState Demo.quiet Demo.deps (Demo.rule 10)
               (Demo.result "a" eval.Alerting 0) ∅ Demo.empty in
  let ran2 := setNextState Demo.quiet Demo.deps (Demo.rule 10)
                (Demo.result "a" eval.Normal 10) ∅ ran.2 in
  countEv isGoAnnotate (trace ran2.2) = (countEv isGoAnnotate (trace Demo.empty) + 2)%nat.
Proof.
  intros ran ran2.
  apply (proj2 (proj2 (setNextState_annotation Demo.quiet Demo.deps (Demo.rule 10)
                         (Demo.result "a" eval.Alerting 0) ∅ Demo.empty))
           (Demo.result "a" eval.Normal 10) ∅);
    vm_compute; reflexivity.
Defined.

(** ** The cache *)

Lemma cache_rule_lookup (c : Cache) orgID ruleUID cacheID :
  cache_rule c orgID ruleUID !! cacheID = cache_get c orgID ruleUID cacheID.
Proof.
  unfold cache_rule, cache_get.
  destruct (c !! orgID) as [rules|]; simpl; [|done].
  by destruct (rules !! ruleUID).
Qed.

Lemma cache_get_empty orgID ruleUID cacheID :
  cache_get ∅ orgID ruleUID cacheID = None.
Proof. done. Qed.

Lemma cache_get_insert (c : Cache) o u i l o' u' i' :
  cache_get (cache_insert o u i l c) o' u' i'
  = if decide ((o, u, i) = (o', u', i')) then Some l else cache_get c o' u' i'.
Proof.
  unfold cache_get, cache_insert.
  destruct (decide (o = o')) as [->|Ho].
  - rewrite lookup_insert_eq. simpl.
    destruct (decide (u = u')) as [->|Hu].
    + rewrite lookup_insert_eq. simpl.
      destruct (decide (i = i')) as [->|Hi].
      * rewrite lookup_insert_eq. by rewrite decide_True.
      * rewrite lookup_insert_ne by done. rewrite decide_False by congruence.
        destruct (c !! o') as [rules|]; simpl; [|done].
        by destruct (rules !! u').
    + rewrite lookup_insert_ne by done. rewrite decide_False by congruence.
      by destruct (c !! o').
  - rewrite lookup_insert_ne by done. by rewrite decide_False by congruence.
Qed.

Lemma cache_get_delete (c : Cache) o u i o' u' i' :
  cache_get (cache_delete o u i c) o' u' i'
  = if decide ((o, u, i) = (o', u', i')) then None else cache_get c o' u' i'.
Proof.
  unfold cache_get, cache_delete.
  destruct (decide (o = o')) as [->|Ho].
  - rewrite lookup_alter_eq.
    destruct (c !! o') as [rules|]; simpl; [|by case_decide].
    destruct (decide (u = u')) as [->|Hu].
    + rewrite lookup_alter_eq.
      destruct (rules !! u') as [sts|]; simpl; [|by case_decide].
      destruct (decide (i = i')) as [->|Hi].
      * rewrite lookup_delete_eq. by rewrite decide_True.
      * rewrite lookup_delete_ne by done. by rewrite decide_False by congruence.
    + rewrite lookup_alter_ne by done. by rewrite decide_False by congruence.
  - rewrite lookup_alter_ne by done. by rewrite decide_False by congruence.
Qed.

Lemma cache_get_delete_rule (c : Cache) o u o' u' i' :
  cache_get (cache_delete_rule o u c) o' u' i'
  = if decide ((o, u) = (o', u')) then None else cache_get c o' u' i'.
Proof.
  unfold cache_get, cache_delete_rule.
  destruct (decide (o = o')) as [->|Ho].
  - rewrite lookup_alter_eq.
    destruct (c !! o') as [rules|]; simpl; [|by case_decide].
    destruct (decide (u = u')) as [->|Hu].
    + rewrite lookup_delete_eq. by rewrite decide_True.
    + rewrite lookup_delete_ne by done. by rewrite decide_False by congruence.
  - rewrite lookup_alter_ne by done. by rewrite decide_False by congruence.
Qed.

(** The known states of a rule are exactly its cached instances. *)
Lemma elem_of_known_states (c : Cache) orgID ruleUID l :
  l ∈ (map_to_list (cache_rule c orgID ruleUID)).*2
  ↔ ∃ cacheID, cache_get c orgID ruleUID cacheID = Some l.
Proof.
  rewrite list_elem_of_fmap. split.
  - intros ([i l'] & -> & Hin). exists i.
    apply elem_of_map_to_list in Hin. by rewrite <- cache_rule_lookup.
  - intros [i Hi]. exists (i, l). split; [done|].
    apply elem_of_map_to_list. by rewrite cache_rule_lookup.
Qed.

(** Under the cache invariant no instance is listed twice. *)
Lemma NoDup_known_states w orgID ruleUID :
  cache_wf w → NoDup (map_to_list (cache_rule (cache w) orgID ruleUID)).*2.
Proof.
  intros Hwf. apply NoDup_fmap_2_strong; [|apply NoDup_map_to_list].
  intros [i1 l1] [i2 l2] H1 H2 Heq. simpl in Heq. subst l2.
  apply elem_of_map_to_list in H1, H2.
  rewrite cache_rule_lookup in H1, H2.
  apply Hwf in H1, H2. destruct H1 as (_ & _ & <-), H2 as (_ & _ & <-). done.
Qed.

Lemma cache_wfb_sound w : cache_wfb w = true → cache_wf w.
Proof.
  unfold cache_wfb, cache_wf, cache_get. rewrite bool_decide_eq_true.
  intros H o u i l Hl.
  destruct (cache w !! o) as [rules|] eqn:Eo; simpl in Hl; [|done].
  destruct (rules !! u) as [sts|] eqn:Eu; simpl in Hl; [|done].
  exact (H o rules Eo u sts Eu i l Hl).
Qed.

(** ** The stale sweep *)

Lemma countEv_nil p : countEv p [] = 0%nat.
Proof. done. Qed.

Lemma countEv_cons p e tr :
  countEv p (e :: tr) = ((if p e then 1 else 0) + countEv p tr)%nat.
Proof. unfold countEv. simpl. by destruct (p e). Qed.

Lemma annotationsSave_run env alertRule item h n c t :
  ∃ T, countEv isTakeImage T = 0%nat
     ∧ countEv isDeleteAlertInstance T = 0%nat
     ∧ ∀ B (k : unit → M B),
         (annotationsSave env alertRule item ≫= k)
           {| heap := h; next := n; cache := c; trace := t |}
         = k tt {| heap := h; next := n; cache := c; trace := t ++ T |}.
Proof.
  unfold annotationsSave.
  destruct (isErr (AnnotationsSave env t item)) eqn:Es;
    (eexists; split; [|split];
      [ | | intros; step; rewrite Es; unfold when; step; by rewrite <- ?app_assoc ]; done).
Qed.

(** [annotateState] only talks to the logger, the dashboard service and the
    annotation repository. *)
Lemma annotateState_run env d alertRule labels evaluatedAt cur prev h n c t :
  ∃ T, countEv isTakeImage T = 0%nat
     ∧ countEv isDeleteAlertInstance T = 0%nat
     ∧ ∀ B (k : unit → M B),
         (annotateState env d alertRule labels evaluatedAt cur prev ≫= k)
           {| heap := h; next := n; cache := c; trace := t |}
         = k tt {| heap := h; next := n; cache := c; trace := t ++ T |}.
Proof.
  unfold annotateState. cbv zeta.
  destruct (ngModels.Annotations alertRule !! DashboardUIDAnnotation d) as [dashUid|].
  - destruct (ParseInt d _) as [panelId|].
    + destruct (GetDashboard env
        (t ++ [EvLog log.Debug "alert state changed creating annotation"]) dashUid
        (ngModels.OrgID alertRule)) as [dashId err] eqn:E.
      destruct (isErr err) eqn:Eerr.
      * eexists; split; [|split];
          [ | | intros; do 2 step; rewrite E, Eerr; step; by rewrite <- !app_assoc ]; done.
      * edestruct (annotationsSave_run env alertRule) as (T1 & HT1 & HD1 & Hrun).
        eexists (_ :: _ :: T1); split; [|split];
          [ | | intros; do 2 step; rewrite E, Eerr, Hrun; by rewrite <- !app_assoc ].
        -- by rewrite !countEv_cons, HT1.
        -- by rewrite !countEv_cons, HD1.
    + eexists; split; [|split];
        [ | | intros; do 2 step; by rewrite <- !app_assoc ]; done.
  - edestruct (annotationsSave_run env alertRule) as (T1 & HT1 & HD1 & Hrun).
    eexists (_ :: T1); split; [|split];
      [ | | intros; step; rewrite Hrun; by rewrite <- !app_assoc ].
    + by rewrite !countEv_cons, HT1.
    + by rewrite !countEv_cons, HD1.
Qed.

Ltac case_if :=
  match goal with
  | |- context [if isErr ?e then _ else _] => destruct (isErr e) eqn:?
  end.

Lemma staleStep_skip env d r states ev acc sp w :
  evicted r states ev (heap w !!! sp) = false →
  staleStep env d r states ev acc sp w = (acc, w).
Proof.
  intros H. destruct acc as [ri rs]. unfold staleStep.
  rewrite run_deref. cbv zeta. unfold evicted in H. by rewrite H.
Qed.

Lemma staleStep_evicted env d r states ev ri rs sp h n c t :
  let s := h !!! sp in
  let alerting := bool_decide (AlertState s = eval.Alerting) in
  evicted r states ev s = true →
  ∃ T ri',
    staleStep env d r states ev (ri, rs) sp
      {| heap := h; next := n; cache := c; trace := t |}
    = ((ri', if alerting then rs ++ [sp] else rs),
       {| heap := if alerting
                  then <[sp := set_Image ri'
                                 (Resolve ngModels.StateReasonMissingSeries ev s)]> h
                  else h;
          next := n;
          cache := cache_delete (OrgID s) (AlertRuleUID s) (CacheID s) c;
          trace := t ++ T |})
    ∧ countEv isDeleteAlertInstance T = 1%nat
    ∧ EvDeleteAlertInstance (OrgID s) (AlertRuleUID s)
        (StringAndHash d (Labels_ s)).1.2 ∈ T
    ∧ countEv isTakeImage T = (if alerting && bool_decide (ri = None) then 1 else 0)%nat
    ∧ (alerting = false ∨ is_Some ri → ri' = ri).
Proof.
  intros s alerting H.
  destruct (staleStep env d r states ev (ri, rs) sp
              {| heap := h; next := n; cache := c; trace := t |}) as [[ri' rs'] w'] eqn:Erun.
  revert Erun. unfold staleStep.
  rewrite run_deref. cbn [heap]. cbv zeta. unfold evicted in H. fold s. rewrite H. unfold cache_.deleteEntry, when.
  do 2 step.
  destruct (StringAndHash d (Labels_ s)) as [[str hash] herr] eqn:ESH.
  case_if; step; step; case_if; step;
    subst alerting; destruct (bool_decide (AlertState s = eval.Alerting)) eqn:EA;
    try (step; step;
         edestruct (annotateState_run env d r) as (Ta & HTa1 & HTa2 & Hrun);
         rewrite Hrun; clear Hrun;
         destruct ri as [i|];
         [ | unfold takeImage; step;
             match goal with
             | |- context [TakeImage env ?tr ?rr] =>
                 destruct (TakeImage env tr rr) as [image ierr]
             end;
             case_if; [|destruct image as [img|]] ];
         repeat step);
    intros [= <- <- <-]; rewrite <- ?app_assoc; eexists _, _; (split; [reflexivity|]);
    rewrite ?countEv_app, ?countEv_cons, ?countEv_nil, ?HTa1, ?HTa2;
    rewrite ?elem_of_app, ?elem_of_cons;
    simpl;
    (split; [done|]); (split; [tauto|]); (split; [done|]);
    intros [?|[? ?]]; congruence.
Qed.

Lemma foldM_cons {A B} (f : B → A → M B) b x xs w :
  foldM f b (x :: xs) w = foldM f (f b x w).1 xs (f b x w).2.
Proof. simpl. unfold mbind, M_bind. by destruct (f b x w). Qed.

Section SweepLoop.
Variable env : Env.
Variable d : Deps.
Variable r : ngModels.AlertRule.
Variable states : gmap string loc.
Variable ev : Time.

Local Abbreviation E := (evicted r states ev).
Local Abbreviation R := (resolvedBySweep r states ev).

Lemma heap_step_frame (h : gmap loc State) (b : bool) sp x l :
  l ≠ sp →
  (if b then <[sp := x]> h else h) !! l = h !! l
  ∧ (if b then <[sp := x]> h else h) !!! l = h !!! l.
Proof.
  intros Hne. destruct b; [|done].
  by rewrite lookup_total_insert_ne, lookup_insert_ne.
Qed.

Lemma lookup_total_eq (h1 h2 : gmap loc State) l :
  h1 !! l = h2 !! l → h1 !!! l = h2 !!! l.
Proof. intros H. by rewrite !lookup_total_alt, H. Qed.

Lemma filter_heap_ext (p : State → bool) (h1 h2 : gmap loc State) ls :
  (∀ l, l ∈ ls → h1 !!! l = h2 !!! l) →
  List.filter (λ l, p (h1 !!! l)) ls = List.filter (λ l, p (h2 !!! l)) ls.
Proof.
  intros H. apply List.filter_ext_in. intros l Hl.
  by rewrite H by (by apply list_elem_of_In).
Qed.

Lemma sweep_loop ls :
  NoDup ls → ∀ ri rs h n c t,
  ∃ ri' h' c' T,
    foldM (staleStep env d r states ev) (ri, rs) ls
      {| heap := h; next := n; cache := c; trace := t |}
    = ((ri', rs ++ List.filter (λ l, R (h !!! l)) ls),
       {| heap := h'; next := n; cache := c'; trace := t ++ T |})
    ∧ (∀ l, (l ∈ ls → R (h !!! l) = false) → h' !! l = h !! l)
    ∧ (∀ l, l ∈ ls → R (h !!! l) = true →
         ∃ img, h' !!! l
                = set_Image img (Resolve ngModels.StateReasonMissingSeries ev (h !!! l)))
    ∧ (∀ o u i, (∃ l, l ∈ ls ∧ E (h !!! l) = true ∧ keyOf (h !!! l) = (o, u, i)) →
         cache_get c' o u i = None)
    ∧ (∀ o u i, (∀ l, l ∈ ls → E (h !!! l) = true → keyOf (h !!! l) ≠ (o, u, i)) →
         cache_get c' o u i = cache_get c o u i)
    ∧ countEv isDeleteAlertInstance T = length (List.filter (λ l, E (h !!! l)) ls)
    ∧ (∀ l, l ∈ ls → E (h !!! l) = true →
         EvDeleteAlertInstance (OrgID (h !!! l)) (AlertRuleUID (h !!! l))
           (StringAndHash d (Labels_ (h !!! l))).1.2 ∈ T).
Proof.
  induction ls as [|sp ls IH]; intros Hnd ri rs h n c t.
  { exists ri, h, c, []. rewrite !app_nil_r. simpl.
    split; [done|]. split; [done|]. split; [by intros ? ?%elem_of_nil|].
    split; [by intros ? ? ? (? & ?%elem_of_nil & _)|]. split; [done|].
    split; [done|]. by intros ? ?%elem_of_nil. }
  apply NoDup_cons in Hnd as [Hsp Hnd].
  rewrite foldM_cons.
  destruct (E (h !!! sp)) eqn:HE.
  - (* the instance is evicted *)
    destruct (staleStep_evicted env d r states ev ri rs sp h n c t HE)
      as (T1 & ri1 & Hrun & HD1 & Hin1 & _ & _).
    rewrite Hrun. cbn [fst snd]. clear Hrun.
    set (a := bool_decide (AlertState (h !!! sp) = eval.Alerting)) in *.
    set (x := set_Image ri1 (Resolve ngModels.StateReasonMissingSeries ev (h !!! sp))) in *.
    set (h1 := if a then <[sp := x]> h else h).
    assert (HR : R (h !!! sp) = a).
    { unfold resolvedBySweep. by rewrite HE. }
    assert (Hfr : ∀ l, l ∈ ls → h1 !! l = h !! l ∧ h1 !!! l = h !!! l).
    { intros l Hl. apply heap_step_frame. intros ->. done. }
    destruct (IH Hnd ri1 (if a then rs ++ [sp] else rs) h1 n
                (cache_delete (OrgID (h !!! sp)) (AlertRuleUID (h !!! sp))
                   (CacheID (h !!! sp)) c) (t ++ T1))
      as (ri' & h' & c' & T2 & Hrun & F1 & F2 & F3 & F4 & F5 & F6).
    exists ri', h', c', (T1 ++ T2). split.
    { rewrite Hrun. rewrite app_assoc. f_equal. f_equal.
      rewrite (filter_heap_ext R h1 h ls) by (intros; by apply Hfr).
      simpl. rewrite HR. destruct a; [|done]. by rewrite <- app_assoc. }
    split.
    { intros l Hl. rewrite F1.
      - destruct (decide (l = sp)) as [->|Hne].
        + subst h1. destruct a eqn:Ea; [|done].
          rewrite Hl in HR; [done|]. apply elem_of_cons. by left.
        + by apply heap_step_frame.
      - intros Hin. destruct (Hfr l Hin) as [_ ->]. apply Hl.
        apply elem_of_cons. by right. }
    split.
    { intros l Hl HRl. apply elem_of_cons in Hl as [->|Hl].
      - exists ri1. rewrite HR in HRl.
        rewrite (lookup_total_eq h' h1 sp).
        + subst h1. rewrite HRl. by rewrite lookup_total_insert_eq.
        + apply F1. intros Hin. done.
      - destruct (Hfr l Hl) as [_ Heq]. rewrite <- Heq. apply F2; [done|].
        by rewrite Heq. }
    split.
    { intros o u i (l & Hl & HEl & Hk).
      destruct (decide (Exists (λ l, E (h !!! l) = true ∧ keyOf (h !!! l) = (o, u, i)) ls))
        as [Hex|Hnex].
      - apply Exists_exists in Hex as (l' & Hl' & HEl' & Hk').
        apply F3. exists l'. destruct (Hfr l' Hl') as [_ ->]. done.
      - rewrite F4.
        + apply elem_of_cons in Hl as [->|Hl].
          * rewrite cache_get_delete. unfold keyOf in Hk. by rewrite decide_True.
          * exfalso. apply Hnex. apply Exists_exists. by exists l.
        + intros l' Hl' HEl' Hk'. apply Hnex. apply Exists_exists. exists l'.
          destruct (Hfr l' Hl') as [_ Heq]. rewrite Heq in HEl', Hk'. done. }
    split.
    { intros o u i Hno. rewrite F4.
      - rewrite cache_get_delete. rewrite decide_False; [done|].
        apply (Hno sp); [apply elem_of_cons; by left|done].
      - intros l Hl. destruct (Hfr l Hl) as [_ ->]. apply Hno.
        apply elem_of_cons. by right. }
    split.
    { rewrite countEv_app, HD1, F5. simpl. rewrite HE. simpl.
      by rewrite (filter_heap_ext E h1 h ls) by (intros; by apply Hfr). }
    intros l Hl HEl. apply elem_of_app. apply elem_of_cons in Hl as [->|Hl].
    + by left.
    + right. destruct (Hfr l Hl) as [_ Heq]. rewrite <- Heq. apply F6; [done|].
      by rewrite Heq.
  - (* the instance stays *)
    rewrite staleStep_skip by done. cbn [fst snd].
    assert (HR : R (h !!! sp) = false).
    { unfold resolvedBySweep. by rewrite HE. }
    destruct (IH Hnd ri rs h n c t)
      as (ri' & h' & c' & T & Hrun & F1 & F2 & F3 & F4 & F5 & F6).
    exists ri', h', c', T. split.
    { rewrite Hrun. simpl. by rewrite HR. }
    split.
    { intros l Hl. apply F1. intros Hin. apply Hl. apply elem_of_cons. by right. }
    split.
    { intros l Hl HRl. apply elem_of_cons in Hl as [->|Hl]; [congruence|]. by apply F2. }
    split.
    { intros o u i (l & Hl & HEl & Hk). apply F3. exists l.
      apply elem_of_cons in Hl as [->|Hl]; [congruence|done]. }
    split.
    { intros o u i Hno. apply F4. intros l Hl. apply Hno. apply elem_of_cons. by right. }
    split.
    { rewrite F5. simpl. by rewrite HE. }
    intros l Hl HEl. apply F6; [|done].
    apply elem_of_cons in Hl as [->|Hl]; [congruence|done].
Qed.

End SweepLoop.

(** ** The staleness test *)

Lemma int64_wrap_small z : int64_range z → int64_wrap z = z.
Proof.
  unfold int64_range, int64_wrap. intros H.
  rewrite Z.mod_small; lia.
Qed.

Lemma int64_wrap_mul_l a b : int64_wrap (int64_wrap a * b) = int64_wrap (a * b).
Proof.
  unfold int64_wrap. f_equal.
  rewrite (Z.mod_eq (a + 2 ^ 63) (2 ^ 64)) by lia.
  replace ((a + 2 ^ 63 - 2 ^ 64 * ((a + 2 ^ 63) `div` 2 ^ 64) - 2 ^ 63) * b + 2 ^ 63)
    with (a * b + 2 ^ 63 + (- ((a + 2 ^ 63) `div` 2 ^ 64) * b) * 2 ^ 64) by ring.
  apply Z_mod_plus_full.
Qed.

(** Within the range of [time.Duration] the test of [isItStale] is the
    spec's: the last evaluation plus twice the interval is not after the
    sweep time. *)
Lemma isItStale_spec evaluatedAt lastEval intervalSeconds :
  int64_range (2 * intervalSeconds * 1000000000) →
  isItStale evaluatedAt lastEval intervalSeconds = true
  ↔ staleBySpec evaluatedAt lastEval intervalSeconds.
Proof.
  intros Hr. unfold isItStale, staleBySpec, time.After, time.Add, time.mul, time.Second.
  rewrite int64_wrap_mul_l, int64_wrap_small by done.
  rewrite negb_true_iff, bool_decide_eq_false. lia.
Qed.

Lemma staleResultsHandler_unfold env d r states ev w :
  staleResultsHandler env d r states ev w
  = let res := foldM (staleStep env d r states ev) (None, [])
                 (map_to_list (cache_rule (cache w) (ngModels.OrgID r) (ngModels.UID r))).*2 w in
    (res.1.2, res.2).
Proof.
  unfold staleResultsHandler, GetStatesForRuleUID, cache_.getStatesForRuleUID.
  unfold mbind, M_bind. cbv zeta.
  by destruct (foldM _ _ _ _) as [[a b] w'].
Qed.

(** C1 (amended). For every rule whose interval [i] is such that twice [i]
    seconds fits a [time.Duration], and every cached instance of that rule,
    the sweep at time [evaluatedAt] deletes the instance from the cache, and
    asks the instance store to delete it, exactly when the instance is absent
    from the batch and its [LastEvaluationTime] plus [2*i] seconds is not
    after [evaluatedAt]; among the deleted instances exactly those whose
    state was Alerting are returned, each once, resolved with the reason
    for a missing series. *)
Theorem stale_sweep env d r states evaluatedAt w
    (Hwf : cache_wf w)
    (Hrange : int64_range (2 * ngModels.IntervalSeconds r * 1000000000)) :
  let res := staleResultsHandler env d r states evaluatedAt w in
  let org := ngModels.OrgID r in
  let uid := ngModels.UID r in
  let known := (map_to_list (cache_rule (cache w) org uid)).*2 in
  let stale (s : State) :=
    staleBySpec evaluatedAt (LastEvaluationTime s) (ngModels.IntervalSeconds r) in
  ∃ T,
    trace res.2 = trace w ++ T
    ∧ countEv isDeleteAlertInstance T
      = length (List.filter (λ l, evicted r states evaluatedAt (heap w !!! l)) known)
    ∧ NoDup res.1
    ∧ ∀ cacheID l, cache_get (cache w) org uid cacheID = Some l →
        let s := heap w !!! l in
        let s' := heap res.2 !!! l in
        (cache_get (cache res.2) org uid cacheID = None
         ↔ states !! cacheID = None ∧ stale s)
        ∧ (cache_get (cache res.2) org uid cacheID = Some l
           ↔ ¬ (states !! cacheID = None ∧ stale s))
        ∧ (states !! cacheID = None ∧ stale s →
           EvDeleteAlertInstance org uid (StringAndHash d (Labels_ s)).1.2 ∈ T)
        ∧ (l ∈ res.1
           ↔ states !! cacheID = None ∧ stale s ∧ AlertState s = eval.Alerting)
        ∧ (l ∈ res.1 →
           AlertState s' = eval.Normal
           ∧ StateReason s' = ngModels.StateReasonMissingSeries
           ∧ Resolved s' = true
           ∧ EndsAt s' = evaluatedAt).
Proof.
  intros res org uid known stale.
  pose proof (NoDup_known_states w org uid Hwf) as Hnd. fold known in Hnd.
  assert (Hev : ∀ i l, cache_get (cache w) org uid i = Some l →
            evicted r states evaluatedAt (heap w !!! l) = true
            ↔ states !! i = None ∧ stale (heap w !!! l)).
  { intros i l Hl. destruct (Hwf _ _ _ _ Hl) as (_ & _ & Hid).
    unfold evicted. rewrite Hid, andb_true_iff, negb_true_iff, bool_decide_eq_false.
    rewrite isItStale_spec by done. rewrite <- eq_None_not_Some. done. }
  assert (Hkey : ∀ i l, cache_get (cache w) org uid i = Some l →
            keyOf (heap w !!! l) = (org, uid, i)).
  { intros i l Hl. destruct (Hwf _ _ _ _ Hl) as (<- & <- & <-). done. }
  assert (Hknown : ∀ i l, cache_get (cache w) org uid i = Some l → l ∈ known).
  { intros i l Hl. apply elem_of_known_states. by exists i. }
  subst res. rewrite staleResultsHandler_unfold. fold org uid known. cbv zeta.
  destruct w as [h n c t]. cbn [heap cache trace] in *.
  destruct (sweep_loop env d r states evaluatedAt known Hnd None [] h n c t)
    as (ri' & h' & c' & T & Hrun & F1 & F2 & F3 & F4 & F5 & F6).
  rewrite Hrun. cbn [fst snd heap cache trace]. rewrite app_nil_l.
  exists T. split; [done|]. split; [done|].
  split. { apply NoDup_ListNoDup, List.NoDup_filter, NoDup_ListNoDup, Hnd. }
  intros i l Hl. pose proof (Hev i l Hl) as Hevl. pose proof (Hkey i l Hl) as Hkl.
  pose proof (Hknown i l Hl) as Hin.
  assert (Hdel : cache_get c' org uid i = None
                 ↔ evicted r states evaluatedAt (h !!! l) = true).
  { split.
    - intros Hnone. destruct (evicted r states evaluatedAt (h !!! l)) eqn:E; [done|].
      rewrite F4 in Hnone; [congruence|].
      intros l' Hl' HE' Hk'. apply elem_of_known_states in Hl' as [i' Hi'].
      rewrite (Hkey i' l' Hi') in Hk'. injection Hk' as ->. congruence.
    - intros HE. apply F3. by exists l. }
  split; [by rewrite Hdel|].
  split.
  { rewrite <- Hevl, <- Hdel. split; [congruence|]. intros Hn.
    destruct (evicted r states evaluatedAt (h !!! l)) eqn:E.
    - exfalso. apply Hn. by apply Hdel.
    - rewrite F4; [done|].
      intros l' Hl' HE' Hk'. apply elem_of_known_states in Hl' as [i' Hi'].
      rewrite (Hkey i' l' Hi') in Hk'. injection Hk' as ->. congruence. }
  split.
  { intros Hst. apply Hevl in Hst. specialize (F6 l Hin Hst).
    injection Hkl as <- <- _. done. }
  assert (Hres : l ∈ List.filter
             (λ l0, resolvedBySweep r states evaluatedAt (h !!! l0)) known
           ↔ resolvedBySweep r states evaluatedAt (h !!! l) = true).
  { rewrite list_elem_of_In, List.filter_In, <- list_elem_of_In. tauto. }
  split.
  { rewrite Hres. unfold resolvedBySweep.
    rewrite andb_true_iff, bool_decide_eq_true, Hevl. tauto. }
  intros HR. apply Hres in HR. destruct (F2 l Hin HR) as [img ->]. done.
Qed.

(** One sweep at 25 s over a rule of interval 10 s whose three series were
    last evaluated at time 0 and are all missing from the batch: the series
    "a" is returned because it is stale and was Alerting. *)
Lemma stale_sweep_witness :
  let w := Demo.firing 10 in
  let r := Demo.rule 10 in
  let res := staleResultsHandler Demo.quiet Demo.deps r ∅ 25000000000 w in
  (cache_wf w
   ∧ int64_range (2 * ngModels.IntervalSeconds r * 1000000000)
   ∧ cache_get (cache w) (ngModels.OrgID r) (ngModels.UID r) "a" = Some 0%nat)
  ∧ (0%nat ∈ res.1
     ↔ (∅ : gmap string loc) !! "a" = None
       ∧ staleBySpec 25000000000 (LastEvaluationTime (heap w !!! 0%nat))
           (ngModels.IntervalSeconds r)
       ∧ AlertState (heap w !!! 0%nat) = eval.Alerting).
Proof.
  intros w r res.
  assert (Hwf : cache_wf w).
  { apply cache_wfb_sound. vm_compute. reflexivity. }
  assert (Hr : int64_range (2 * ngModels.IntervalSeconds r * 1000000000)).
  { unfold int64_range. simpl. lia. }
  assert (Hget : cache_get (cache w) (ngModels.OrgID r) (ngModels.UID r) "a" = Some 0%nat)
    by (vm_compute; reflexivity).
  split; [exact (conj Hwf (conj Hr Hget))|].
  destruct (stale_sweep Demo.quiet Demo.deps r ∅ 25000000000 w Hwf Hr)
    as (T & _ & _ & _ & H).
  destruct (H "a" 0%nat Hget) as (_ & _ & _ & Hin & _).
  exact Hin.
Defined.

(** With an interval of 4611686019 s the [time.Duration] of twice the
    interval wraps around to a negative value: the instance "a", evaluated
    one second before the sweep, is deleted although its last evaluation plus
    twice the interval is long after the sweep. *)
Lemma stale_sweep_counterexample :
  let r := Demo.rule 4611686019 in
  let w := Demo.firing 4611686019 in
  let res := staleResultsHandler Demo.quiet Demo.deps r ∅ 1000000000 w in
  ∃ l, cache_get (cache w) 1 "rule-1" "a" = Some l
     ∧ (∅ : gmap string loc) !! "a" = None
     ∧ ¬ (cache_get (cache res.2) 1 "rule-1" "a" = None
          ↔ LastEvaluationTime (heap w !!! l) + 2 * 4611686019 * 1000000000 ≤ 1000000000).
Proof.
  exists 0%nat. split; [by vm_compute|]. split; [done|].
  intros [H _].
  assert (Hdel : cache_get
    (cache (staleResultsHandler Demo.quiet Demo.deps (Demo.rule 4611686019) ∅ 1000000000
              (Demo.firing 4611686019)).2) 1 "rule-1" "a" = None) by (by vm_compute).
  specialize (H Hdel). revert H. vm_compute. intros H. by apply H.
Qed.

(** ** [ProcessEvalResults] and the durable save *)

Lemma saveOne_run env l h n c t :
  let cmd := saveCommand (h !!! l) in
  ∀ B (k : unit → M B),
    ((s ← deref l; err ← saveState env s;
      when (isErr err) (logf log.Error "failed to save alert state")) ≫= k)
      {| heap := h; next := n; cache := c; trace := t |}
    = k tt {| heap := h; next := n; cache := c;
              trace := t ++ EvSaveAlertInstance cmd
                         :: if isErr (SaveAlertInstance env t cmd)
                            then [EvLog log.Error "failed to save alert state"]
                            else [] |}.
Proof.
  intros cmd B k. subst cmd. unfold saveCommand.
  step. unfold saveState, when. cbv zeta. step.
  case_if; step; by rewrite <- ?app_assoc.
Qed.

Lemma saveStates_run env states h n c t :
  ∃ T,
    saveStates env states {| heap := h; next := n; cache := c; trace := t |}
    = (tt, {| heap := h; next := n; cache := c; trace := t ++ T |})
    ∧ failedSaves env t T = countEv (isErrorLog "failed to save alert state") T.
Proof.
  revert t. induction states as [|l ls IH]; intros t.
  { exists []. by rewrite app_nil_r. }
  set (cmd := saveCommand (h !!! l)).
  set (T1 := EvSaveAlertInstance cmd
               :: if isErr (SaveAlertInstance env t cmd)
                  then [EvLog log.Error "failed to save alert state"] else []).
  destruct (IH (t ++ T1)) as (T & Hrun & HT).
  exists (T1 ++ T). split.
  - unfold saveStates in *. cbn [forM_]. rewrite saveOne_run. fold cmd T1.
    rewrite Hrun. by rewrite app_assoc.
  - subst T1. cbn [app failedSaves].
    destruct (isErr (SaveAlertInstance env t cmd)) eqn:E.
    + cbn [app failedSaves]. rewrite <- app_assoc. cbn [app].
      rewrite HT, !countEv_cons. by simpl.
    + cbn [app failedSaves]. rewrite HT, !countEv_cons. by simpl.
Qed.

Lemma ProcessEvalResults_unfold env d evaluatedAt alertRule results extraLabels w :
  ProcessEvalResults env d evaluatedAt alertRule results extraLabels w
  = let w0 := (logf log.Debug "state manager processing evaluation results" w).2 in
    let r1 := foldM (processResult env d alertRule extraLabels) ([], ∅) results w0 in
    let r2 := staleResultsHandler env d alertRule r1.1.2 evaluatedAt r1.2 in
    let r3 := when (bool_decide (0 < length r1.1.1)%nat)
                (logf log.Debug "saving new states to the database" ;;
                 saveStates env r1.1.1) r2.2 in
    (r1.1.1 ++ r2.1, r3.2).
Proof.
  unfold ProcessEvalResults, mbind, M_bind. cbv zeta. simpl.
  destruct (foldM _ _ _ _) as [[states processed] w1]. simpl.
  destruct (staleResultsHandler _ _ _ _ _ _) as [resolved w2]. simpl.
  by destruct (when _ _ _).
Qed.

(** The saves at the end of [ProcessEvalResults] only add to the trace. *)
Lemma ProcessEvalResults_run env d evaluatedAt alertRule results extraLabels w :
  let res := ProcessEvalResults env d evaluatedAt alertRule results extraLabels w in
  let w0 := (logf log.Debug "state manager processing evaluation results" w).2 in
  let r1 := foldM (processResult env d alertRule extraLabels) ([], ∅) results w0 in
  let r2 := staleResultsHandler env d alertRule r1.1.2 evaluatedAt r1.2 in
  res.1 = r1.1.1 ++ r2.1
  ∧ heap res.2 = heap r2.2
  ∧ cache res.2 = cache r2.2
  ∧ next res.2 = next r2.2
  ∧ (∃ T, trace res.2 = trace r2.2 ++ T
        ∧ ∃ T0 T1, T = T0 ++ T1
            ∧ failedSaves env (trace r2.2 ++ T0) T1
              = countEv (isErrorLog "failed to save alert state") T1).
Proof.
  cbv zeta. rewrite ProcessEvalResults_unfold. cbv zeta.
  destruct (foldM _ _ _ _) as [[states processed] w1]. cbn [fst snd].
  destruct (staleResultsHandler _ _ _ _ _ _) as [resolved [h n c t]].
  cbn [fst snd heap cache trace next]. split; [done|].
  destruct (bool_decide (0 < length states)%nat).
  - cbv beta iota delta [when].
    destruct (saveStates_run env states h n c
                (t ++ [EvLog log.Debug "saving new states to the database"]))
      as (T & Hrun & HT).
    rewrite run_logf, Hrun. cbn [snd heap cache trace next].
    split; [done|]. split; [done|]. split; [done|].
    exists ([EvLog log.Debug "saving new states to the database"] ++ T).
    split; [by rewrite app_assoc|]. by eexists _, _.
  - simpl. split; [done|]. split; [done|]. split; [done|]. exists []. rewrite app_nil_r.
    split; [done|]. by exists [], [].
Qed.

(** ** [ResetStateByRuleUID] *)

Lemma run_getStatesForRuleUID {B} o u (k : list loc → M B) w :
  (cache_.getStatesForRuleUID o u ≫= k) w
  = k (map_to_list (cache_rule (cache w) o u)).*2 w.
Proof. done. Qed.

Lemma ResetStateByRuleUID_run env ruleKey h n c t :
  let org := ngModels.KeyOrgID ruleKey in
  let uid := ngModels.KeyUID ruleKey in
  let states := (map_to_list (cache_rule c org uid)).*2 in
  let t1 := t ++ [EvLog log.Debug "resetting state of the rule"] in
  let failed := bool_decide (0 < length states)%nat
                && isErr (DeleteAlertInstancesByRule env t1 ruleKey) in
  ∃ T,
    ResetStateByRuleUID env ruleKey {| heap := h; next := n; cache := c; trace := t |}
    = (states, {| heap := h; next := n; cache := cache_delete_rule org uid c;
                  trace := t ++ T |})
    ∧ countEv (isErrorLog "failed to delete states that belong to a rule from database") T
      = (if failed then 1 else 0)%nat.
Proof.
  intros org uid states t1 failed. subst failed.
  destruct (ResetStateByRuleUID env ruleKey
              {| heap := h; next := n; cache := c; trace := t |}) as [sts w'] eqn:Erun.
  revert Erun. unfold ResetStateByRuleUID, cache_.removeByRuleUID, when.
  step. rewrite run_assoc, run_getStatesForRuleUID. cbn [cache]. fold org uid states.
  do 2 step. fold t1.
  destruct (bool_decide (0 < length states)%nat); cbn [andb].
  - step. destruct (isErr (DeleteAlertInstancesByRule env t1 ruleKey)) eqn:E.
    + do 2 step. intros [= <- <-]. subst t1. rewrite <- !app_assoc.
      eexists. split; [reflexivity|]. by vm_compute.
    + do 2 step. intros [= <- <-]. subst t1. rewrite <- !app_assoc.
      eexists. split; [reflexivity|]. by vm_compute.
  - do 2 step. intros [= <- <-]. subst t1. rewrite <- !app_assoc.
    eexists. split; [reflexivity|]. by vm_compute.
Qed.

(** C8. [ResetStateByRuleUID] removes every cached state of the given rule
    and returns exactly the removed states; a failure of the durable
    [DeleteAlertInstancesByRule] is logged and changes neither the eviction
    nor the returned list. *)
Theorem ResetStateByRuleUID_evicts env ruleKey w :
  let res := ResetStateByRuleUID env ruleKey w in
  let org := ngModels.KeyOrgID ruleKey in
  let uid := ngModels.KeyUID ruleKey in
  let t1 := trace w ++ [EvLog log.Debug "resetting state of the rule"] in
  (∀ l, l ∈ res.1 ↔ ∃ cacheID, cache_get (cache w) org uid cacheID = Some l)
  ∧ length res.1 = size (cache_rule (cache w) org uid)
  ∧ (∀ cacheID, cache_get (cache res.2) org uid cacheID = None)
  ∧ (∀ o u i, (o, u) ≠ (org, uid) →
       cache_get (cache res.2) o u i = cache_get (cache w) o u i)
  ∧ heap res.2 = heap w
  ∧ (∃ T, trace res.2 = trace w ++ T
        ∧ (res.1 ≠ [] →
           isErr (DeleteAlertInstancesByRule env t1 ruleKey) = true →
           countEv (isErrorLog
             "failed to delete states that belong to a rule from database") T = 1%nat))
  ∧ ∀ delete,
      let res' := ResetStateByRuleUID (withDeleteAlertInstancesByRule delete env) ruleKey w in
      res'.1 = res.1 ∧ cache res'.2 = cache res.2 ∧ heap res'.2 = heap res.2.
Proof.
  intros res org uid t1. destruct w as [h n c t].
  destruct (ResetStateByRuleUID_run env ruleKey h n c t) as (T & Hrun & HT).
  fold org uid in Hrun, HT. subst res. rewrite Hrun. cbn [fst snd heap cache trace].
  split; [apply elem_of_known_states|].
  split; [by rewrite length_fmap, length_map_to_list|].
  split. { intros i. rewrite cache_get_delete_rule. by rewrite decide_True. }
  split. { intros o u i Hne. rewrite cache_get_delete_rule. by rewrite decide_False. }
  split; [done|].
  split.
  { exists T. split; [done|]. intros Hne Herr. rewrite HT.
    cbn [trace] in t1. fold t1. rewrite Herr.
    rewrite bool_decide_eq_true_2; [done|].
    destruct ((map_to_list (cache_rule c org uid)).*2); [done|simpl; lia]. }
  intros delete.
  destruct (ResetStateByRuleUID_run (withDeleteAlertInstancesByRule delete env)
              ruleKey h n c t) as (T' & Hrun' & _).
  rewrite Hrun'. done.
Qed.

(** Resetting the sample rule while the instance store is down: the three
    cached states are returned and the failure is logged once. *)
Lemma ResetStateByRuleUID_evicts_witness :
  let env := withDeleteAlertInstancesByRule (λ _ _, Some "database is down") Demo.quiet in
  let ruleKey := ngModels.GetKey (Demo.rule 10) in
  let w := Demo.firing 10 in
  let res := ResetStateByRuleUID env ruleKey w in
  (res.1 ≠ []
   ∧ isErr (DeleteAlertInstancesByRule env
              (trace w ++ [EvLog log.Debug "resetting state of the rule"]) ruleKey) = true)
  ∧ ∃ T, trace res.2 = trace w ++ T
       ∧ countEv (isErrorLog
           "failed to delete states that belong to a rule from database") T = 1%nat.
Proof.
  intros env ruleKey w res.
  assert (H : res.1 ≠ []
              ∧ isErr (DeleteAlertInstancesByRule env
                  (trace w ++ [EvLog log.Debug "resetting state of the rule"]) ruleKey)
                = true) by (by vm_compute).
  split; [exact H|].
  destruct (ResetStateByRuleUID_evicts env ruleKey w)
    as (_ & _ & _ & _ & _ & (T & HT & Hlog) & _).
  exists T. split; [exact HT|]. exact (Hlog (proj1 H) (proj2 H)).
Defined.


(** ** [Warm] *)

Lemma indexRules_lookup rules uid rule :
  indexRules rules !! uid = Some rule → rule ∈ rules ∧ ngModels.UID rule = uid.
Proof.
  unfold indexRules.
  assert (H : ∀ m : gmap string ngModels.AlertRule,
    foldl (λ ruleByUID rule0, <[ngModels.UID rule0 := rule0]> ruleByUID) m rules !! uid
      = Some rule →
    (rule ∈ rules ∧ ngModels.UID rule = uid) ∨ m !! uid = Some rule).
  { induction rules as [|r0 rules IH]; intros m Hm; [by right|].
    simpl in Hm. apply IH in Hm as [[Hin Hu]|Hm].
    - left. split; [by apply elem_of_cons; right|done].
    - destruct (decide (ngModels.UID r0 = uid)) as [Heq|Hne].
      + rewrite Heq, lookup_insert_eq in Hm. injection Hm as <-.
        left. split; [by apply elem_of_cons; left|done].
      + rewrite lookup_insert_ne in Hm by done. by right. }
  intros Hl. apply H in Hl as [?|Hl]; [done|]. by rewrite lookup_empty in Hl.
Qed.

Lemma indexRules_is_Some rules rule :
  rule ∈ rules → is_Some (indexRules rules !! ngModels.UID rule).
Proof.
  unfold indexRules.
  assert (H : ∀ m : gmap string ngModels.AlertRule,
    rule ∈ rules ∨ is_Some (m !! ngModels.UID rule) →
    is_Some (foldl (λ ruleByUID rule0, <[ngModels.UID rule0 := rule0]> ruleByUID) m rules
               !! ngModels.UID rule)).
  { induction rules as [|r0 rules IH]; intros m [Hin|Hm]; simpl.
    - by apply elem_of_nil in Hin.
    - done.
    - apply IH. apply elem_of_cons in Hin as [->|Hin]; [|by left].
      right. by rewrite lookup_insert_eq.
    - apply IH. right. destruct (decide (ngModels.UID r0 = ngModels.UID rule)) as [->|Hne].
      + by rewrite lookup_insert_eq.
      + by rewrite lookup_insert_ne. }
  intros Hin. apply H. by left.
Qed.

Section WarmProofs.
Variable env : Env.
Variable d : Deps.

Lemma warmEntry_warming Q c0 ruleByUID states entry w :
  (∀ rule, ruleByUID !! ngModels.RuleUID entry = Some rule →
     Q (stateForEntry entry rule (StringKey d (ngModels.InstLabels entry)).1)) →
  warming Q c0 states w →
  warming Q c0 (warmEntry d ruleByUID states entry w).1
    (warmEntry d ruleByUID states entry w).2.
Proof.
  intros HQ [Hc Hst]. destruct w as [h n c t]. cbn [cache heap next] in *.
  unfold warmEntry.
  destruct (ruleByUID !! ngModels.RuleUID entry) as [rule|] eqn:Er.
  - specialize (HQ rule eq_refl).
    destruct (StringKey d (ngModels.InstLabels entry)) as [cacheID err].
    assert (Hgen : ∀ t', warming Q c0 (states ++ [n])
              {| heap := <[n := stateForEntry entry rule cacheID]> h; next := S n;
                 cache := c; trace := t' |}).
    { intros t'. split; [done|]. cbn [heap next]. intros l Hl.
      apply elem_of_app in Hl as [Hl|Hl].
      - destruct (Hst l Hl) as [Hlt Hq]. split; [lia|].
        by rewrite lookup_total_insert_ne by lia.
      - apply list_elem_of_singleton in Hl as ->. split; [lia|].
        by rewrite lookup_total_insert_eq. }
    unfold when. destruct (isErr err); do 2 step; apply Hgen.
  - step. split; [done|]. done.
Qed.

Lemma foldM_warmEntry_warming Q c0 ruleByUID instances :
  ∀ states w,
  (∀ entry rule, entry ∈ instances →
     ruleByUID !! ngModels.RuleUID entry = Some rule →
     Q (stateForEntry entry rule (StringKey d (ngModels.InstLabels entry)).1)) →
  warming Q c0 states w →
  warming Q c0 (foldM (warmEntry d ruleByUID) states instances w).1
    (foldM (warmEntry d ruleByUID) states instances w).2.
Proof.
  induction instances as [|entry instances IH]; intros states w HQ Hw; [done|].
  rewrite foldM_cons. apply IH.
  - intros e rule He. apply HQ. apply elem_of_cons. by right.
  - apply warmEntry_warming; [|done]. intros rule. apply HQ. apply elem_of_cons. by left.
Qed.

Lemma warmOrg_warming c0 tr0 states orgId w :
  orgId ∈ (FetchOrgIds env tr0).1 →
  warming (warmed env d) c0 states w →
  warming (warmed env d) c0 (warmOrg env d states orgId w).1
    (warmOrg env d states orgId w).2.
Proof.
  intros Horg Hw. destruct w as [h n c t]. unfold warmOrg, when.
  step.
  destruct (ListAlertRules env t orgId) as [rules err] eqn:Erules.
  assert (Hgen : ∀ t2 w1,
    warming (warmed env d) c0 states w1 →
    let instances := (ListAlertInstances env t2 orgId).1 in
    warming (warmed env d) c0
      (foldM (warmEntry d (indexRules rules)) states instances w1).1
      (foldM (warmEntry d (indexRules rules)) states instances w1).2).
  { intros t2 w1 Hw1 instances. apply foldM_warmEntry_warming; [|done].
    intros entry rule He Hr. apply indexRules_lookup in Hr as [Hin Hu].
    exists tr0, t, t2, orgId, entry, rule. rewrite Erules. done. }
  destruct (isErr err).
  - do 2 step.
    match goal with
    | |- context [ListAlertInstances env ?t2 orgId] =>
        destruct (ListAlertInstances env t2 orgId) as [instances ierr] eqn:Ei;
        pose proof (Hgen t2) as Hg; rewrite Ei in Hg
    end.
    destruct (isErr ierr); step; apply Hg; by destruct Hw.
  - do 2 step.
    match goal with
    | |- context [ListAlertInstances env ?t2 orgId] =>
        destruct (ListAlertInstances env t2 orgId) as [instances ierr] eqn:Ei;
        pose proof (Hgen t2) as Hg; rewrite Ei in Hg
    end.
    destruct (isErr ierr); step; apply Hg; by destruct Hw.
Qed.

Lemma foldM_warmOrg_warming c0 tr0 orgIds :
  ∀ states w,
  (∀ orgId, orgId ∈ orgIds → orgId ∈ (FetchOrgIds env tr0).1) →
  warming (warmed env d) c0 states w →
  warming (warmed env d) c0 (foldM (warmOrg env d) states orgIds w).1
    (foldM (warmOrg env d) states orgIds w).2.
Proof.
  induction orgIds as [|orgId orgIds IH]; intros states w Horg Hw; [done|].
  rewrite foldM_cons. apply IH.
  - intros o Ho. apply Horg. apply elem_of_cons. by right.
  - apply (warmOrg_warming c0 tr0); [|done]. apply Horg. apply elem_of_cons. by left.
Qed.

(** Filing a list of states: every entry of the resulting cache was there
    before or is one of the states, under its own identity. *)
Lemma forM_set_cache states :
  ∀ w,
  let w' := (forM_ states set w).2 in
  heap w' = heap w
  ∧ next w' = next w
  ∧ ∀ o u i l, cache_get (cache w') o u i = Some l →
      cache_get (cache w) o u i = Some l
      ∨ (l ∈ states ∧ keyOf (heap w !!! l) = (o, u, i)).
Proof.
  induction states as [|l0 states IH]; intros w; [by split; [|split; [|left]]|].
  destruct w as [h n c t]. cbn [forM_]. cbv zeta. unfold set at 1.
  rewrite run_set.
  specialize (IH {| heap := h; next := n;
                    cache := cache_insert (OrgID (h !!! l0)) (AlertRuleUID (h !!! l0))
                               (CacheID (h !!! l0)) l0 c; trace := t |}).
  cbv zeta in IH. destruct IH as (Hh & Hn & Hc). split; [done|]. split; [done|].
  intros o u i l Hl. apply Hc in Hl as [Hl|[Hin Hk]]; cbn [cache heap] in *.
  - rewrite cache_get_insert in Hl. case_decide as Hd.
    + injection Hl as <-. right. split; [by apply elem_of_cons; left|done].
    + by left.
  - right. split; [by apply elem_of_cons; right|done].
Qed.

Lemma Warm_unfold w :
  ∃ t1,
    Warm env d w
    = (let orgIds := (FetchOrgIds env (trace w ++ [EvLog log.Info "warming cache for startup"])).1 in
       states ← foldM (warmOrg env d) [] orgIds; forM_ states set)
        {| heap := heap w; next := next w; cache := ∅; trace := t1 |}.
Proof.
  destruct w as [h n c t]. unfold Warm, ResetAllStates, cache_.reset, when.
  do 3 step. cbn [heap next trace].
  destruct (FetchOrgIds env (t ++ [EvLog log.Info "warming cache for startup"]))
    as [orgIds err].
  destruct (isErr err); step; by eexists.
Qed.

Lemma Warm_origin w o u i l :
  let w' := (Warm env d w).2 in
  cache_get (cache w') o u i = Some l →
  warmed env d (heap w' !!! l) ∧ keyOf (heap w' !!! l) = (o, u, i)
  ∧ (l < next w')%nat.
Proof.
  destruct (Warm_unfold w) as [t1 ->]. cbv zeta.
  set (orgIds := (FetchOrgIds env _).1).
  set (w1 := {| heap := heap w; next := next w; cache := ∅; trace := t1 |}).
  erewrite run_bind; [|apply surjective_pairing].
  set (r := foldM (warmOrg env d) [] orgIds w1).
  assert (Hr : warming (warmed env d) ∅ r.1 r.2).
  { apply (foldM_warmOrg_warming ∅
             (trace w ++ [EvLog log.Info "warming cache for startup"])); [done|].
    split; [done|]. by intros l' ?%elem_of_nil. }
  destruct Hr as [Hc Hst].
  destruct (forM_set_cache r.1 r.2) as (Hh & Hn & Hcache).
  intros Hl. rewrite Hh, Hn. apply Hcache in Hl as [Hl|[Hin Hk]].
  - by rewrite Hc, cache_get_empty in Hl.
  - destruct (Hst l Hin). done.
Qed.

End WarmProofs.

(** An instance whose rule is missing is skipped: nothing is allocated or
    filed for it, the skip is only logged. *)
Lemma warmEntry_skip d rules states entry w :
  (∀ rule, rule ∈ rules → ngModels.UID rule ≠ ngModels.RuleUID entry) →
  warmEntry d (indexRules rules) states entry w
  = (states,
     {| heap := heap w; next := next w; cache := cache w;
        trace := trace w ++ [EvLog log.Error "rule not found for instance, ignoring"] |}).
Proof.
  intros Hno. unfold warmEntry.
  destruct (indexRules rules !! ngModels.RuleUID entry) as [rule|] eqn:E.
  - apply indexRules_lookup in E as [Hin Hu]. by destruct (Hno rule Hin).
  - by destruct w.
Qed.

(** ** The invariant of the manager

    [Warm] establishes the invariant, and the operations of the manager keep
    it as long as the transition functions leave the identity of an instance
    alone. *)

Lemma Warm_inv env d w : manager_inv (Warm env d w).2.
Proof.
  split; intros o u i l Hl; apply Warm_origin in Hl as (_ & Hk & Hn); [|done].
  by injection Hk.
Qed.

Lemma getOrCreate_inv d alertRule result extraLabels w :
  manager_inv w →
  let got := getOrCreate d alertRule result extraLabels w in
  manager_inv got.2
  ∧ ∃ cacheID, cache_get (cache got.2) (ngModels.OrgID alertRule)
                 (ngModels.UID alertRule) cacheID = Some got.1.
Proof.
  intros [Hwf Hn]. unfold getOrCreate, cache_.getOrCreate. cbv zeta.
  destruct (cache_get _ _ _ _) as [l|] eqn:E.
  - split; [done|]. by eexists.
  - destruct w as [h n c t]. do 2 step. unfold ret, mret, M_ret. cbn [fst snd]. split.
    + split.
      * intros o u i l Hl. cbn [cache heap] in *. rewrite cache_get_insert in Hl.
        case_decide as Hd.
        -- injection Hl as <-. rewrite lookup_total_insert_eq. by injection Hd.
        -- rewrite lookup_total_insert_ne; [by apply Hwf|].
           specialize (Hn _ _ _ _ Hl). cbn [next] in Hn. lia.
      * intros o u i l Hl. cbn [cache next] in *. rewrite cache_get_insert in Hl.
        case_decide; [injection Hl as <-; lia|]. specialize (Hn _ _ _ _ Hl). lia.
    + eexists. cbn [cache]. rewrite cache_get_insert. by rewrite decide_True.
Qed.

Lemma keyOf_inv s o u i :
  keyOf s = (o, u, i) → OrgID s = o ∧ AlertRuleUID s = u ∧ CacheID s = i.
Proof. by intros [= -> -> ->]. Qed.

Lemma nextState_keyOf d alertRule result s :
  IdentityPreserving d → keyOf (nextState d alertRule result s) = keyOf s.
Proof.
  intros Hd. unfold nextState, settle. cbv zeta.
  transitivity (keyOf (applyResult d alertRule result (bookkeeping d alertRule result s))).
  { by destruct (_ && _ && _). }
  transitivity (keyOf (bookkeeping d alertRule result s)); [|done].
  unfold applyResult.
  destruct (Hd alertRule result (bookkeeping d alertRule result s)) as (? & ? & ? & ?).
  by destruct (eval.ResultState result).
Qed.

Lemma setNextState_inv env d alertRule result extraLabels w :
  IdentityPreserving d → manager_inv w →
  manager_inv (setNextState env d alertRule result extraLabels w).2.
Proof.
  intros Hd Hw.
  destruct (getOrCreate_inv d alertRule result extraLabels w Hw) as [[Hwf Hn] [i Hi]].
  destruct (setNextState_spec env d alertRule result extraLabels w)
    as (w' & Hrun & Hs & Hfr & Hc & Hnext & _).
  rewrite Hrun. cbn [snd].
  set (l := (getOrCreate d alertRule result extraLabels w).1) in *.
  set (w0 := (getOrCreate d alertRule result extraLabels w).2) in *.
  set (s' := nextState d alertRule result (heap w0 !!! l)) in *.
  assert (Hk : keyOf (heap w' !!! l) = keyOf (heap w0 !!! l)).
  { destruct Hs as [->|[img ->]]; by apply nextState_keyOf. }
  assert (Hk0 : keyOf (heap w0 !!! l) = (ngModels.OrgID alertRule, ngModels.UID alertRule, i)).
  { unfold keyOf. destruct (Hwf _ _ _ _ Hi) as (-> & -> & ->). done. }
  assert (Hc' : cache w' = cache_insert (ngModels.OrgID alertRule) (ngModels.UID alertRule)
                             i l (cache w0)).
  { rewrite Hc. pose proof (nextState_keyOf d alertRule result (heap w0 !!! l) Hd) as Hks.
    fold s' in Hks. rewrite Hk0 in Hks.
    by destruct (keyOf_inv _ _ _ _ Hks) as (-> & -> & ->). }
  split.
  - intros o u j l' Hl'. rewrite Hc', cache_get_insert in Hl'. case_decide as Hdec.
    + injection Hl' as <-. rewrite Hk0 in Hk.
      destruct (keyOf_inv _ _ _ _ Hk) as (-> & -> & ->). by injection Hdec.
    + destruct (decide (l' = l)) as [->|Hne].
      * destruct (Hwf _ _ _ _ Hl') as (Ho & Hu & Hj). exfalso. apply Hdec.
        destruct (keyOf_inv _ _ _ _ Hk0) as (<- & <- & <-). by rewrite Ho, Hu, Hj.
      * rewrite (lookup_total_eq _ _ _ (Hfr l' Hne)). by apply Hwf.
  - intros o u j l' Hl'. rewrite Hnext. rewrite Hc', cache_get_insert in Hl'.
    case_decide; [injection Hl' as <-|]; by eapply Hn.
Qed.

Lemma staleResultsHandler_inv env d r states evaluatedAt w :
  manager_inv w → manager_inv (staleResultsHandler env d r states evaluatedAt w).2.
Proof.
  intros [Hwf Hn].
  pose proof (NoDup_known_states w (ngModels.OrgID r) (ngModels.UID r) Hwf) as Hnd.
  rewrite staleResultsHandler_unfold. cbv zeta. cbn [snd].
  destruct w as [h n c t]. cbn [heap cache next] in *.
  destruct (sweep_loop env d r states evaluatedAt _ Hnd None [] h n c t)
    as (ri' & h' & c' & T & Hrun & F1 & _ & F3 & F4 & _).
  rewrite Hrun. cbn [snd].
  assert (Hold : ∀ o u i l, cache_get c' o u i = Some l →
            cache_get c o u i = Some l ∧ h' !! l = h !! l).
  { intros o u i l Hl.
    set (known := (map_to_list (cache_rule c (ngModels.OrgID r) (ngModels.UID r))).*2) in *.
    destruct (decide (Exists (λ l0, evicted r states evaluatedAt (h !!! l0) = true
                                    ∧ keyOf (h !!! l0) = (o, u, i)) known)) as [Hex|Hnex].
    - apply Exists_exists in Hex as (l0 & Hl0 & He & Hk).
      rewrite (F3 o u i) in Hl; [done|]. by exists l0.
    - assert (Hc : cache_get c o u i = Some l).
      { rewrite <- Hl. symmetry. apply F4. intros l0 Hl0 He Hk. apply Hnex.
        apply Exists_exists. by exists l0. }
      split; [done|]. apply F1. intros Hin.
      destruct (resolvedBySweep r states evaluatedAt (h !!! l)) eqn:HR; [|done].
      exfalso. apply Hnex. apply Exists_exists. exists l. split; [done|].
      unfold resolvedBySweep in HR. apply andb_true_iff in HR as [He _].
      split; [done|]. destruct (Hwf _ _ _ _ Hc) as (<- & <- & <-). done. }
  split.
  - intros o u i l Hl. cbn [cache heap] in *. apply Hold in Hl as [Hc Hh].
    rewrite (lookup_total_eq _ _ _ Hh). by apply Hwf.
  - intros o u i l Hl. cbn [cache next] in *. apply Hold in Hl as [Hc _]. by eapply Hn.
Qed.

Lemma ProcessEvalResults_inv env d evaluatedAt alertRule results extraLabels w :
  IdentityPreserving d → manager_inv w →
  manager_inv (ProcessEvalResults env d evaluatedAt alertRule results extraLabels w).2.
Proof.
  intros Hd Hw.
  destruct (ProcessEvalResults_run env d evaluatedAt alertRule results extraLabels w)
    as (_ & Hh & Hc & Hnext & _).
  assert (Hloop : ∀ rs acc w1, manager_inv w1 →
    manager_inv (foldM (processResult env d alertRule extraLabels) acc rs w1).2).
  { induction rs as [|res rs IH]; intros acc w1 Hw1; [done|].
    rewrite foldM_cons. apply IH. destruct acc as [sts processed]. unfold processResult.
    erewrite run_bind; [|apply surjective_pairing]. rewrite run_deref. cbn [snd].
    by apply setNextState_inv. }
  assert (Hsw : manager_inv (staleResultsHandler env d alertRule
            (foldM (processResult env d alertRule extraLabels) ([], ∅) results
               (logf log.Debug "state manager processing evaluation results" w).2).1.2
            evaluatedAt
            (foldM (processResult env d alertRule extraLabels) ([], ∅) results
               (logf log.Debug "state manager processing evaluation results" w).2).2).2).
  { apply staleResultsHandler_inv, Hloop. by destruct w. }
  destruct Hsw as [Hwf Hn]. cbv zeta in Hh, Hc, Hnext.
  split.
  - intros o u i l Hl. rewrite Hc in Hl. rewrite Hh. by apply Hwf.
  - intros o u i l Hl. rewrite Hc in Hl. rewrite Hnext. by eapply Hn.
Qed.

Lemma ResetStateByRuleUID_inv env ruleKey w :
  manager_inv w → manager_inv (ResetStateByRuleUID env ruleKey w).2.
Proof.
  intros [Hwf Hn]. destruct w as [h n c t].
  destruct (ResetStateByRuleUID_run env ruleKey h n c t) as (T & -> & _).
  cbn [snd]. split; intros o u i l Hl; cbn [cache heap next] in *;
    rewrite cache_get_delete_rule in Hl; case_decide; try done;
    [by apply Hwf|by eapply Hn].
Qed.

(** The empty world satisfies the invariant. *)
Lemma empty_inv h n t : manager_inv {| heap := h; next := n; cache := ∅; trace := t |}.
Proof. split; intros o u i l Hl; by rewrite cache_get_empty in Hl. Qed.

(** ** The scenarios of the specification, run *)

(** Rule interval 10 s; the series "a", "b" (Alerting) and "c" (Normal) were
    last evaluated at time 0; the evaluation at 25 s has no result for them:
    the sweep deletes all three and returns "a" and "b", resolved. *)
Example sweep_at_25s :
  let res := ProcessEvalResults Demo.quiet Demo.deps 25000000000 (Demo.rule 10) [] ∅
               (Demo.firing 10) in
  (λ l, (CacheID (heap res.2 !!! l), AlertState (heap res.2 !!! l),
         StateReason (heap res.2 !!! l), Resolved (heap res.2 !!! l))) <$> res.1
  = [("a", eval.Normal, "missing series", true);
     ("b", eval.Normal, "missing series", true)]
  ∧ cache_entries (cache res.2) = []
  ∧ countEv isDeleteAlertInstance (trace res.2) = 3%nat.
Proof. by vm_compute. Qed.

(** The same evaluation at 19 s comes too early: nothing is stale. *)
Example sweep_at_19s :
  let res := ProcessEvalResults Demo.quiet Demo.deps 19000000000 (Demo.rule 10) [] ∅
               (Demo.firing 10) in
  res.1 = [] ∧ length (cache_entries (cache res.2)) = 3%nat.
Proof. by vm_compute. Qed.

(** A series that goes Alerting and then Normal in the next cycle is
    returned resolved once. *)
Example resolved_once :
  let w1 := (ProcessEvalResults Demo.quiet Demo.deps 0 (Demo.rule 10)
               [Demo.result "a" eval.Alerting 0] ∅ Demo.empty).2 in
  let res := ProcessEvalResults Demo.quiet Demo.deps 10000000000 (Demo.rule 10)
               [Demo.result "a" eval.Normal 10000000000] ∅ w1 in
  (λ l, (AlertState (heap res.2 !!! l), Resolved (heap res.2 !!! l))) <$> res.1
  = [(eval.Normal, true)]
  ∧ countEv isGoAnnotate (trace res.2) = 2%nat.
Proof. by vm_compute. Qed.

(** The sample transition functions leave the identity alone, so every world
    the sample installation reaches satisfies the invariant. *)
Example Demo_identity_preserving : IdentityPreserving Demo.deps.
Proof. by intros alertRule result s. Qed.

(** * Further properties *)

(** * Effects of the operations *)

Lemma emits_ret {A} ks (a : A) : emits ks (ret a).
Proof. intros w. exists []. by rewrite app_nil_r. Qed.

Lemma emits_bind {A B} ks (m : M A) (k : A → M B) :
  emits ks m → (∀ a, emits ks (k a)) → emits ks (m ≫= k).
Proof.
  intros Hm Hk w. unfold mbind, M_bind.
  destruct (Hm w) as (T1 & E1 & F1). destruct (m w) as [a w1]. simpl in E1.
  destruct (Hk a w1) as (T2 & E2 & F2).
  exists (T1 ++ T2). rewrite E2, E1, app_assoc. split; [done|]. by apply Forall_app.
Qed.

Lemma emits_weaken {A} ks ks' (m : M A) :
  ks ⊆ ks' → emits ks m → emits ks' m.
Proof.
  intros Hsub Hm w. destruct (Hm w) as (T & E & F). exists T. split; [done|].
  eapply Forall_impl; [exact F|]. intros e He. unfold ofKinds in *.
  apply bool_decide_eq_true. apply bool_decide_eq_true in He. by apply Hsub.
Qed.

Lemma emits_silent {A} ks (m : M A) :
  (∀ w, trace (m w).2 = trace w) → emits ks m.
Proof. intros H w. exists []. by rewrite app_nil_r, H. Qed.

Lemma emits_deref ks l : emits ks (deref l).
Proof. by apply emits_silent. Qed.

Lemma emits_modify ks l f : emits ks (modify l f).
Proof. by apply emits_silent. Qed.

Lemma emits_alloc ks s : emits ks (alloc s).
Proof. by apply emits_silent. Qed.

Lemma emits_with_cache ks f : emits ks (with_cache f).
Proof. by apply emits_silent. Qed.

Lemma emits_emit ks e : ofKinds ks e = true → emits ks (emit e).
Proof. intros H w. exists [e]. split; [done|]. by constructor. Qed.

Lemma emits_logf ks lvl msg :
  ofKinds ks (EvLog lvl msg) = true → emits ks (logf lvl msg).
Proof. apply emits_emit. Qed.

Lemma emits_call {A} ks e (answer : list Event → A) :
  ofKinds ks e = true → emits ks (call e answer).
Proof. intros H w. exists [e]. split; [done|]. by constructor. Qed.

Lemma emits_when ks (b : bool) m : emits ks m → emits ks (when b m).
Proof. destruct b; [done|]. intros _. apply emits_ret. Qed.

Lemma emits_forM_ {A} ks (xs : list A) f :
  (∀ x, emits ks (f x)) → emits ks (forM_ xs f).
Proof.
  intros Hf. induction xs as [|x xs IH]; simpl; [apply emits_ret|].
  apply emits_bind; [apply Hf|]. by intros _.
Qed.

Lemma emits_foldM {A B} ks (f : B → A → M B) xs :
  (∀ b x, emits ks (f b x)) → ∀ b, emits ks (foldM f b xs).
Proof.
  intros Hf. induction xs as [|x xs IH]; intros b; simpl; [apply emits_ret|].
  apply emits_bind; [apply Hf|]. apply IH.
Qed.

Lemma emits_set ks l : emits ks (cache_.set l).
Proof. by apply emits_silent. Qed.

Lemma emits_getStatesForRuleUID ks o u : emits ks (cache_.getStatesForRuleUID o u).
Proof. by apply emits_silent. Qed.

Lemma emits_getOrCreate ks d alertRule result extraLabels :
  emits ks (getOrCreate d alertRule result extraLabels).
Proof. apply emits_silent. intros w. apply getOrCreate_trace. Qed.

Lemma emits_sub {A} ks ks' (m : M A) :
  emits ks m → forallb (λ k, bool_decide (k ∈ ks')) ks = true → emits ks' m.
Proof.
  intros Hm Hsub. eapply emits_weaken; [|exact Hm].
  intros k Hk. rewrite forallb_forall in Hsub.
  apply list_elem_of_In, Hsub in Hk. by apply bool_decide_eq_true in Hk.
Qed.

Ltac emits_go :=
  repeat match goal with
    | |- emits _ (ret _) => apply emits_ret
    | |- emits _ (mret _) => apply emits_ret
    | |- emits _ (deref _) => apply emits_deref
    | |- emits _ (modify _ _) => apply emits_modify
    | |- emits _ (alloc _) => apply emits_alloc
    | |- emits _ (with_cache _) => apply emits_with_cache
    | |- emits _ (cache_.set _) => apply emits_set
    | |- emits _ (cache_.getStatesForRuleUID _ _) => apply emits_getStatesForRuleUID
    | |- emits _ (cache_.getOrCreate _ _ _ _) => apply emits_getOrCreate
    | |- emits _ (logf _ _) => apply emits_logf; reflexivity
    | |- emits _ (emit _) => apply emits_emit; reflexivity
    | |- emits _ (call _ _) => apply emits_call; reflexivity
    | |- emits _ (when _ _) => apply emits_when
    | |- emits _ (_ ≫= _) => apply emits_bind; [|intros ?]
    | |- emits _ (forM_ _ _) => apply emits_forM_; intros ?
    | |- emits _ (foldM _ _ _) => apply emits_foldM; intros ? ?
    | |- emits _ (match ?x with _ => _ end) => destruct x
    end.

Lemma annotationsSave_emits env alertRule item :
  emits [KLog; KAnnotationSave] (annotationsSave env alertRule item).
Proof. unfold annotationsSave. emits_go. Qed.

Lemma annotateState_emits env d alertRule labels evaluatedAt cur prev :
  emits [KLog; KGetDashboard; KAnnotationSave]
    (annotateState env d alertRule labels evaluatedAt cur prev).
Proof.
  unfold annotateState. cbv zeta. emits_go.
  all: eapply emits_sub; [apply annotationsSave_emits|reflexivity].
Qed.

Lemma setNextState_emits env d alertRule result extraLabels :
  emits [KLog; KTakeImage; KGoAnnotateState]
    (setNextState env d alertRule result extraLabels).
Proof. unfold setNextState, getOrCreate, set, takeImage. emits_go. Qed.

Lemma staleStep_emits env d r states ev acc sp :
  emits [KLog; KDeleteAlertInstance; KTakeImage; KGetDashboard; KAnnotationSave]
    (staleStep env d r states ev acc sp).
Proof.
  unfold staleStep, cache_.deleteEntry, takeImage. emits_go.
  all: eapply emits_sub; [apply annotateState_emits|reflexivity].
Qed.

Lemma staleResultsHandler_emits env d r states ev :
  emits [KLog; KDeleteAlertInstance; KTakeImage; KGetDashboard; KAnnotationSave]
    (staleResultsHandler env d r states ev).
Proof.
  unfold staleResultsHandler, GetStatesForRuleUID. emits_go.
  apply staleStep_emits.
Qed.

Lemma saveStates_emits env states :
  emits [KLog; KSaveAlertInstance] (saveStates env states).
Proof. unfold saveStates, saveState. emits_go. Qed.

Lemma ProcessEvalResults_emits env d evaluatedAt alertRule results extraLabels :
  emits [KLog; KTakeImage; KGoAnnotateState; KDeleteAlertInstance; KGetDashboard;
         KAnnotationSave; KSaveAlertInstance]
    (ProcessEvalResults env d evaluatedAt alertRule results extraLabels).
Proof.
  unfold ProcessEvalResults. emits_go.
  - unfold processResult. emits_go.
    eapply emits_sub; [apply setNextState_emits|reflexivity].
  - eapply emits_sub; [apply staleResultsHandler_emits|reflexivity].
  - eapply emits_sub; [apply saveStates_emits|reflexivity].
Qed.

Lemma Warm_emits env d :
  emits [KLog; KFetchOrgIds; KListAlertRules; KListAlertInstances] (Warm env d).
Proof.
  unfold Warm, ResetAllStates, cache_.reset. emits_go.
  - unfold warmOrg. emits_go. unfold warmEntry. emits_go.
  - apply emits_set.
Qed.

Lemma ResetStateByRuleUID_emits env ruleKey :
  emits [KLog; KDeleteAlertInstancesByRule] (ResetStateByRuleUID env ruleKey).
Proof. unfold ResetStateByRuleUID, cache_.removeByRuleUID. emits_go. Qed.

Lemma Put_emits states : emits [] (Put states).
Proof. unfold Put. emits_go. apply emits_set. Qed.

Lemma eventsOf_app k tr1 tr2 : eventsOf k (tr1 ++ tr2) = eventsOf k tr1 ++ eventsOf k tr2.
Proof. unfold eventsOf. apply List.filter_app. Qed.

Lemma eventsOf_other k ks T :
  k ∉ ks → Forall (λ e, ofKinds ks e = true) T → eventsOf k T = [].
Proof.
  intros Hk. induction 1 as [|e T He _ IH]; [done|].
  unfold eventsOf in *. cbn [List.filter]. rewrite IH.
  replace (ofKinds [k] e) with false; [done|]. symmetry.
  unfold ofKinds in *. apply bool_decide_eq_true in He. apply bool_decide_eq_false.
  intros Hin%list_elem_of_singleton. by subst k.
Qed.

Lemma emits_eventsOf {A} k ks (m : M A) w :
  emits ks m → bool_decide (k ∈ ks) = false →
  eventsOf k (trace (m w).2) = eventsOf k (trace w).
Proof.
  intros Hm Hk%bool_decide_eq_false. destruct (Hm w) as (T & -> & HT).
  by rewrite eventsOf_app, (eventsOf_other k ks T), app_nil_r.
Qed.

(** * Strings *)

Lemma string_append_cons c (a q : string) : String c a +:+ q = String c (a +:+ q).
Proof. done. Qed.

Lemma string_append_assoc (a b c : string) : (a +:+ b) +:+ c = a +:+ (b +:+ c).
Proof. induction a as [|x a IH]; [done|]. by rewrite !string_append_cons, IH. Qed.

Lemma string_append_nil_r (a : string) : a +:+ "" = a.
Proof. induction a as [|x a IH]; [done|]. by rewrite string_append_cons, IH. Qed.

Lemma string_prefix_spec (a s : string) :
  String.prefix a s = true ↔ ∃ q, s = a +:+ q.
Proof.
  revert s. induction a as [|c a IH]; intros s.
  - destruct s; (split; [by eexists|done]).
  - destruct s as [|c' s]; simpl; [split; [done|by intros [? ?]]|].
    destruct (Ascii.ascii_dec c c') as [->|Hne].
    + rewrite IH. split; intros [q Hq]; exists q; rewrite string_append_cons in *; congruence.
    + split; [done|]. intros [q Hq]. rewrite string_append_cons in Hq. congruence.
Qed.

Lemma string_rev_app_spec (a b : string) : String.rev_app a b = String.rev a +:+ b.
Proof.
  unfold String.rev. revert b. induction a as [|c a IH]; intros b; simpl; [done|].
  rewrite IH, (IH (String c "")). by rewrite string_append_assoc.
Qed.

Lemma string_rev_append (a b : string) : String.rev (a +:+ b) = String.rev b +:+ String.rev a.
Proof.
  induction a as [|c a IH].
  - by rewrite string_append_nil_r.
  - rewrite string_append_cons. unfold String.rev. simpl.
    rewrite !(string_rev_app_spec _ (String c "")), IH. by rewrite string_append_assoc.
Qed.

Lemma string_rev_rev (a : string) : String.rev (String.rev a) = a.
Proof.
  induction a as [|c a IH]; [done|].
  change (String c a) with (String c "" +:+ a) at 1.
  rewrite string_rev_append, string_rev_append, IH. done.
Qed.

Lemma HasSuffix_spec (s suffix : string) :
  HasSuffix s suffix = true ↔ ∃ p, s = p +:+ suffix.
Proof.
  unfold HasSuffix. rewrite string_prefix_spec. split.
  - intros [q Hq]. exists (String.rev q).
    rewrite <- (string_rev_rev s), Hq, string_rev_append, string_rev_rev. done.
  - intros [p ->]. exists (String.rev p). apply string_rev_append.
Qed.

Lemma string_append_cancel_r (a b t : string) : a +:+ t = b +:+ t → a = b.
Proof.
  intros H. apply (f_equal String.rev) in H. rewrite !string_rev_append in H.
  apply (inj (String.app _)) in H. by rewrite <- (string_rev_rev a), H, string_rev_rev.
Qed.

(** * Small functions *)

(** X1. [isItStale] is monotone: a stale instance stays stale at any later
    sweep, and an instance evaluated earlier than a stale one is stale too,
    whatever the interval (also when the interval arithmetic wraps). *)
Theorem isItStale_monotone evaluatedAt evaluatedAt' lastEval lastEval' intervalSeconds :
  evaluatedAt ≤ evaluatedAt' → lastEval' ≤ lastEval →
  isItStale evaluatedAt lastEval intervalSeconds = true →
  isItStale evaluatedAt' lastEval' intervalSeconds = true.
Proof.
  unfold isItStale, time.After, time.Add. intros H1 H2.
  rewrite !negb_true_iff, !bool_decide_eq_false. lia.
Qed.

Lemma isItStale_monotone_witness :
  isItStale 20000000000 0 10 = true ∧ isItStale 25000000000 (-5) 10 = true.
Proof.
  split; [reflexivity|].
  apply (isItStale_monotone 20000000000 25000000000 0 (-5) 10); [lia|lia|reflexivity].
Defined.

Lemma removePrivateLabels_lookup labels k :
  removePrivateLabels labels !! k
  = if String.prefix "__" k || HasSuffix k "__" then None else labels !! k.
Proof.
  unfold removePrivateLabels.
  destruct (labels !! k) as [v|] eqn:E.
  - destruct (String.prefix "__" k) eqn:E1; simpl.
    { apply map_lookup_filter_None. right. intros v' _ [? _]. simpl in *. congruence. }
    destruct (HasSuffix k "__") eqn:E2.
    { apply map_lookup_filter_None. right. intros v' _ [_ ?]. simpl in *. congruence. }
    by apply map_lookup_filter_Some.
  - transitivity (@None string); [|by destruct (_ || _)].
    apply map_lookup_filter_None. by left.
Qed.

(** X2. [removePrivateLabels] keeps exactly the labels whose name neither
    starts nor ends with two underscores, with their values; it is
    idempotent and never adds a label. *)
Theorem removePrivateLabels_keeps labels :
  (∀ (k v : string), removePrivateLabels labels !! k = Some v
          ↔ labels !! k = Some v
            ∧ ¬ (∃ q : string, k = "__" +:+ q) ∧ ¬ (∃ p : string, k = p +:+ "__"))
  ∧ removePrivateLabels (removePrivateLabels labels) = removePrivateLabels labels
  ∧ removePrivateLabels labels ⊆ labels.
Proof.
  split; [|split].
  - intros k v. rewrite removePrivateLabels_lookup, <- string_prefix_spec, <- HasSuffix_spec.
    destruct (String.prefix "__" k), (HasSuffix k "__"); simpl;
      (split;
        [ intros H; first [discriminate H | split; [exact H|split; intros ?; discriminate]]
        | intros (H & H1 & H2); first [exact H | by destruct H1 | by destruct H2] ]).
  - apply map_eq. intros k. rewrite !removePrivateLabels_lookup.
    by destruct (_ || _).
  - apply map_filter_subseteq.
Qed.

(** X3. [InstanceStateAndReason.String] tells apart any two different
    pairs of state and reason, so the previous and the new state of an
    annotation read differently whenever they differ. *)
Theorem InstanceStateAndReason_String_inj i j :
  InstanceStateAndReason_String i = InstanceStateAndReason_String j → i = j.
Proof.
  destruct i as [s r], j as [s' r']. unfold InstanceStateAndReason_String. simpl.
  destruct r as [|c r], r' as [|c' r']; simpl;
    destruct s, s'; simpl; intros H; try discriminate H; try reflexivity.
  all: change ("" +:+ ?x) with x in H; rewrite ?string_append_cons in H.
  all: injection H as Hc Hr; apply string_append_cancel_r in Hr; congruence.
Qed.

Lemma InstanceStateAndReason_String_inj_witness :
  InstanceStateAndReason_String {| ISState := eval.Normal; ISReason := "missing series" |}
  = "Normal (missing series)"
  ∧ {| ISState := eval.Normal; ISReason := "missing series" |}
    = {| ISState := eval.Normal; ISReason := "missing series" |}.
Proof.
  split; [reflexivity|].
  apply (InstanceStateAndReason_String_inj _ _). reflexivity.
Defined.

(** * More on [Warm] *)

Lemma calls_app tr1 tr2 : calls (tr1 ++ tr2) = calls tr1 ++ calls tr2.
Proof. unfold calls. apply List.filter_app. Qed.

Lemma calls_logs T : Forall (λ e, ofKinds [KLog] e = true) T → calls T = [].
Proof.
  induction 1 as [|e T He _ IH]; [done|]. unfold calls in *. simpl. by rewrite He.
Qed.

Lemma emits_log_calls {A} (m : M A) w :
  emits [KLog] m → calls (trace (m w).2) = calls (trace w).
Proof.
  intros Hm. destruct (Hm w) as (T & -> & HT).
  by rewrite calls_app, (calls_logs T), app_nil_r.
Qed.

Section WarmMore.
Variable env : Env.
Variable d : Deps.

Lemma warmEntry_logs ruleByUID states entry :
  emits [KLog] (warmEntry d ruleByUID states entry).
Proof. unfold warmEntry. emits_go. Qed.

Lemma warmEntry_fresh n0 h0 ruleByUID states entry w :
  warm_fresh n0 h0 states w →
  warm_fresh n0 h0 (warmEntry d ruleByUID states entry w).1
    (warmEntry d ruleByUID states entry w).2.
Proof.
  intros (Hn & Hst & Hh). destruct w as [h n c t]. cbn [heap next] in *.
  unfold warmEntry.
  destruct (ruleByUID !! ngModels.RuleUID entry) as [rule|].
  - destruct (StringKey d (ngModels.InstLabels entry)) as [cacheID err].
    assert (Hgen : ∀ t', warm_fresh n0 h0 (states ++ [n])
              {| heap := <[n := stateForEntry entry rule cacheID]> h; next := S n;
                 cache := c; trace := t' |}).
    { intros t'. split; [cbn; lia|]. split; cbn [heap].
      - intros l [Hl|Hl%list_elem_of_singleton]%elem_of_app; [by apply Hst|lia].
      - intros l Hl. rewrite lookup_insert_ne by lia. by apply Hh. }
    unfold when. destruct (isErr err); do 2 step; apply Hgen.
  - step. done.
Qed.

Lemma foldM_warmEntry_fresh n0 h0 ruleByUID instances :
  ∀ states w,
  warm_fresh n0 h0 states w →
  warm_fresh n0 h0 (foldM (warmEntry d ruleByUID) states instances w).1
    (foldM (warmEntry d ruleByUID) states instances w).2.
Proof.
  induction instances as [|entry instances IH]; intros states w Hw; [done|].
  rewrite foldM_cons. by apply IH, warmEntry_fresh.
Qed.

Lemma warmOrg_run states orgId w :
  ∃ rules instances t',
    warmOrg env d states orgId w
    = foldM (warmEntry d (indexRules rules)) states instances
        {| heap := heap w; next := next w; cache := cache w; trace := t' |}
    ∧ calls t' = calls (trace w) ++ [EvListAlertRules orgId; EvListAlertInstances orgId].
Proof.
  destruct w as [h n c t]. unfold warmOrg, when. cbn [heap next cache trace].
  step.
  destruct (ListAlertRules env t orgId) as [rules err].
  destruct (isErr err); do 2 step;
    match goal with
    | |- context [ListAlertInstances env ?t2 orgId] =>
        destruct (ListAlertInstances env t2 orgId) as [instances ierr]
    end;
    destruct (isErr ierr); step; eexists _, _, _; (split; [reflexivity|]);
    rewrite !calls_app; simpl; by rewrite ?app_nil_r, <- ?app_assoc.
Qed.

Lemma warmOrg_fresh n0 h0 states orgId w :
  warm_fresh n0 h0 states w →
  warm_fresh n0 h0 (warmOrg env d states orgId w).1 (warmOrg env d states orgId w).2.
Proof.
  intros Hw. destruct (warmOrg_run states orgId w) as (rules & instances & t' & -> & _).
  by apply foldM_warmEntry_fresh.
Qed.

Lemma warmOrg_calls states orgId w :
  calls (trace (warmOrg env d states orgId w).2)
  = calls (trace w) ++ [EvListAlertRules orgId; EvListAlertInstances orgId].
Proof.
  destruct (warmOrg_run states orgId w) as (rules & instances & t' & -> & <-).
  rewrite emits_log_calls; [done|]. apply emits_foldM. intros. apply warmEntry_logs.
Qed.

Lemma foldM_warmOrg_fresh n0 h0 orgIds :
  ∀ states w,
  warm_fresh n0 h0 states w →
  warm_fresh n0 h0 (foldM (warmOrg env d) states orgIds w).1
    (foldM (warmOrg env d) states orgIds w).2.
Proof.
  induction orgIds as [|orgId orgIds IH]; intros states w Hw; [done|].
  rewrite foldM_cons. by apply IH, warmOrg_fresh.
Qed.

Lemma foldM_warmOrg_calls orgIds :
  ∀ states w,
  calls (trace (foldM (warmOrg env d) states orgIds w).2)
  = calls (trace w)
    ++ (orgIds ≫= λ orgId, [EvListAlertRules orgId; EvListAlertInstances orgId]).
Proof.
  induction orgIds as [|orgId orgIds IH]; intros states w; [by rewrite app_nil_r|].
  rewrite foldM_cons, IH, warmOrg_calls. by rewrite <- app_assoc.
Qed.

End WarmMore.

Lemma emits_nil_trace {A} (m : M A) w : emits [] m → trace (m w).2 = trace w.
Proof.
  intros Hm. destruct (Hm w) as (T & -> & HT).
  destruct T as [|e T]; [by rewrite app_nil_r|].
  apply Forall_cons in HT as [He _]. unfold ofKinds in He.
  apply bool_decide_eq_true in He. by apply elem_of_nil in He.
Qed.

Lemma Warm_unfold_calls env d w :
  ∃ t1,
    Warm env d w
    = (let orgIds := (FetchOrgIds env (trace w ++ [EvLog log.Info "warming cache for startup"])).1 in
       states ← foldM (warmOrg env d) [] orgIds; forM_ states set)
        {| heap := heap w; next := next w; cache := ∅; trace := t1 |}
    ∧ calls t1 = calls (trace w) ++ [EvFetchOrgIds].
Proof.
  destruct w as [h n c t]. unfold Warm, ResetAllStates, cache_.reset, when.
  do 3 step. cbn [heap next trace].
  destruct (FetchOrgIds env (t ++ [EvLog log.Info "warming cache for startup"]))
    as [orgIds err].
  destruct (isErr err); step; (eexists; split; [reflexivity|]);
    rewrite !calls_app; simpl; by rewrite ?app_nil_r.
Qed.

(** X4. What [Warm] leaves in the cache. Every cached instance is a state
    that [Warm] itself allocated: whatever was cached before is dropped, and
    the states allocated before are not written to. A rehydrated instance is
    Alerting, Normal or Error (never Pending or NoData), is not resolved, and
    has no image, no evaluation history, no evaluation string and no
    evaluation duration. *)
Theorem Warm_rehydrated env d w :
  let w' := (Warm env d w).2 in
  (∀ o u i l, cache_get (cache w') o u i = Some l →
     (next w ≤ l < next w')%nat
     ∧ AlertState (heap w' !!! l) ∈ [eval.Alerting; eval.Normal; eval.Error]
     ∧ Resolved (heap w' !!! l) = false
     ∧ Image (heap w' !!! l) = None
     ∧ Results (heap w' !!! l) = []
     ∧ LastEvaluationString (heap w' !!! l) = ""
     ∧ EvaluationDuration (heap w' !!! l) = 0)
  ∧ (∀ l, (l < next w)%nat → heap w' !! l = heap w !! l).
Proof.
  intros w'.
  assert (Hfresh : (∀ o u i l, cache_get (cache w') o u i = Some l → (next w ≤ l)%nat)
                   ∧ ∀ l, (l < next w)%nat → heap w' !! l = heap w !! l).
  { subst w'. destruct (Warm_unfold env d w) as [t1 ->]. cbv zeta.
    set (orgIds := (FetchOrgIds env _).1).
    set (w1 := {| heap := heap w; next := next w; cache := ∅; trace := t1 |}).
    erewrite run_bind; [|apply surjective_pairing].
    set (r := foldM (warmOrg env d) [] orgIds w1).
    assert (Hr : warm_fresh (next w) (heap w) r.1 r.2).
    { apply foldM_warmOrg_fresh. split; [done|]. split; [|done].
      by intros l ?%elem_of_nil. }
    assert (Hc : cache r.2 = ∅).
    { apply (foldM_warmOrg_warming env d ∅
               (trace w ++ [EvLog log.Info "warming cache for startup"]) orgIds [] w1);
        [done|]. split; [done|]. by intros l ?%elem_of_nil. }
    destruct Hr as (_ & Hst & Hh).
    destruct (forM_set_cache r.1 r.2) as (Hheap & _ & Hcache).
    split.
    - intros o u i l Hl. apply Hcache in Hl as [Hl|[Hin _]]; [|by apply Hst].
      by rewrite Hc, cache_get_empty in Hl.
    - intros l Hl. rewrite Hheap. by apply Hh. }
  destruct Hfresh as [Hge Hold]. split; [|exact Hold].
  intros o u i l Hl.
  destruct (Warm_origin env d w o u i l Hl) as ((tr0 & tr1 & tr2 & org & entry & rule & _ & _ & _ & _ & Hs) & _ & Hlt).
  fold w' in Hs, Hlt. rewrite Hs. cbn.
  split; [split; [by eapply Hge|done]|].
  split; [|done].
  unfold translateInstanceState. repeat case_bool_decide; set_solver.
Qed.

(** X5. The store calls of [Warm]. It asks the instance store for the org
    ids once, then, for each org id it got and in that order, lists the
    rules and then the instances of that org; it makes no other call (no
    save, no delete, no image, no annotation). *)
Theorem Warm_store_calls env d w :
  let orgIds :=
    (FetchOrgIds env (trace w ++ [EvLog log.Info "warming cache for startup"])).1 in
  calls (trace (Warm env d w).2) = calls (trace w) ++ warmCalls orgIds.
Proof.
  destruct (Warm_unfold_calls env d w) as (t1 & -> & Ht1). cbv zeta.
  erewrite run_bind; [|apply surjective_pairing].
  rewrite emits_nil_trace by (emits_go; apply emits_set).
  rewrite foldM_warmOrg_calls. cbn [trace]. rewrite Ht1. unfold warmCalls.
  by rewrite <- app_assoc.
Qed.

(** X6. When the instance store returns no org id (as it does when
    [FetchOrgIds] fails), [Warm] still clears the cache: it ends with an
    empty cache, allocates nothing and lists no rules and no instances. *)
Theorem Warm_no_orgs env d w
    (Hnone : (FetchOrgIds env
                (trace w ++ [EvLog log.Info "warming cache for startup"])).1 = []) :
  let w' := (Warm env d w).2 in
  cache w' = ∅ ∧ heap w' = heap w ∧ next w' = next w
  ∧ calls (trace w') = calls (trace w) ++ [EvFetchOrgIds].
Proof.
  intros w'. subst w'.
  destruct (Warm_unfold_calls env d w) as (t1 & -> & Ht1). cbv zeta. rewrite Hnone.
  done.
Qed.

Lemma Warm_no_orgs_witness :
  let w := Demo.firing 10 in
  let w' := (Warm Samples.noOrgs Demo.deps w).2 in
  (FetchOrgIds Samples.noOrgs
     (trace w ++ [EvLog log.Info "warming cache for startup"])).1 = []
  ∧ cache w' = ∅ ∧ heap w' = heap w.
Proof.
  split; [reflexivity|].
  destruct (Warm_no_orgs Samples.noOrgs Demo.deps (Demo.firing 10) eq_refl)
    as (Hc & Hh & _).
  exact (conj Hc Hh).
Defined.

(** * [Put] *)

Lemma forM_set_run states :
  ∀ h n c t,
  ∃ c', forM_ states set {| heap := h; next := n; cache := c; trace := t |}
        = (tt, {| heap := h; next := n; cache := c'; trace := t |})
      ∧ ∀ o u i, cache_get c' o u i
                 = match lastWithKey h (o, u, i) states with
                   | Some l => Some l
                   | None => cache_get c o u i
                   end.
Proof.
  induction states as [|l0 states IH]; intros h n c t; [by exists c|].
  cbn [forM_]. unfold set at 1. rewrite run_set.
  edestruct IH as (c' & -> & Hc'). exists c'. split; [done|].
  intros o u i. rewrite Hc'. unfold lastWithKey. cbn [List.filter].
  rewrite cache_get_insert. unfold keyOf.
  case_decide as Hk.
  - rewrite bool_decide_eq_true_2 by done. rewrite last_cons. by destruct (last _).
  - by rewrite bool_decide_eq_false_2 by done.
Qed.

(** X7. [Put] files every state of the list under the state's own
    identity, in order, so that of several states with one identity the last
    one wins; the other identities keep their instances, and neither the
    states nor the trace change. *)
Theorem Put_lookup states w :
  let w' := (Put states w).2 in
  heap w' = heap w ∧ next w' = next w ∧ trace w' = trace w
  ∧ ∀ o u i, cache_get (cache w') o u i
             = match lastWithKey (heap w) (o, u, i) states with
               | Some l => Some l
               | None => cache_get (cache w) o u i
               end.
Proof.
  destruct w as [h n c t]. unfold Put.
  destruct (forM_set_run states h n c t) as (c' & -> & Hc'). done.
Qed.

(** * Saving and rehydrating *)

(** X8. What survives a save and a restart. [saveState] sends one command
    and changes nothing in memory. When [Warm] later rebuilds the instance
    from what the command saved, the identity, the labels, the reason and
    the three timestamps come back; the state comes back only if it was
    Alerting, Normal or Error (Pending and NoData come back as Error); the
    resolved flag, the image and the evaluation history are lost. *)
Theorem saveState_Warm_round_trip env d s w :
  let ran := saveState env s w in
  ∃ cmd,
    trace ran.2 = trace w ++ [EvSaveAlertInstance cmd]
    ∧ heap ran.2 = heap w ∧ cache ran.2 = cache w ∧ next ran.2 = next w
    ∧ ran.1 = SaveAlertInstance env (trace w) cmd
    ∧ ∀ entry rule,
        persistedAs cmd entry →
        (StringKey d (Labels_ s)).1 = CacheID s →
        let s' := stateForEntry entry rule (StringKey d (ngModels.InstLabels entry)).1 in
        keyOf s' = keyOf s
        ∧ Labels_ s' = Labels_ s
        ∧ StateReason s' = StateReason s
        ∧ StartsAt s' = StartsAt s
        ∧ EndsAt s' = EndsAt s
        ∧ LastEvaluationTime s' = LastEvaluationTime s
        ∧ AlertState s' = match AlertState s with
                          | eval.Alerting => eval.Alerting
                          | eval.Normal => eval.Normal
                          | _ => eval.Error
                          end
        ∧ Resolved s' = false ∧ Image s' = None ∧ Results s' = []
        ∧ Annotations s' = ngModels.Annotations rule.
Proof.
  eexists. split; [reflexivity|]. do 4 (split; [reflexivity|]).
  intros entry rule (H1 & H2 & H3 & H4 & H5 & H6 & H7 & H8) Hid.
  cbn in H1, H2, H3, H4, H5, H6, H7, H8. cbv zeta.
  unfold stateForEntry, keyOf. cbn [AlertRuleUID OrgID CacheID Labels_ StateReason
    StartsAt EndsAt LastEvaluationTime AlertState Resolved Image Results Annotations].
  rewrite H1, H2, H3, H4, H5, H6, H7, H8, Hid.
  repeat (split; [reflexivity|]). split; [|done].
  by destruct (AlertState s).
Qed.

(** * More on [setNextState] *)

Lemma setNextState_run env d alertRule result extraLabels w :
  let got := getOrCreate d alertRule result extraLabels w in
  let l := got.1 in
  let w0 := got.2 in
  let old := heap w0 !!! l in
  let s' := nextState d alertRule result old in
  let t1 := trace w ++ [EvLog log.Debug "setting alert state"] in
  let new := withImage env d alertRule t1 old s' in
  setNextState env d alertRule result extraLabels w
  = (l, {| heap := <[l := new]> (heap w0);
           next := next w0;
           cache := cache_insert (OrgID s') (AlertRuleUID s') (CacheID s') l (cache w0);
           trace := t1 ++ imageEvents env d alertRule t1 old s'
                    ++ if annotationDue old s'
                       then [EvGoAnnotateState alertRule (Labels_ s')
                               (eval.EvaluatedAt result)
                               {| ISState := AlertState s'; ISReason := StateReason s' |}
                               {| ISState := AlertState old; ISReason := StateReason old |}]
                       else [] |}).
Proof.
  intros got l w0 old s' t1 new.
  unfold setNextState.
  erewrite run_bind; [|apply surjective_pairing]. fold got. fold l w0.
  pose proof (getOrCreate_trace d alertRule result extraLabels w) as Ht.
  fold got in Ht. fold w0 in Ht.
  subst new t1 s' old. clearbody w0 l. clear got. destruct w0 as [h n c t].
  simpl in Ht. subst t. cbn [heap next cache].
  do 5 step.
  change (<[l := _]> h) with (<[l := bookkeeping d alertRule result (h !!! l)]> h) at 1.
  assert (Hold : AlertState (bookkeeping d alertRule result (h !!! l)) = AlertState (h !!! l))
    by done.
  assert (Holdr : StateReason (bookkeeping d alertRule result (h !!! l)) = StateReason (h !!! l))
    by done.
  unfold annotationDue, withImage, imageEvents, wantsImage.
  rewrite <- Hold, <- Holdr. clear Hold Holdr.
  unfold nextState. cbv zeta.
  generalize (bookkeeping d alertRule result (h !!! l)). intros s1.
  do 2 step. rewrite run_switch.
  generalize (applyResult d alertRule result s1). intros s2.
  do 2 step. rewrite run_when_modify. step.
  change (<[l := _]> h) with (<[l := settle result (AlertState s1) s2]> h) at 1.
  generalize (settle result (AlertState s1) s2). intros s3.
  step.
  destruct (shouldTakeImage d (AlertState s3) (AlertState s1) (Image s3) (Resolved s3));
    unfold when, takeImage, set; cbn [andb].
  - step.
    destruct (TakeImage env (trace w ++ [EvLog log.Debug "setting alert state"]) alertRule)
      as [image err].
    cbn [fst snd].
    destruct (isErr err); cbn [negb]; [|destruct image as [img|]];
      repeat step; rewrite run_set; heap_norm; step; cbn [set_Image AlertState StateReason
        OrgID AlertRuleUID CacheID Labels_];
      destruct (bool_decide (AlertState s1 ≠ AlertState s3)
                || bool_decide (StateReason s1 ≠ StateReason s3));
      repeat step; by rewrite <- ?app_assoc.
  - step. rewrite run_set; heap_norm; step.
    destruct (bool_decide (AlertState s1 ≠ AlertState s3)
              || bool_decide (StateReason s1 ≠ StateReason s3));
      repeat step; by rewrite <- ?app_assoc, ?app_nil_r.
Qed.

(** X9. The events of [setNextState], in order: one debug line; then, if
    the image policy asks for an image, one request to the image service,
    followed by a warning if the request failed; then, if the state or the
    reason changed, one annotation handed to a goroutine, which carries the
    instance's labels, the evaluation time, the new state and reason, and the
    state and reason before the result. Nothing else is called. *)
Theorem setNextState_events env d alertRule result extraLabels w :
  let got := getOrCreate d alertRule result extraLabels w in
  let ran := setNextState env d alertRule result extraLabels w in
  let old := heap got.2 !!! got.1 in
  let new := heap ran.2 !!! ran.1 in
  let t1 := trace w ++ [EvLog log.Debug "setting alert state"] in
  let failed := isErr (TakeImage env t1 alertRule).2 in
  let wanted :=
    shouldTakeImage d (AlertState new) (AlertState old)
      (Image (nextState d alertRule result old)) (Resolved new) in
  trace ran.2
  = t1
    ++ (if wanted
        then EvTakeImage alertRule
             :: (if failed then [EvLog log.Warn "Failed to take an image"] else [])
        else [])
    ++ (if bool_decide (AlertState old ≠ AlertState new)
           || bool_decide (StateReason old ≠ StateReason new)
        then [EvGoAnnotateState alertRule (Labels_ new) (eval.EvaluatedAt result)
                {| ISState := AlertState new; ISReason := StateReason new |}
                {| ISState := AlertState old; ISReason := StateReason old |}]
        else []).
Proof.
  intros got ran old new t1 failed wanted.
  pose proof (setNextState_run env d alertRule result extraLabels w) as Hrun.
  cbv zeta in Hrun. fold got in Hrun. fold old in Hrun. fold t1 in Hrun.
  subst wanted new. subst ran. rewrite Hrun. cbn [fst snd heap trace].
  rewrite lookup_total_insert_eq.
  set (s' := nextState d alertRule result old).
  assert (Hsame : AlertState (withImage env d alertRule t1 old s') = AlertState s'
                  ∧ StateReason (withImage env d alertRule t1 old s') = StateReason s'
                  ∧ Resolved (withImage env d alertRule t1 old s') = Resolved s'
                  ∧ Labels_ (withImage env d alertRule t1 old s') = Labels_ s').
  { unfold withImage. destruct (_ && _); [|done]. by destruct (TakeImage env t1 alertRule).1. }
  destruct Hsame as (-> & -> & -> & ->). done.
Qed.

(** X10. The image of the instance after [setNextState]. The image is
    replaced only when the policy asked for one and the image service
    returned an image without an error; when it failed or returned no image
    the instance keeps the image it had, and the transition is otherwise the
    same: apart from the image, the instance is what the transition
    functions make of it, whatever the image service does. *)
Theorem setNextState_image env d alertRule result extraLabels w :
  let got := getOrCreate d alertRule result extraLabels w in
  let ran := setNextState env d alertRule result extraLabels w in
  let old := heap got.2 !!! got.1 in
  let new := heap ran.2 !!! ran.1 in
  let s' := nextState d alertRule result old in
  let answer := TakeImage env (trace w ++ [EvLog log.Debug "setting alert state"]) alertRule in
  sameButImage new s'
  ∧ Image new = (if wantsImage d old s' && negb (isErr answer.2)
                 then match answer.1 with
                      | Some image => Some image
                      | None => Image s'
                      end
                 else Image s')
  ∧ countEv isTakeImage (trace ran.2)
    = (countEv isTakeImage (trace w) + if wantsImage d old s' then 1 else 0)%nat.
Proof.
  intros got ran old new s' answer.
  pose proof (setNextState_run env d alertRule result extraLabels w) as Hrun.
  cbv zeta in Hrun. fold got in Hrun. fold old in Hrun. fold s' in Hrun.
  subst new ran. rewrite Hrun. cbn [fst snd heap trace].
  rewrite lookup_total_insert_eq. unfold withImage, imageEvents. fold answer.
  split; [|split].
  - destruct (_ && _); [|done]. by destruct answer.1.
  - destruct (_ && _); [|done]. by destruct answer.1.
  - rewrite !countEv_app.
    destruct (wantsImage d old s'), (isErr answer.2), (annotationDue old s');
      rewrite ?countEv_cons, ?countEv_nil; simpl; lia.
Qed.

(** X11. The collaborators cannot change the outcome of [setNextState]: with
    any two sets of collaborators it returns the same instance, leaves the
    same cache, the same other states and, the image apart, the same
    instance, and hands over the same annotation. *)
Theorem setNextState_any_collaborators env1 env2 d alertRule result extraLabels w :
  let ran1 := setNextState env1 d alertRule result extraLabels w in
  let ran2 := setNextState env2 d alertRule result extraLabels w in
  ran1.1 = ran2.1
  ∧ cache ran1.2 = cache ran2.2
  ∧ next ran1.2 = next ran2.2
  ∧ sameButImage (heap ran1.2 !!! ran1.1) (heap ran2.2 !!! ran2.1)
  ∧ (∀ l, l ≠ ran1.1 → heap ran1.2 !! l = heap ran2.2 !! l)
  ∧ List.filter isGoAnnotate (trace ran1.2) = List.filter isGoAnnotate (trace ran2.2).
Proof.
  intros ran1 ran2. subst ran1 ran2. rewrite !setNextState_run. cbn [fst snd heap cache next trace].
  set (got := getOrCreate d alertRule result extraLabels w).
  set (old := heap got.2 !!! got.1).
  set (s' := nextState d alertRule result old).
  set (t1 := trace w ++ _).
  rewrite !lookup_total_insert_eq.
  assert (Hs : ∀ env, sameButImage (withImage env d alertRule t1 old s') s').
  { intros env. unfold withImage. destruct (_ && _); [|done]. by destruct (TakeImage _ _ _).1. }
  assert (Hi : ∀ env, List.filter isGoAnnotate (imageEvents env d alertRule t1 old s') = []).
  { intros env. unfold imageEvents. destruct (wantsImage d old s'); [|done].
    by destruct (isErr _). }
  split; [done|]. split; [done|]. split; [done|].
  split; [unfold sameButImage in *; by rewrite !Hs|].
  split; [by intros l Hl; rewrite !lookup_insert_ne|].
  by rewrite !List.filter_app, !Hi.
Qed.

(** * [annotateState] *)

Lemma bind_ret_r {A} (m : M A) w : m w = (m ≫= λ a, ret a) w.
Proof. unfold mbind, M_bind. by destruct (m w). Qed.

(** X12. What [annotateState] does. It changes no state and no cache entry.
    When the rule names a dashboard and the panel id does not parse, or the
    dashboard lookup fails, nothing is saved (and with an unparsable panel id
    the dashboard is not even looked up). Otherwise exactly one annotation is
    saved; it carries the rule's id and org, the previous and the new state
    as [InstanceStateAndReason.String] prints them, the evaluation time in
    milliseconds, a text built from the rule's title, the labels without the
    private ones, and the new state, and dashboard and panel ids that are 0
    for a rule without a dashboard. *)
Theorem annotateState_outcome env d alertRule labels evaluatedAt cur prev w :
  let ran := annotateState env d alertRule labels evaluatedAt cur prev w in
  let t0 := trace w ++ [EvLog log.Debug "alert state changed creating annotation"] in
  let org := ngModels.OrgID alertRule in
  let dash := ngModels.Annotations alertRule !! DashboardUIDAnnotation d in
  let panel :=
    ParseInt d (default "" (ngModels.Annotations alertRule !! PanelIDAnnotation d)) in
  let lookup dashUid := GetDashboard env t0 dashUid org in
  let blocked :=
    match dash, panel with
    | Some dashUid, Some _ => isErr (lookup dashUid).2
    | Some _, None => true
    | None, _ => false
    end in
  heap ran.2 = heap w ∧ cache ran.2 = cache w ∧ next ran.2 = next w
  ∧ ∃ T, trace ran.2 = t0 ++ T
      ∧ eventsOf KGetDashboard T
        = match dash, panel with
          | Some dashUid, Some _ => [EvGetDashboard dashUid org]
          | _, _ => []
          end
      ∧ (blocked = true → eventsOf KAnnotationSave T = [])
      ∧ (blocked = false →
         ∃ item, eventsOf KAnnotationSave T = [EvAnnotationSave item]
           ∧ annotations.AlertId item = ngModels.ID alertRule
           ∧ annotations.OrgId item = org
           ∧ annotations.PrevState item = InstanceStateAndReason_String prev
           ∧ annotations.NewState item = InstanceStateAndReason_String cur
           ∧ annotations.Epoch item = time.UnixNano evaluatedAt `quot` time.Millisecond
           ∧ annotations.Text item
             = ngModels.Title alertRule +:+ " {"
               +:+ LabelsString d (removePrivateLabels labels) +:+ "} - "
               +:+ InstanceStateAndReason_String cur
           ∧ (annotations.DashboardId item, Some (annotations.PanelId item))
             = match dash with
               | Some dashUid => ((lookup dashUid).1, panel)
               | None => (0, Some 0)
               end).
Proof.
  intros ran t0 org dash panel lookup blocked.
  subst ran blocked lookup panel dash t0 org. destruct w as [h n c t]. cbn [trace heap cache next].
  rewrite (bind_ret_r (annotateState _ _ _ _ _ _ _)).
  unfold annotateState. cbv zeta. step.
  destruct (ngModels.Annotations alertRule !! DashboardUIDAnnotation d) as [dashUid|].
  - destruct (ParseInt d _) as [panelId|].
    + step.
      destruct (GetDashboard env
        (t ++ [EvLog log.Debug "alert state changed creating annotation"]) dashUid
        (ngModels.OrgID alertRule)) as [dashId err] eqn:E.
      cbn [fst snd]. destruct (isErr err) eqn:Eerr.
      * step. cbn. do 3 (split; [done|]). eexists. split; [by rewrite <- app_assoc|].
        split; [done|]. split; [done|]. done.
      * unfold annotationsSave, when. step.
        match goal with
        | |- context [AnnotationsSave env ?tr ?it] => destruct (isErr (AnnotationsSave env tr it))
        end; repeat step; cbn; do 3 (split; [done|]);
          (eexists; split; [by rewrite <- !app_assoc|]);
          (split; [done|]); (split; [done|]); intros _; eexists; (split; [reflexivity|]);
          done.
    + step. cbn. do 3 (split; [done|]). eexists. split; [done|].
      split; [done|]. split; [done|]. done.
  - unfold annotationsSave, when. step.
    match goal with
    | |- context [AnnotationsSave env ?tr ?it] => destruct (isErr (AnnotationsSave env tr it))
    end; repeat step; cbn; do 3 (split; [done|]);
      (eexists; split; [by rewrite <- ?app_assoc|]);
      (split; [done|]); (split; [done|]); intros _; eexists;
      (split; [reflexivity|]); done.
Qed.

(** * More on the stale sweep *)

Lemma foldM_skip {A B} (f : B → A → M B) xs :
  ∀ b w, (∀ x, x ∈ xs → f b x w = (b, w)) → foldM f b xs w = (b, w).
Proof.
  induction xs as [|x xs IH]; intros b w Hf; [done|].
  rewrite foldM_cons, (Hf x) by (by apply elem_of_cons; left). cbn [fst snd].
  apply IH. intros y Hy. apply Hf. by apply elem_of_cons; right.
Qed.

(** X13. A sweep that finds nothing to evict is a no-op. When every cached
    instance of the rule is in the batch or not stale, [staleResultsHandler]
    returns no state and leaves the states, the cache and the trace exactly
    as they were: nothing is logged and no collaborator is called. *)
Theorem staleResultsHandler_nothing_stale env d r states evaluatedAt w
    (Hfresh : ∀ cacheID l,
       cache_get (cache w) (ngModels.OrgID r) (ngModels.UID r) cacheID = Some l →
       is_Some (states !! CacheID (heap w !!! l))
       ∨ isItStale evaluatedAt (LastEvaluationTime (heap w !!! l))
           (ngModels.IntervalSeconds r) = false) :
  staleResultsHandler env d r states evaluatedAt w = ([], w).
Proof.
  rewrite staleResultsHandler_unfold. cbv zeta.
  rewrite foldM_skip; [done|].
  intros l [i Hl]%elem_of_known_states. apply staleStep_skip.
  unfold evicted. destruct (Hfresh i l Hl) as [Hin| ->].
  - by rewrite bool_decide_eq_true_2.
  - apply andb_false_r.
Qed.

Lemma staleResultsHandler_nothing_stale_witness :
  let w := Demo.firing 10 in
  staleResultsHandler Demo.quiet Demo.deps (Demo.rule 10) ∅ 19000000000 w = ([], w).
Proof.
  apply (staleResultsHandler_nothing_stale Demo.quiet Demo.deps (Demo.rule 10) ∅
           19000000000 (Demo.firing 10)).
  intros cacheID l Hl. right.
  assert (Hl' : l ∈ (map_to_list
            (cache_rule (cache (Demo.firing 10)) 1 "rule-1")).*2).
  { apply elem_of_known_states. by exists cacheID. }
  revert Hl'. generalize l. apply Forall_forall. vm_compute.
  repeat constructor.
Defined.

Lemma staleResultsHandler_exact env d r states evaluatedAt w :
  cache_wf w →
  let res := staleResultsHandler env d r states evaluatedAt w in
  let org := ngModels.OrgID r in
  let uid := ngModels.UID r in
  let known := (map_to_list (cache_rule (cache w) org uid)).*2 in
  res.1 = List.filter (λ l, resolvedBySweep r states evaluatedAt (heap w !!! l)) known
  ∧ next res.2 = next w
  ∧ (∀ o u i, cache_get (cache res.2) o u i
       = match cache_get (cache w) o u i with
         | Some l =>
             if bool_decide ((o, u) = (org, uid))
                && evicted r states evaluatedAt (heap w !!! l)
             then None else Some l
         | None => None
         end)
  ∧ (∀ l, l ∉ res.1 → heap res.2 !! l = heap w !! l)
  ∧ (∀ l, l ∈ res.1 →
       ∃ img, heap res.2 !!! l
              = set_Image img (Resolve ngModels.StateReasonMissingSeries evaluatedAt
                                 (heap w !!! l))).
Proof.
  intros Hwf res org uid known.
  pose proof (NoDup_known_states w org uid Hwf) as Hnd. fold known in Hnd.
  assert (Hkey : ∀ o u i l, cache_get (cache w) o u i = Some l →
            keyOf (heap w !!! l) = (o, u, i)).
  { intros o u i l Hl. destruct (Hwf _ _ _ _ Hl) as (<- & <- & <-). done. }
  subst res. rewrite staleResultsHandler_unfold. fold org uid known. cbv zeta.
  destruct w as [h n c t]. cbn [heap cache trace next] in *.
  destruct (sweep_loop env d r states evaluatedAt known Hnd None [] h n c t)
    as (ri' & h' & c' & T & Hrun & F1 & F2 & F3 & F4 & F5 & F6).
  rewrite Hrun. cbn [fst snd heap cache trace next]. rewrite app_nil_l.
  assert (Hres : ∀ l, l ∈ List.filter
             (λ l0, resolvedBySweep r states evaluatedAt (h !!! l0)) known
           ↔ l ∈ known ∧ resolvedBySweep r states evaluatedAt (h !!! l) = true).
  { intros l. by rewrite list_elem_of_In, List.filter_In, <- list_elem_of_In. }
  split; [done|]. split; [done|]. split; [|split].
  - intros o u i. destruct (cache_get c o u i) as [l|] eqn:Hl.
    + destruct (bool_decide ((o, u) = (org, uid))
                && evicted r states evaluatedAt (h !!! l)) eqn:Hb.
      * apply andb_true_iff in Hb as [[= -> ->]%bool_decide_eq_true He].
        apply F3. exists l. split; [|split; [done|by apply Hkey]].
        apply elem_of_known_states. by exists i.
      * rewrite F4; [done|]. intros l' [i' Hl']%elem_of_known_states He' Hk'.
        rewrite (Hkey _ _ _ _ Hl') in Hk'. injection Hk' as <- <- ->.
        fold org uid in Hl'. rewrite bool_decide_eq_true_2 in Hb by done.
        simpl in Hb. congruence.
    + rewrite F4; [done|]. intros l' [i' Hl']%elem_of_known_states He' Hk'.
      rewrite (Hkey _ _ _ _ Hl') in Hk'. injection Hk' as <- <- ->. congruence.
  - intros l Hl. apply F1. intros Hin.
    destruct (resolvedBySweep r states evaluatedAt (h !!! l)) eqn:HR; [|done].
    exfalso. apply Hl, Hres. done.
  - intros l [Hin HR]%Hres. by apply F2.
Qed.

(** X14. What the sweep leaves alone. It allocates nothing; it writes only
    to the states it returns; it removes cache entries and never adds or
    moves one; and the instances of other rules and other orgs stay
    cached. *)
Theorem staleResultsHandler_frame env d r states evaluatedAt w (Hwf : cache_wf w) :
  let res := staleResultsHandler env d r states evaluatedAt w in
  next res.2 = next w
  ∧ (∀ l, l ∉ res.1 → heap res.2 !! l = heap w !! l)
  ∧ (∀ o u i l, cache_get (cache res.2) o u i = Some l →
       cache_get (cache w) o u i = Some l)
  ∧ (∀ o u i, (o, u) ≠ (ngModels.OrgID r, ngModels.UID r) →
       cache_get (cache res.2) o u i = cache_get (cache w) o u i).
Proof.
  intros res.
  destruct (staleResultsHandler_exact env d r states evaluatedAt w Hwf)
    as (_ & Hn & Hc & Hh & _). fold res in Hn, Hc, Hh.
  split; [done|]. split; [done|]. split.
  - intros o u i l. rewrite Hc. destruct (cache_get (cache w) o u i); [|done].
    by destruct (_ && _).
  - intros o u i Hne. rewrite Hc. destruct (cache_get (cache w) o u i); [|done].
    by rewrite bool_decide_eq_false_2.
Qed.

Lemma staleResultsHandler_frame_witness :
  let w := Demo.firing 10 in
  let res := staleResultsHandler Demo.quiet Demo.deps (Demo.rule 10) ∅ 25000000000 w in
  cache_wf w ∧ next res.2 = next w.
Proof.
  assert (Hwf : cache_wf (Demo.firing 10)).
  { apply cache_wfb_sound. vm_compute. reflexivity. }
  destruct (staleResultsHandler_frame Demo.quiet Demo.deps (Demo.rule 10) ∅
              25000000000 (Demo.firing 10) Hwf) as (Hn & _).
  exact (conj Hwf Hn).
Defined.

(** X15. The collaborators cannot change what the sweep evicts or resolves.
    With any two sets of collaborators (instance store, image service,
    dashboard service, annotation repository), failing or not, the sweep
    returns the same states, leaves the same cache, and leaves the same
    states, the image of the resolved ones apart. *)
Theorem staleResultsHandler_any_collaborators env1 env2 d r states evaluatedAt w
    (Hwf : cache_wf w) :
  let res1 := staleResultsHandler env1 d r states evaluatedAt w in
  let res2 := staleResultsHandler env2 d r states evaluatedAt w in
  res1.1 = res2.1
  ∧ (∀ o u i, cache_get (cache res1.2) o u i = cache_get (cache res2.2) o u i)
  ∧ (∀ l, sameButImage (heap res1.2 !!! l) (heap res2.2 !!! l)).
Proof.
  intros res1 res2.
  destruct (staleResultsHandler_exact env1 d r states evaluatedAt w Hwf)
    as (Hr1 & _ & Hc1 & Hh1 & Hi1).
  destruct (staleResultsHandler_exact env2 d r states evaluatedAt w Hwf)
    as (Hr2 & _ & Hc2 & Hh2 & Hi2).
  fold res1 in Hr1, Hc1, Hh1, Hi1. fold res2 in Hr2, Hc2, Hh2, Hi2.
  assert (Hr : res1.1 = res2.1) by by rewrite Hr1, Hr2.
  split; [done|]. split; [by intros; rewrite Hc1, Hc2|].
  intros l. destruct (decide (l ∈ res1.1)) as [Hin|Hin].
  - destruct (Hi1 l Hin) as [i1 ->]. rewrite Hr in Hin. destruct (Hi2 l Hin) as [i2 ->].
    done.
  - rewrite (lookup_total_eq _ _ _ (Hh1 l Hin)). rewrite Hr in Hin.
    by rewrite (lookup_total_eq _ _ _ (Hh2 l Hin)).
Qed.

Lemma staleResultsHandler_any_collaborators_witness :
  let w := Demo.firing 10 in
  let res1 := staleResultsHandler Demo.quiet Demo.deps (Demo.rule 10) ∅ 25000000000 w in
  let res2 := staleResultsHandler Demo.flaky Demo.deps (Demo.rule 10) ∅ 25000000000 w in
  cache_wf w ∧ res1.1 = res2.1.
Proof.
  assert (Hwf : cache_wf (Demo.firing 10)).
  { apply cache_wfb_sound. vm_compute. reflexivity. }
  destruct (staleResultsHandler_any_collaborators Demo.quiet Demo.flaky Demo.deps
              (Demo.rule 10) ∅ 25000000000 (Demo.firing 10) Hwf) as (Hr & _).
  exact (conj Hwf Hr).
Defined.

(** X16. What the sweep never does. [staleResultsHandler] talks only to the
    logger, the instance store's [DeleteAlertInstance], the image service,
    the dashboard service and the annotation repository: it fetches no org
    ids, lists no rules and no instances, saves no instance, deletes no whole
    rule, and hands no annotation to a goroutine (it annotates in line). *)
Theorem staleResultsHandler_effects env d r states evaluatedAt w :
  let res := staleResultsHandler env d r states evaluatedAt w in
  Forall (λ k, eventsOf k (trace res.2) = eventsOf k (trace w))
    [KFetchOrgIds; KListAlertRules; KListAlertInstances; KSaveAlertInstance;
     KDeleteAlertInstancesByRule; KGoAnnotateState].
Proof.
  pose proof (staleResultsHandler_emits env d r states evaluatedAt) as He.
  cbv zeta.
  repeat (apply Forall_cons; split; [apply (emits_eventsOf _ _ _ w He); reflexivity|]).
  by apply Forall_nil.
Qed.

(** * More on [ProcessEvalResults] *)

Lemma processResult_run env d alertRule extraLabels sts pr result w :
  processResult env d alertRule extraLabels (sts, pr) result w
  = let ran := setNextState env d alertRule result extraLabels w in
    ((sts ++ [ran.1], <[CacheID (heap ran.2 !!! ran.1) := ran.1]> pr), ran.2).
Proof.
  unfold processResult. erewrite run_bind; [|apply surjective_pairing].
  by rewrite run_deref.
Qed.

Lemma processResults_length env d alertRule extraLabels results :
  ∀ acc w,
  length (foldM (processResult env d alertRule extraLabels) acc results w).1.1
  = (length acc.1 + length results)%nat.
Proof.
  induction results as [|result results IH]; intros [sts pr] w; [simpl; lia|].
  rewrite foldM_cons, processResult_run. cbv zeta. cbn [fst snd].
  rewrite IH. cbn [fst]. rewrite length_app. simpl. lia.
Qed.



Lemma getOrCreate_frame d alertRule result extraLabels w :
  manager_inv w →
  let got := getOrCreate d alertRule result extraLabels w in
  ∀ o u i l, cache_get (cache w) o u i = Some l →
    cache_get (cache got.2) o u i = Some l ∧ heap got.2 !!! l = heap w !!! l.
Proof.
  intros [Hwf Hn]. unfold getOrCreate, cache_.getOrCreate. cbv zeta.
  destruct (cache_get _ _ _ _) as [l0|] eqn:E; [done|].
  destruct w as [h n c t]. do 2 step. unfold ret, mret, M_ret. cbn [fst snd heap cache] in *.
  intros o u i l Hl. rewrite cache_get_insert. split.
  - case_decide as Hd; [|done]. injection Hd as <- <- <-. congruence.
  - apply lookup_total_insert_ne. specialize (Hn _ _ _ _ Hl). cbn in Hn. lia.
Qed.

Lemma withImage_keyOf env d alertRule tr old s :
  keyOf (withImage env d alertRule tr old s) = keyOf s.
Proof.
  unfold withImage. destruct (_ && _); [|done]. by destruct (TakeImage _ _ _).1.
Qed.

Section Updated.
Variable env : Env.
Variable d : Deps.
Variable alertRule : ngModels.AlertRule.
Variable extraLabels : Labels.
Hypothesis Hd : IdentityPreserving d.

Local Abbreviation org := (ngModels.OrgID alertRule).
Local Abbreviation uid := (ngModels.UID alertRule).

(** What the first loop of [ProcessEvalResults] maintains: the states
    updated so far belong to the rule, are cached under their cache id, and
    are recorded in the map of processed results. *)
Lemma processResult_updated sts pr result w :
  manager_inv w →
  (∀ l, l ∈ sts →
     OrgID (heap w !!! l) = org ∧ AlertRuleUID (heap w !!! l) = uid
     ∧ cache_get (cache w) org uid (CacheID (heap w !!! l)) = Some l
     ∧ is_Some (pr !! CacheID (heap w !!! l))) →
  let res := processResult env d alertRule extraLabels (sts, pr) result w in
  manager_inv res.2
  ∧ ∀ l, l ∈ res.1.1 →
      OrgID (heap res.2 !!! l) = org ∧ AlertRuleUID (heap res.2 !!! l) = uid
      ∧ cache_get (cache res.2) org uid (CacheID (heap res.2 !!! l)) = Some l
      ∧ is_Some (res.1.2 !! CacheID (heap res.2 !!! l)).
Proof.
  intros Hw Hall res. subst res. rewrite processResult_run. cbv zeta. cbn [fst snd].
  split; [by apply setNextState_inv|].
  destruct (getOrCreate_inv d alertRule result extraLabels w Hw) as [[Hwf0 Hn0] [i Hi]].
  pose proof (getOrCreate_frame d alertRule result extraLabels w Hw) as Hfr.
  rewrite setNextState_run. cbn [fst snd heap cache].
  set (got := getOrCreate d alertRule result extraLabels w) in *.
  set (old := heap got.2 !!! got.1).
  set (s' := nextState d alertRule result old).
  set (new := withImage env d alertRule _ old s').
  assert (Hk0 : keyOf old = (org, uid, i)).
  { unfold keyOf, old. by destruct (Hwf0 _ _ _ _ Hi) as (-> & -> & ->). }
  assert (Hks : keyOf s' = (org, uid, i)).
  { unfold s'. by rewrite nextState_keyOf. }
  assert (Hkn : keyOf new = (org, uid, i)).
  { unfold new. by rewrite withImage_keyOf. }
  destruct (keyOf_inv _ _ _ _ Hks) as (-> & -> & Hsi).
  destruct (keyOf_inv _ _ _ _ Hkn) as (Hno & Hnu & Hni). rewrite Hsi.
  assert (Hnew : OrgID new = org ∧ AlertRuleUID new = uid
                 ∧ cache_get (cache_insert org uid i got.1 (cache got.2))
                     org uid (CacheID new) = Some got.1
                 ∧ is_Some (<[CacheID new := got.1]> pr !! CacheID new)).
  { split; [done|]. split; [done|]. split.
    - rewrite cache_get_insert, Hni. by rewrite decide_True.
    - rewrite lookup_insert_eq. by eexists. }
  intros l Hl. destruct (decide (l = got.1)) as [->|Hne].
  { by rewrite lookup_total_insert_eq. }
  apply elem_of_app in Hl as [Hl|Hl%list_elem_of_singleton]; [|done].
  rewrite !lookup_total_insert_eq, lookup_total_insert_ne by done.
  destruct (Hall l Hl) as (Ho & Hu & Hc & Hp).
  destruct (Hfr _ _ _ _ Hc) as [Hc0 Hh0]. fold got in Hc0, Hh0. rewrite Hh0.
  split; [done|]. split; [done|]. split.
  - rewrite cache_get_insert. case_decide as Hdec; [|done].
    injection Hdec as Hdec. rewrite <- Hdec in Hc0. congruence.
  - rewrite lookup_insert_is_Some. destruct (decide (CacheID new = CacheID (heap w !!! l)));
      [by left|by right].
Qed.

Lemma processResults_updated results :
  ∀ sts pr w,
  manager_inv w →
  (∀ l, l ∈ sts →
     OrgID (heap w !!! l) = org ∧ AlertRuleUID (heap w !!! l) = uid
     ∧ cache_get (cache w) org uid (CacheID (heap w !!! l)) = Some l
     ∧ is_Some (pr !! CacheID (heap w !!! l))) →
  let res := foldM (processResult env d alertRule extraLabels) (sts, pr) results w in
  manager_inv res.2
  ∧ ∀ l, l ∈ res.1.1 →
      OrgID (heap res.2 !!! l) = org ∧ AlertRuleUID (heap res.2 !!! l) = uid
      ∧ cache_get (cache res.2) org uid (CacheID (heap res.2 !!! l)) = Some l
      ∧ is_Some (res.1.2 !! CacheID (heap res.2 !!! l)).
Proof.
  induction results as [|result results IH]; intros sts pr w Hw Hall; [done|].
  cbv zeta. rewrite foldM_cons.
  destruct (processResult_updated sts pr result w Hw Hall) as [Hw1 Hall1].
  destruct (processResult env d alertRule extraLabels (sts, pr) result w) as [[sts1 pr1] w1].
  by apply IH.
Qed.

End Updated.

(** X18. An instance that got a result in this call survives the call's
    sweep. The first [len(results)] returned states are the updated ones;
    each of them belongs to the rule, is still cached under its cache id when
    the call ends, and is not among the resolved states that follow, however
    old its evaluation time is. *)
Theorem ProcessEvalResults_keeps_updated env d evaluatedAt alertRule results extraLabels w
    (Hd : IdentityPreserving d) (Hw : manager_inv w) :
  let res := ProcessEvalResults env d evaluatedAt alertRule results extraLabels w in
  let updated := take (length results) res.1 in
  let resolved := drop (length results) res.1 in
  ∀ l, l ∈ updated →
    let s := heap res.2 !!! l in
    OrgID s = ngModels.OrgID alertRule
    ∧ AlertRuleUID s = ngModels.UID alertRule
    ∧ cache_get (cache res.2) (ngModels.OrgID alertRule) (ngModels.UID alertRule)
        (CacheID s) = Some l
    ∧ l ∉ resolved.
Proof.
  intros res updated resolved.
  destruct (ProcessEvalResults_run env d evaluatedAt alertRule results extraLabels w)
    as (Hres & Hh & Hc & _).
  fold res in Hres, Hh, Hc. cbv zeta in Hres, Hh, Hc.
  set (w0 := (logf log.Debug "state manager processing evaluation results" w).2) in *.
  set (r1 := foldM (processResult env d alertRule extraLabels) ([], ∅) results w0) in *.
  set (r2 := staleResultsHandler env d alertRule r1.1.2 evaluatedAt r1.2) in *.
  assert (Hlen : length r1.1.1 = length results).
  { subst r1. by rewrite processResults_length. }
  subst updated resolved. rewrite Hres, take_app_length', drop_app_length' by done.
  assert (Hw0 : manager_inv w0) by by destruct w.
  destruct (processResults_updated env d alertRule extraLabels Hd results [] ∅ w0 Hw0)
    as [Hw1 Hall]; [by intros l ?%elem_of_nil|].
  fold r1 in Hw1, Hall.
  destruct (staleResultsHandler_exact env d alertRule r1.1.2 evaluatedAt r1.2 (proj1 Hw1))
    as (Hr2 & _ & Hc2 & Hh2 & _).
  fold r2 in Hr2, Hc2, Hh2.
  intros l Hl. destruct (Hall l Hl) as (Ho & Hu & Hcl & Hp).
  assert (Hev : evicted alertRule r1.1.2 evaluatedAt (heap r1.2 !!! l) = false).
  { unfold evicted. by rewrite bool_decide_eq_true_2. }
  assert (Hnot : l ∉ r2.1).
  { rewrite Hr2. intros [_ HR]%list_elem_of_In%List.filter_In.
    unfold resolvedBySweep in HR. by rewrite Hev in HR. }
  cbv zeta. rewrite Hh, Hc, (lookup_total_eq _ _ _ (Hh2 l Hnot)).
  split; [done|]. split; [done|]. split; [|done].
  by rewrite Hc2, Hcl, Hev, andb_false_r.
Qed.

Lemma ProcessEvalResults_keeps_updated_witness :
  let res := ProcessEvalResults Demo.quiet Demo.deps 100000000000 (Demo.rule 10)
               [Demo.result "a" eval.Alerting 0] ∅ Demo.empty in
  (IdentityPreserving Demo.deps ∧ manager_inv Demo.empty ∧ 0%nat ∈ take 1 res.1)
  ∧ cache_get (cache res.2) 1 "rule-1" (CacheID (heap res.2 !!! 0%nat)) = Some 0%nat.
Proof.
  assert (Hin : 0%nat ∈ take 1
            (ProcessEvalResults Demo.quiet Demo.deps 100000000000 (Demo.rule 10)
               [Demo.result "a" eval.Alerting 0] ∅ Demo.empty).1).
  { replace (ProcessEvalResults _ _ _ _ _ _ _).1 with [0%nat] by (vm_compute; reflexivity).
    apply list_elem_of_here. }
  destruct (ProcessEvalResults_keeps_updated Demo.quiet Demo.deps 100000000000 (Demo.rule 10)
              [Demo.result "a" eval.Alerting 0] ∅ Demo.empty Demo_identity_preserving
              (empty_inv _ _ _) 0%nat Hin) as (_ & _ & Hc & _).
  exact (conj (conj Demo_identity_preserving (conj (empty_inv _ _ _) Hin)) Hc).
Defined.

(** X19. What [ProcessEvalResults] never does. It talks to the logger, the
    image service, the annotation goroutine, the dashboard service, the
    annotation repository, and the instance store's [DeleteAlertInstance] and
    [SaveAlertInstance]; it never fetches org ids, lists rules or instances,
    or deletes the instances of a whole rule. *)
Theorem ProcessEvalResults_effects env d evaluatedAt alertRule results extraLabels w :
  let res := ProcessEvalResults env d evaluatedAt alertRule results extraLabels w in
  Forall (λ k, eventsOf k (trace res.2) = eventsOf k (trace w))
    [KFetchOrgIds; KListAlertRules; KListAlertInstances; KDeleteAlertInstancesByRule].
Proof.
  pose proof (ProcessEvalResults_emits env d evaluatedAt alertRule results extraLabels) as He.
  cbv zeta.
  repeat (apply Forall_cons; split; [apply (emits_eventsOf _ _ _ w He); reflexivity|]).
  by apply Forall_nil.
Qed.

(** * More on [ResetStateByRuleUID] *)

Lemma ResetStateByRuleUID_exact env ruleKey h n c t :
  let org := ngModels.KeyOrgID ruleKey in
  let uid := ngModels.KeyUID ruleKey in
  let states := (map_to_list (cache_rule c org uid)).*2 in
  let t1 := t ++ [EvLog log.Debug "resetting state of the rule"] in
  ResetStateByRuleUID env ruleKey {| heap := h; next := n; cache := c; trace := t |}
  = (states,
     {| heap := h; next := n; cache := cache_delete_rule org uid c;
        trace := t1
          ++ (if bool_decide (0 < length states)%nat
              then EvDeleteAlertInstancesByRule ruleKey
                   :: (if isErr (DeleteAlertInstancesByRule env t1 ruleKey)
                       then [EvLog log.Error
                               "failed to delete states that belong to a rule from database"]
                       else [])
              else [])
          ++ [EvLog log.Info "rules state was reset"] |}).
Proof.
  intros org uid states t1.
  rewrite (bind_ret_r (ResetStateByRuleUID _ _)).
  unfold ResetStateByRuleUID, cache_.removeByRuleUID, when.
  step. rewrite !run_assoc, run_getStatesForRuleUID. cbn [cache]. fold org uid states.
  do 2 step. fold t1.
  destruct (bool_decide (0 < length states)%nat).
  - step. destruct (isErr (DeleteAlertInstancesByRule env t1 ruleKey)) eqn:E;
      repeat step; by rewrite <- ?app_assoc.
  - repeat step. done.
Qed.

(** X20. The store call of [ResetStateByRuleUID]. The instance store's
    [DeleteAlertInstancesByRule] is called exactly once, with the rule key,
    when the rule had cached states, and not at all when it had none; no
    other collaborator is called, and no state is written to. *)
Theorem ResetStateByRuleUID_store_call env ruleKey w :
  let res := ResetStateByRuleUID env ruleKey w in
  calls (trace res.2)
  = calls (trace w)
    ++ (if bool_decide (res.1 = []) then [] else [EvDeleteAlertInstancesByRule ruleKey])
  ∧ heap res.2 = heap w
  ∧ next res.2 = next w.
Proof.
  destruct w as [h n c t]. cbv zeta. rewrite ResetStateByRuleUID_exact.
  cbn [fst snd heap next trace]. split; [|done].
  destruct ((map_to_list _).*2) as [|l ls]; cbn [length].
  - rewrite bool_decide_eq_false_2 by lia. rewrite bool_decide_eq_true_2 by done.
    rewrite !calls_app. cbn. by rewrite !app_nil_r.
  - rewrite bool_decide_eq_true_2 by lia. rewrite bool_decide_eq_false_2 by done.
    rewrite !calls_app. destruct (isErr _); cbn; by rewrite !app_nil_r.
Qed.

(** X21. Resetting a rule twice. The second [ResetStateByRuleUID] for the
    same rule finds nothing: it returns no state, does not call the instance
    store, and leaves the cache as the first call left it. *)
Theorem ResetStateByRuleUID_twice env ruleKey w :
  let res1 := ResetStateByRuleUID env ruleKey w in
  let res2 := ResetStateByRuleUID env ruleKey res1.2 in
  res2.1 = []
  ∧ calls (trace res2.2) = calls (trace res1.2)
  ∧ heap res2.2 = heap w
  ∧ ∀ o u i, cache_get (cache res2.2) o u i = cache_get (cache res1.2) o u i.
Proof.
  destruct w as [h n c t]. cbv zeta. rewrite ResetStateByRuleUID_exact.
  cbn [fst snd]. rewrite ResetStateByRuleUID_exact. cbn [fst snd heap next trace cache].
  set (org := ngModels.KeyOrgID ruleKey). set (uid := ngModels.KeyUID ruleKey).
  assert (Hempty : (map_to_list (cache_rule (cache_delete_rule org uid c) org uid)).*2 = []).
  { destruct (_.*2) as [|l ls] eqn:E; [done|].
    assert (Hl : l ∈ (map_to_list (cache_rule (cache_delete_rule org uid c) org uid)).*2).
    { rewrite E. by apply elem_of_cons; left. }
    apply elem_of_known_states in Hl as [i Hi].
    rewrite cache_get_delete_rule in Hi. by rewrite decide_True in Hi. }
  rewrite Hempty. split; [done|]. split; [|split; [done|]].
  - cbn [length]. rewrite (bool_decide_eq_false_2 (0 < 0)%nat) by lia.
    cbn [app]. rewrite !(calls_app _ [_]). cbn. by rewrite !app_nil_r.
  - intros o u i. rewrite !cache_get_delete_rule. by case_decide.
Qed.

(** * The invariant of the manager *)

Lemma Put_inv states w :
  manager_inv w → (∀ l, l ∈ states → (l < next w)%nat) → manager_inv (Put states w).2.
Proof.
  intros [Hwf Hn] Hst. unfold Put.
  destruct (forM_set_cache states w) as (Hh & Hnext & Hc). cbv zeta in Hh, Hnext, Hc.
  split; intros o u i l Hl; apply Hc in Hl as [Hl|[Hin Hk]].
  - rewrite Hh. by apply Hwf.
  - rewrite Hh. by apply keyOf_inv.
  - rewrite Hnext. by eapply Hn.
  - rewrite Hnext. by apply Hst.
Qed.

(** X22. The invariant of the cache. In every world the manager can reach
    from a new manager by [Warm], [ProcessEvalResults],
    [ResetStateByRuleUID], [ResetAllStates] and [Put], every cached instance
    is filed under its own org id, rule uid and cache id, and points to an
    allocated state (provided the transition functions of state.go leave the
    identity of an instance alone). *)
Theorem reachable_inv env d w (Hd : IdentityPreserving d) :
  reachable env d w → manager_inv w.
Proof.
  induction 1 as [h n t|w _ _|w ev rule results extra _ IH|w key _ IH|w _ _|w states _ IH Hst].
  - apply empty_inv.
  - apply Warm_inv.
  - by apply ProcessEvalResults_inv.
  - by apply ResetStateByRuleUID_inv.
  - destruct w. apply empty_inv.
  - by apply Put_inv.
Qed.

Lemma reachable_inv_witness :
  IdentityPreserving Demo.deps
  ∧ reachable Demo.quiet Demo.deps (Demo.firing 10)
  ∧ manager_inv (Demo.firing 10).
Proof.
  assert (Hr : reachable Demo.quiet Demo.deps (Demo.firing 10)).
  { apply reach_ProcessEvalResults. apply reach_NewManager. }
  split; [exact Demo_identity_preserving|]. split; [exact Hr|].
  exact (reachable_inv Demo.quiet Demo.deps (Demo.firing 10) Demo_identity_preserving Hr).
Defined.

(** * The rules of a persisted instance *)

Lemma indexRules_last rules uid :
  indexRules rules !! uid
  = last (List.filter (λ rule, bool_decide (ngModels.UID rule = uid)) rules).
Proof.
  unfold indexRules. induction rules as [|rule rules IH] using rev_ind; [done|].
  rewrite foldl_app, List.filter_app, last_app. cbn [foldl List.filter].
  case_bool_decide as Hu.
  - by rewrite Hu, lookup_insert_eq.
  - rewrite lookup_insert_ne by done. by rewrite IH.
Qed.

(** X30. One persisted instance in the inner loop of [Warm]. If the rule
    store listed rules with the instance's rule uid, exactly one state is
    allocated for the instance and appended to the states to file, built from
    the instance and from the last such rule listed (its annotations), also
    when the cache id of the labels could not be computed (the error is
    only logged); if it listed none, nothing is allocated or appended. The
    cache is not touched in either case. *)
Theorem warmEntry_last_rule d rules states entry w :
  let res := warmEntry d (indexRules rules) states entry w in
  cache res.2 = cache w
  ∧ match last (List.filter
                  (λ rule, bool_decide (ngModels.UID rule = ngModels.RuleUID entry))
                  rules) with
    | Some rule =>
        res.1 = states ++ [next w]
        ∧ next res.2 = S (next w)
        ∧ heap res.2
          = <[next w := stateForEntry entry rule
                          (StringKey d (ngModels.InstLabels entry)).1]> (heap w)
    | None => res.1 = states ∧ next res.2 = next w ∧ heap res.2 = heap w
    end.
Proof.
  cbv zeta. unfold warmEntry. rewrite indexRules_last.
  destruct (last _) as [rule|]; destruct w as [h n c t].
  - destruct (StringKey d (ngModels.InstLabels entry)) as [cacheID err].
    unfold when. by destruct (isErr err).
  - done.
Qed.


(** * The images of a sweep, by the answers of the image service *)

Lemma imageAnswers_app env pre T1 T2 :
  imageAnswers env pre (T1 ++ T2)
  = imageAnswers env pre T1 ++ imageAnswers env (pre ++ T1) T2.
Proof.
  revert pre. induction T1 as [|e T1 IH]; intros pre; simpl.
  - by rewrite app_nil_r.
  - rewrite IH, <- !app_assoc. done.
Qed.

Lemma imageAnswers_none env pre T :
  countEv isTakeImage T = 0%nat → imageAnswers env pre T = [].
Proof.
  revert pre. induction T as [|e T IH]; intros pre; [done|].
  rewrite countEv_cons. intros H. simpl. rewrite IH by lia.
  destruct e; simpl in *; first [done|lia].
Qed.

Lemma imageAnswers_length env pre T :
  length (imageAnswers env pre T) = countEv isTakeImage T.
Proof.
  revert pre. induction T as [|e T IH]; intros pre; [done|].
  rewrite countEv_cons. simpl. rewrite length_app, IH. by destruct e.
Qed.


(** The lazy request of the sweep: asked only while no image has been
    obtained. *)
Lemma run_resolvedImage env r (ri : option ngModels.Image) h n c t :
  ∃ Ti ri',
    (∀ B (k : option ngModels.Image → M B),
       (match ri with
        | None =>
            '(image, err) ← takeImage env r;
            if isErr err then logf log.Warn "Failed to take an image" ;; ret ri
            else match image with
                 | Some _ => ret image
                 | None => ret ri
                 end
        | Some _ => ret ri
        end ≫= k) {| heap := h; next := n; cache := c; trace := t |}
       = k ri' {| heap := h; next := n; cache := c; trace := t ++ Ti |})
    ∧ if bool_decide (ri = None)
      then ∃ answer, imageAnswers env t Ti = [answer]
             ∧ ri' = if givesImage answer then answer.1 else None
      else Ti = [] ∧ ri' = ri.
Proof.
  destruct ri as [i|].
  - exists [], (Some i). split; [|done]. intros. step. by rewrite app_nil_r.
  - unfold takeImage.
    destruct (TakeImage env t r) as [image ierr] eqn:Eans.
    destruct (isErr ierr) eqn:Eerr; [|destruct image as [img|]].
    + exists [EvTakeImage r; EvLog log.Warn "Failed to take an image"], None.
      split; [intros; step; rewrite Eans, Eerr; do 2 step; by rewrite <- app_assoc|].
      eexists. split; [simpl; by rewrite Eans|]. unfold givesImage. simpl. by rewrite Eerr.
    + exists [EvTakeImage r], (Some img).
      split; [intros; step; rewrite Eans, Eerr; by step|].
      eexists. split; [simpl; by rewrite Eans|]. unfold givesImage. simpl. by rewrite Eerr.
    + exists [EvTakeImage r], None.
      split; [intros; step; rewrite Eans, Eerr; by step|].
      eexists. split; [simpl; by rewrite Eans|]. unfold givesImage. simpl. by rewrite Eerr.
Qed.

(** One evicted instance: the image service is asked exactly when the
    instance was Alerting and no image has been obtained, and the image kept
    for the rest of the sweep is the one it gave, if it gave one. *)
Lemma staleStep_answers env d r states ev ri rs sp h n c t :
  let s := h !!! sp in
  let alerting := bool_decide (AlertState s = eval.Alerting) in
  evicted r states ev s = true →
  ∃ T ri',
    staleStep env d r states ev (ri, rs) sp
      {| heap := h; next := n; cache := c; trace := t |}
    = ((ri', if alerting then rs ++ [sp] else rs),
       {| heap := if alerting
                  then <[sp := set_Image ri'
                                 (Resolve ngModels.StateReasonMissingSeries ev s)]> h
                  else h;
          next := n;
          cache := cache_delete (OrgID s) (AlertRuleUID s) (CacheID s) c;
          trace := t ++ T |})
    ∧ if alerting && bool_decide (ri = None)
      then ∃ answer, imageAnswers env t T = [answer]
             ∧ ri' = if givesImage answer then answer.1 else None
      else imageAnswers env t T = [] ∧ ri' = ri.
Proof.
  intros s alerting H.
  rewrite (bind_ret_r (staleStep _ _ _ _ _ _ _)).
  unfold staleStep.
  rewrite run_assoc, run_deref. cbn [heap]. cbv zeta. unfold evicted in H. fold s. rewrite H.
  unfold cache_.deleteEntry, when.
  do 2 step.
  destruct (StringAndHash d (Labels_ s)) as [[str hash] herr] eqn:ESH.
  assert (Hgen : ∀ P : list Event, countEv isTakeImage P = 0%nat →
    ∃ T ri',
      ((if alerting
        then
          modify sp (Resolve ngModels.StateReasonMissingSeries ev) ;;
          s0 ← deref sp;
          annotateState env d r (Labels_ s0) ev
            {| ISState := eval.Normal; ISReason := StateReason s0 |}
            {| ISState := AlertState s; ISReason := StateReason s |} ;;
          resolvedImage ←
            match ri with
            | None =>
                '(image, err) ← takeImage env r;
                if isErr err then logf log.Warn "Failed to take an image" ;; ret ri
                else match image with
                     | Some _ => ret image
                     | None => ret ri
                     end
            | Some _ => ret ri
            end;
          modify sp (set_Image resolvedImage) ;;
          ret (resolvedImage, rs ++ [sp])
        else ret (ri, rs)) ≫= λ a, ret a)
        {| heap := h; next := n;
           cache := cache_delete (OrgID s) (AlertRuleUID s) (CacheID s) c;
           trace := t ++ P |}
      = ((ri', if alerting then rs ++ [sp] else rs),
         {| heap := if alerting
                    then <[sp := set_Image ri'
                                   (Resolve ngModels.StateReasonMissingSeries ev s)]> h
                    else h;
            next := n;
            cache := cache_delete (OrgID s) (AlertRuleUID s) (CacheID s) c;
            trace := t ++ T |})
      ∧ if alerting && bool_decide (ri = None)
        then ∃ answer, imageAnswers env t T = [answer]
               ∧ ri' = if givesImage answer then answer.1 else None
        else imageAnswers env t T = [] ∧ ri' = ri).
  { intros P HP. destruct alerting.
    - do 2 step.
      edestruct (annotateState_run env d r) as (Ta & HTa1 & _ & Hrun).
      rewrite ?run_assoc, Hrun. clear Hrun.
      edestruct (run_resolvedImage env r ri) as (Ti & ri' & Hrun & Hans).
      rewrite ?run_assoc, Hrun. clear Hrun. do 2 step.
      exists (P ++ Ta ++ Ti), ri'. split; [by rewrite <- !app_assoc|].
      cbn [andb].
      assert (Hpre : ∀ X, imageAnswers env t (P ++ Ta ++ X)
                          = imageAnswers env ((t ++ P) ++ Ta) X).
      { intros X. rewrite imageAnswers_app, (imageAnswers_none _ _ P) by done.
        rewrite imageAnswers_app, (imageAnswers_none _ _ Ta) by done. done. }
      rewrite Hpre. revert Hans. destruct (bool_decide (ri = None)); [by intros Hx|].
      intros [-> ->]. done.
    - step. exists P, ri. split; [done|]. split; [by apply imageAnswers_none|done]. }
  case_if; step; step; case_if; repeat step.
  all: rewrite <- ?app_assoc; cbn [app].
  all: match goal with
       | |- context [{| trace := _ ++ ?P |}] =>
           destruct (Hgen P) as (T & ri' & Hrun & Hans); [done|]
       end.
  all: exists T, ri'; split; [|exact Hans].
  all: first [exact Hrun | rewrite <- Hrun; reflexivity | idtac].
Qed.

Section SweepAnswers.
Variable env : Env.
Variable d : Deps.
Variable r : ngModels.AlertRule.
Variable states : gmap string loc.
Variable ev : Time.

Local Abbreviation E := (evicted r states ev).
Local Abbreviation R := (resolvedBySweep r states ev).

Lemma sweep_answers ls :
  NoDup ls → ∀ ri rs h n c t,
  let res := foldM (staleStep env d r states ev) (ri, rs) ls
               {| heap := h; next := n; cache := c; trace := t |} in
  let resolved := List.filter (λ l, R (h !!! l)) ls in
  let imgs := (λ l, Image (heap res.2 !!! l)) <$> resolved in
  ∃ T, trace res.2 = t ++ T
    ∧ match ri with
      | Some i => imageAnswers env t T = []
                  ∧ imgs = replicate (length resolved) (Some i)
      | None => served (imageAnswers env t T) imgs
      end.
Proof.
  induction ls as [|sp ls IH]; intros Hnd ri rs h n c t.
  { simpl. exists []. rewrite app_nil_r. split; [done|].
    destruct ri; [done|]. constructor. }
  apply NoDup_cons in Hnd as [Hsp Hnd].
  cbv zeta. rewrite foldM_cons.
  destruct (E (h !!! sp)) eqn:HE.
  - destruct (staleStep_answers env d r states ev ri rs sp h n c t HE)
      as (T1 & ri1 & Hrun & Hans).
    rewrite Hrun. cbn [fst snd]. clear Hrun.
    set (a := bool_decide (AlertState (h !!! sp) = eval.Alerting)) in *.
    set (x := set_Image ri1 (Resolve ngModels.StateReasonMissingSeries ev (h !!! sp))) in *.
    set (h1 := if a then <[sp := x]> h else h).
    assert (HR : R (h !!! sp) = a).
    { unfold resolvedBySweep. by rewrite HE. }
    assert (Hfr : ∀ l, l ∈ ls → h1 !!! l = h !!! l).
    { intros l Hl. apply heap_step_frame. intros ->. done. }
    specialize (IH Hnd ri1 (if a then rs ++ [sp] else rs) h1 n
                (cache_delete (OrgID (h !!! sp)) (AlertRuleUID (h !!! sp))
                   (CacheID (h !!! sp)) c) (t ++ T1)).
    cbv zeta in IH.
    destruct (sweep_loop env d r states ev ls Hnd ri1 (if a then rs ++ [sp] else rs) h1 n
                (cache_delete (OrgID (h !!! sp)) (AlertRuleUID (h !!! sp))
                   (CacheID (h !!! sp)) c) (t ++ T1))
      as (ri' & h' & c' & T2 & Hrun & F1 & _).
    rewrite Hrun in IH |- *. cbn [fst snd heap trace] in IH |- *.
    rewrite (filter_heap_ext R h1 h ls) in IH by done.
    destruct IH as (T2' & HT2 & IH).
    apply app_inv_head in HT2. subst T2'.
    exists (T1 ++ T2). split; [by rewrite app_assoc|].
    rewrite imageAnswers_app.
    simpl. rewrite HR. destruct a eqn:Ea.
    + (* resolved here *)
      assert (Hsp' : h' !!! sp = x).
      { rewrite (lookup_total_eq h' h1 sp); [by subst h1; rewrite lookup_total_insert_eq|].
        apply F1. intros Hin. done. }
      rewrite fmap_cons, Hsp'. subst x. cbn [Image set_Image].
      destruct ri as [i|].
      * cbn [andb bool_decide] in Hans. rewrite bool_decide_eq_false_2 in Hans by done.
        destruct Hans as [-> ->]. destruct IH as [-> ->]. done.
      * rewrite bool_decide_eq_true_2 in Hans by done. cbn [andb] in Hans.
        destruct Hans as (answer & -> & ->). cbn [app].
        destruct (givesImage answer) eqn:Hg.
        -- assert (Hsome : is_Some answer.1).
           { unfold givesImage in Hg. apply andb_true_iff in Hg as [_ Hg].
             by apply bool_decide_eq_true in Hg. }
           destruct Hsome as [img Himg]. rewrite Himg in IH |- *.
           destruct IH as [-> ->]. rewrite <- Himg.
           apply (served_hit answer); done.
        -- by apply served_miss.
    + (* evicted without having been Alerting *)
      cbn [andb] in Hans. destruct Hans as [-> ->]. done.
  - rewrite staleStep_skip by done. cbn [fst snd].
    assert (HR : R (h !!! sp) = false).
    { unfold resolvedBySweep. by rewrite HE. }
    simpl. rewrite HR. apply IH. done.
Qed.

End SweepAnswers.

Lemma served_spec answers imgs :
  served answers imgs →
  (length answers ≤ length imgs)%nat
  ∧ (∀ i a, answers !! i = Some a → givesImage a = true → S i = length answers)
  ∧ ((length answers < length imgs)%nat →
       ∃ a, last answers = Some a ∧ givesImage a = true)
  ∧ (∀ i img, imgs !! i = Some img →
       img = match answers !! i with
             | Some a => if givesImage a then a.1 else None
             | None => match last answers with Some a => a.1 | None => None end
             end).
Proof.
  induction 1 as [|a answers imgs Ha Hs (IH1 & IH2 & IH3 & IH4)|a m Ha].
  - split; [done|]. split; [done|]. split; [simpl; lia|]. done.
  - split; [simpl; lia|]. split; [|split].
    + intros [|i] b; simpl.
      * intros [= <-]. congruence.
      * intros Hb Hg. f_equal. by apply (IH2 i b).
    + simpl. intros Hlt. destruct IH3 as (b & Hb & Hg); [lia|].
      exists b. split; [|done]. rewrite last_cons, Hb. done.
    + intros [|i] img; simpl.
      * intros [= <-]. by rewrite Ha.
      * intros Hi. rewrite (IH4 i img Hi). destruct (answers !! i) eqn:Ei; [done|].
        rewrite last_cons. destruct (last answers) eqn:El; [done|].
        apply last_None in El. subst answers.
        inversion Hs; subst. done.
  - split; [simpl; lia|]. split; [|split].
    + by intros [|[|i]] b.
    + intros _. by exists a.
    + intros i img Hi. apply lookup_replicate in Hi as [-> _].
      destruct i as [|[|i]]; simpl; by rewrite ?Ha.
Qed.

(** C7 (amended). In one stale-results sweep for a rule the image service
    is asked lazily, once for each stale Alerting instance met while no
    resolution image has been obtained, and never again after it has
    returned an image. With [answers] the answers the image service gave to
    the requests of the sweep, in order: there are at most as many requests
    as resolved instances; only the last answer can give an image; if fewer
    requests than resolved instances were made, the last answer gave an
    image; the [i]-th resolved instance is assigned the image of the [i]-th
    answer if that request was made (no image if the answer gave none), and
    the image of the last answer otherwise. When the first answer gives an
    image there is exactly one request and all resolved instances share its
    image. *)
Theorem stale_image_requests env d r states evaluatedAt w (Hwf : cache_wf w) :
  let res := staleResultsHandler env d r states evaluatedAt w in
  let T := drop (length (trace w)) (trace res.2) in
  let answers := imageAnswers env (trace w) T in
  trace res.2 = trace w ++ T
  ∧ countEv isTakeImage (trace res.2)
    = (countEv isTakeImage (trace w) + length answers)%nat
  ∧ (length answers ≤ length res.1)%nat
  ∧ (∀ i a, answers !! i = Some a → givesImage a = true → S i = length answers)
  ∧ ((length answers < length res.1)%nat →
       ∃ a, last answers = Some a ∧ givesImage a = true)
  ∧ (∀ i l, res.1 !! i = Some l →
       Image (heap res.2 !!! l)
       = match answers !! i with
         | Some a => if givesImage a then a.1 else None
         | None => match last answers with Some a => a.1 | None => None end
         end)
  ∧ (∀ a, head answers = Some a → givesImage a = true →
       answers = [a] ∧ ∀ l, l ∈ res.1 → Image (heap res.2 !!! l) = a.1).
Proof.
  intros res T answers.
  pose proof (NoDup_known_states w (ngModels.OrgID r) (ngModels.UID r) Hwf) as Hnd.
  subst answers T res. rewrite staleResultsHandler_unfold. cbv zeta. cbn [fst snd].
  destruct w as [h n c t]. cbn [heap cache trace] in *.
  pose proof (sweep_answers env d r states evaluatedAt _ Hnd None [] h n c t) as H.
  cbv zeta in H.
  destruct (sweep_loop env d r states evaluatedAt _ Hnd None [] h n c t)
    as (ri' & h' & c' & T & Hrun & _).
  rewrite Hrun in H |- *. cbn [fst snd heap trace] in H |- *. rewrite app_nil_l.
  destruct H as (T' & HT & Hserved). apply app_inv_head in HT. subst T'.
  rewrite drop_app_length.
  set (answers := imageAnswers env t T) in *.
  set (resolved := List.filter _ _) in *.
  destruct (served_spec _ _ Hserved) as (H1 & H2 & H3 & H4).
  rewrite length_fmap in H1, H3.
  assert (H5 : ∀ i l, resolved !! i = Some l →
    Image (h' !!! l)
    = match answers !! i with
      | Some a => if givesImage a then a.1 else None
      | None => match last answers with Some a => a.1 | None => None end
      end).
  { intros i l Hl. apply H4. by rewrite list_lookup_fmap, Hl. }
  split; [done|].
  split; [by rewrite countEv_app; unfold answers; rewrite imageAnswers_length|].
  split; [done|]. split; [done|]. split; [done|]. split; [done|].
  intros a Ha Hg. destruct answers as [|a0 rest] eqn:Eans; [done|].
  injection Ha as ->.
  assert (rest = []) as ->.
  { specialize (H2 0%nat a eq_refl Hg). destruct rest; [done|]. simpl in H2. lia. }
  split; [done|]. intros l [i Hi]%list_elem_of_lookup.
  rewrite (H5 i l Hi). destruct i as [|i]; simpl; by rewrite ?Hg.
Qed.

(** The sweep at 25 s resolves the Alerting series "a" and "b" with an
    image service that fails the first request and returns image 7 for the
    second: two requests, "a" is left without an image and "b" is assigned
    image 7. *)
Lemma stale_image_requests_witness :
  let w := Demo.firing 10 in
  let res := staleResultsHandler Demo.flaky Demo.deps (Demo.rule 10) ∅ 25000000000 w in
  let answers :=
    imageAnswers Demo.flaky (trace w) (drop (length (trace w)) (trace res.2)) in
  cache_wf w
  ∧ answers = [(None, Some "screenshot failed"); (Some 7%positive, None)]
  ∧ res.1 = [0%nat; 1%nat]
  ∧ (∀ i l, res.1 !! i = Some l →
       Image (heap res.2 !!! l)
       = match answers !! i with
         | Some a => if givesImage a then a.1 else None
         | None => match last answers with Some a => a.1 | None => None end
         end).
Proof.
  assert (Hwf : cache_wf (Demo.firing 10)).
  { apply cache_wfb_sound. vm_compute. reflexivity. }
  pose proof (stale_image_requests Demo.flaky Demo.deps (Demo.rule 10) ∅ 25000000000
                (Demo.firing 10) Hwf) as H.
  cbv zeta in H. destruct H as (_ & _ & _ & _ & _ & Himgs & _).
  assert (Hans : imageAnswers Demo.flaky (trace (Demo.firing 10))
            (drop (length (trace (Demo.firing 10)))
               (trace (staleResultsHandler Demo.flaky Demo.deps (Demo.rule 10) ∅
                         25000000000 (Demo.firing 10)).2))
          = [(None, Some "screenshot failed"); (Some 7%positive, None)]).
  { vm_compute. reflexivity. }
  assert (Hres : (staleResultsHandler Demo.flaky Demo.deps (Demo.rule 10) ∅
                    25000000000 (Demo.firing 10)).1 = [0%nat; 1%nat]).
  { vm_compute. reflexivity. }
  exact (conj Hwf (conj Hans (conj Hres Himgs))).
Defined.

(** With an image service whose first answer in the sweep is an error, the
    sweep that resolves "a" and "b" asks for an image twice, and the two
    resolved instances end up with different image references. *)
Lemma stale_image_requests_counterexample :
  let w := Demo.firing 10 in
  let res := staleResultsHandler Demo.flaky Demo.deps (Demo.rule 10) ∅ 25000000000 w in
  countEv isTakeImage (trace res.2) = (countEv isTakeImage (trace w) + 2)%nat
  ∧ (λ l, Image (heap res.2 !!! l)) <$> res.1 = [None; Some 7%positive].
Proof. by vm_compute. Qed.

(** * [Warm], by the answers of the stores *)

Lemma listAnswers_app env pre T1 T2 :
  listAnswers env pre (T1 ++ T2)
  = listAnswers env pre T1 ++ listAnswers env (pre ++ T1) T2.
Proof.
  revert pre. induction T1 as [|e T1 IH]; intros pre; simpl.
  - by rewrite app_nil_r.
  - rewrite IH, <- !app_assoc. done.
Qed.

Lemma listAnswers_logs env pre L :
  Forall (λ e, ofKinds [KLog] e = true) L → listAnswers env pre L = [].
Proof.
  intros HL. revert pre. induction HL as [|e L He _ IH]; intros pre; [done|].
  simpl. rewrite IH. by destruct e.
Qed.

Lemma warmRounds_answers rounds : warmRounds (rounds ≫= roundAnswers) = rounds.
Proof.
  induction rounds as [|[o rules instances] rounds IH]; [done|].
  rewrite bind_cons. unfold roundAnswers at 1.
  cbn [app warmRounds roundOrg roundRules roundInstances]. by rewrite IH.
Qed.

Lemma hasRule_indexRules rules entry :
  hasRule rules entry = true ↔ is_Some (indexRules rules !! ngModels.RuleUID entry).
Proof.
  unfold hasRule. rewrite bool_decide_eq_true, list_elem_of_fmap. split.
  - intros (rule & -> & Hin). by apply indexRules_is_Some.
  - intros [rule [Hin Hu]%indexRules_lookup]. by exists rule.
Qed.

Lemma rebuiltAt_app d h n kept1 kept2 :
  rebuiltAt d h n kept1 → rebuiltAt d h (n + length kept1)%nat kept2 →
  rebuiltAt d h n (kept1 ++ kept2).
Proof.
  intros H1 H2 k rules entry Hk. apply lookup_app_Some in Hk as [Hk|[Hle Hk]].
  - by apply H1.
  - destruct (H2 _ _ _ Hk) as (rule & Hr & Hh). exists rule. split; [done|].
    rewrite <- Hh. f_equal. lia.
Qed.

Lemma rebuiltAt_frame d h h' n kept :
  (∀ l, (l < n + length kept)%nat → h' !! l = h !! l) →
  rebuiltAt d h n kept → rebuiltAt d h' n kept.
Proof.
  intros Hfr H k rules entry Hk. destruct (H _ _ _ Hk) as (rule & Hr & Hh).
  exists rule. split; [done|]. rewrite Hfr; [done|].
  apply lookup_lt_Some in Hk. lia.
Qed.

Lemma run_when_logf {B} (b : bool) lvl msg (k : unit → M B) h n c t :
  (when b (logf lvl msg) ≫= k) {| heap := h; next := n; cache := c; trace := t |}
  = k tt {| heap := h; next := n; cache := c;
            trace := t ++ if b then [EvLog lvl msg] else [] |}.
Proof. destruct b; simpl; [done|]. by rewrite app_nil_r. Qed.

Section WarmExact.
Variable env : Env.
Variable d : Deps.

Local Abbreviation notFound := (isErrorLog "rule not found for instance, ignoring").
Local Abbreviation isLog := (λ e, ofKinds [KLog] e = true).

Lemma warmEntry_run rules states entry h n c t :
  ∃ L, Forall isLog L
    ∧ countEv notFound L = (if hasRule rules entry then 0 else 1)%nat
    ∧ warmEntry d (indexRules rules) states entry
        {| heap := h; next := n; cache := c; trace := t |}
      = match indexRules rules !! ngModels.RuleUID entry with
        | Some rule =>
            (states ++ [n],
             {| heap := <[n := stateForEntry entry rule
                                 (StringKey d (ngModels.InstLabels entry)).1]> h;
                next := S n; cache := c; trace := t ++ L |})
        | None => (states, {| heap := h; next := n; cache := c; trace := t ++ L |})
        end.
Proof.
  pose proof (hasRule_indexRules rules entry) as Hhas.
  unfold warmEntry.
  destruct (indexRules rules !! ngModels.RuleUID entry) as [rule|] eqn:Er.
  - rewrite (proj2 Hhas) by done.
    destruct (StringKey d (ngModels.InstLabels entry)) as [cacheID err].
    unfold when. destruct (isErr err).
    + exists [EvLog log.Error "error getting cacheID for entry"].
      split; [by repeat constructor|]. split; [done|]. by do 2 step.
    + exists []. split; [done|]. split; [done|]. do 2 step. by rewrite app_nil_r.
  - assert (Eh : hasRule rules entry = false).
    { apply not_true_is_false. by intros [? ?]%Hhas. }
    rewrite Eh.
    exists [EvLog log.Error "rule not found for instance, ignoring"].
    split; [by repeat constructor|]. split; [done|]. by step.
Qed.

Lemma foldM_warmEntry_run rules instances :
  ∀ states h n c t,
  let kept := List.filter (hasRule rules) instances in
  ∃ L h',
    Forall isLog L
    ∧ countEv notFound L
      = length (List.filter (λ entry, negb (hasRule rules entry)) instances)
    ∧ foldM (warmEntry d (indexRules rules)) states instances
        {| heap := h; next := n; cache := c; trace := t |}
      = (states ++ seq n (length kept),
         {| heap := h'; next := (n + length kept)%nat; cache := c; trace := t ++ L |})
    ∧ (∀ l, (l < n)%nat → h' !! l = h !! l)
    ∧ rebuiltAt d h' n ((λ entry, (rules, entry)) <$> kept).
Proof.
  induction instances as [|entry instances IH]; intros states h n c t.
  { exists [], h. simpl. rewrite !app_nil_r, Nat.add_0_r.
    split; [done|]. split; [done|]. split; [done|]. split; [done|]. by intros k ? ?. }
  cbv zeta. rewrite foldM_cons.
  destruct (warmEntry_run rules states entry h n c t) as (L1 & HL1 & Hc1 & ->).
  pose proof (hasRule_indexRules rules entry) as Hhas.
  cbn [List.filter].
  destruct (indexRules rules !! ngModels.RuleUID entry) as [rule|] eqn:Er.
  - rewrite (proj2 Hhas) in Hc1 |- * by done. cbn [fst snd negb].
    edestruct (IH (states ++ [n])) as (L2 & h' & HL2 & Hc2 & -> & Hfr & Hre).
    exists (L1 ++ L2), h'. split; [by apply Forall_app|].
    split; [by rewrite countEv_app, Hc1, Hc2|].
    split.
    { cbn [length seq]. rewrite <- !app_assoc. cbn [app].
      by rewrite Nat.add_succ_r. }
    split.
    { intros l Hl. rewrite Hfr by lia. apply lookup_insert_ne. lia. }
    intros [|k] rules0 entry0; cbn [fmap list_fmap lookup list_lookup].
    + intros [= <- <-]. exists rule. split; [done|].
      rewrite Nat.add_0_r, Hfr by lia. by rewrite lookup_insert_eq.
    + intros Hk. destruct (Hre k rules0 entry0 Hk) as (rule0 & Hr0 & Hh0).
      exists rule0. split; [done|]. rewrite <- Hh0. f_equal. lia.
  - assert (Eh : hasRule rules entry = false).
    { apply not_true_is_false. by intros [? ?]%Hhas. }
    rewrite Eh in Hc1 |- *. cbn [fst snd negb].
    edestruct (IH states) as (L2 & h' & HL2 & Hc2 & -> & Hfr & Hre).
    exists (L1 ++ L2), h'. split; [by apply Forall_app|].
    split; [by rewrite countEv_app, Hc1, Hc2|].
    split; [by rewrite <- !app_assoc|]. done.
Qed.

Lemma warmOrg_exact states orgId h n c t :
  ∃ T h' rules instances,
    let kept := List.filter (hasRule rules) instances in
    listAnswers env t T = [RulesOf orgId rules; InstancesOf orgId instances]
    ∧ countEv notFound T
      = length (List.filter (λ entry, negb (hasRule rules entry)) instances)
    ∧ warmOrg env d states orgId {| heap := h; next := n; cache := c; trace := t |}
      = (states ++ seq n (length kept),
         {| heap := h'; next := (n + length kept)%nat; cache := c; trace := t ++ T |})
    ∧ (∀ l, (l < n)%nat → h' !! l = h !! l)
    ∧ rebuiltAt d h' n ((λ entry, (rules, entry)) <$> kept).
Proof.
  unfold warmOrg. rewrite (bind_ret_r (_ ≫= _)). rewrite !run_assoc. step.
  destruct (ListAlertRules env t orgId) as [rules err] eqn:Erules.
  rewrite ?run_assoc, run_when_logf.
  set (P := if isErr err then [EvLog log.Error "unable to fetch previous state"] else []).
  assert (HP : Forall isLog P) by (subst P; destruct (isErr err); by repeat constructor).
  rewrite ?run_assoc. step.
  destruct (ListAlertInstances env ((t ++ [EvListAlertRules orgId]) ++ P) orgId)
    as [instances ierr] eqn:Einst.
  rewrite ?run_assoc, run_when_logf.
  set (Q := if isErr ierr then [EvLog log.Error "unable to fetch previous state"] else []).
  assert (HQ : Forall isLog Q) by (subst Q; destruct (isErr ierr); by repeat constructor).
  edestruct (foldM_warmEntry_run rules instances states)
    as (L & h' & HL & Hc & Hrun & Hfr & Hre).
  rewrite run_bind with (1 := Hrun). clear Hrun.
  exists ([EvListAlertRules orgId] ++ P ++ [EvListAlertInstances orgId] ++ Q ++ L),
    h', rules, instances.
  split.
  { rewrite listAnswers_app. cbn [listAnswers app].
    rewrite Erules. cbn [fst app]. f_equal.
    rewrite ?app_nil_r, listAnswers_app, (listAnswers_logs _ _ P) by done.
    cbn [app listAnswers]. rewrite Einst. cbn [fst]. f_equal.
    rewrite listAnswers_logs; [done|]. by apply Forall_app. }
  split.
  { rewrite !countEv_app, Hc. subst P Q. by destruct (isErr err), (isErr ierr). }
  split; [by rewrite <- !app_assoc|]. done.
Qed.

Lemma foldM_warmOrg_exact orgIds :
  ∀ states h n c t,
  ∃ T h' rounds,
    let kept := keptInstances rounds in
    listAnswers env t T = rounds ≫= roundAnswers
    ∧ roundOrg <$> rounds = orgIds
    ∧ countEv notFound T = length (orphanInstances rounds)
    ∧ foldM (warmOrg env d) states orgIds
        {| heap := h; next := n; cache := c; trace := t |}
      = (states ++ seq n (length kept),
         {| heap := h'; next := (n + length kept)%nat; cache := c; trace := t ++ T |})
    ∧ (∀ l, (l < n)%nat → h' !! l = h !! l)
    ∧ rebuiltAt d h' n kept.
Proof.
  induction orgIds as [|orgId orgIds IH]; intros states h n c t.
  { exists [], h, []. simpl. rewrite !app_nil_r, Nat.add_0_r.
    do 5 (split; [done|]). by intros k ? ?. }
  cbv zeta. rewrite foldM_cons.
  destruct (warmOrg_exact states orgId h n c t)
    as (T1 & h1 & rules & instances & Hans1 & Hc1 & -> & Hfr1 & Hre1).
  cbn [fst snd].
  set (kept1 := List.filter (hasRule rules) instances) in *.
  edestruct (IH (states ++ seq n (length kept1)))
    as (T2 & h' & rounds & Hans2 & Horgs & Hc2 & -> & Hfr2 & Hre2).
  set (rd := {| roundOrg := orgId; roundRules := rules; roundInstances := instances |}).
  exists (T1 ++ T2), h', (rd :: rounds).
  assert (Hkept : keptInstances (rd :: rounds)
                  = ((λ entry, (rules, entry)) <$> kept1) ++ keptInstances rounds).
  { unfold keptInstances. by rewrite bind_cons. }
  rewrite Hkept, length_app, length_fmap.
  split; [by rewrite listAnswers_app, Hans1, Hans2, bind_cons|].
  split; [by rewrite fmap_cons, Horgs|].
  split.
  { unfold orphanInstances in *. by rewrite countEv_app, Hc1, Hc2, bind_cons, length_app. }
  split.
  { rewrite <- !app_assoc, Nat.add_assoc. do 2 f_equal.
    by rewrite <- seq_app. }
  split; [intros l Hl; rewrite Hfr2 by lia; by apply Hfr1|].
  apply rebuiltAt_app.
  - apply (rebuiltAt_frame d h1); [|done]. rewrite length_fmap. intros l Hl. by apply Hfr2.
  - by rewrite length_fmap.
Qed.

(** [Warm], exactly: the listings it makes and the answers it gets, the
    states it allocates, and the cache it ends with. *)
Lemma Warm_exact w :
  let w' := (Warm env d w).2 in
  ∃ T rounds,
    let kept := keptInstances rounds in
    trace w' = trace w ++ T
    ∧ listAnswers env (trace w) T = rounds ≫= roundAnswers
    ∧ roundOrg <$> rounds
      = (FetchOrgIds env (trace w ++ [EvLog log.Info "warming cache for startup"])).1
    ∧ countEv notFound T = length (orphanInstances rounds)
    ∧ next w' = (next w + length kept)%nat
    ∧ (∀ l, (l < next w)%nat → heap w' !! l = heap w !! l)
    ∧ rebuiltAt d (heap w') (next w) kept
    ∧ ∀ o u i, cache_get (cache w') o u i
               = lastWithKey (heap w') (o, u, i) (seq (next w) (length kept)).
Proof.
  destruct w as [h n c t]. cbv zeta. unfold Warm, ResetAllStates, cache_.reset.
  do 3 step. cbn [heap next trace].
  destruct (FetchOrgIds env (t ++ [EvLog log.Info "warming cache for startup"]))
    as [orgIds err].
  rewrite run_when_logf.
  set (P := if isErr err then [EvLog log.Error "unable to fetch orgIds"] else []).
  assert (HP : Forall isLog P) by (subst P; destruct (isErr err); by repeat constructor).
  edestruct (foldM_warmOrg_exact orgIds [])
    as (T & h' & rounds & Hans & Horgs & Hc & Hrun & Hfr & Hre).
  rewrite run_bind with (1 := Hrun). clear Hrun. cbn [app].
  edestruct (forM_set_run (seq n (length (keptInstances rounds))))
    as (c' & -> & Hc').
  cbn [snd heap next cache trace fst].
  exists ([EvLog log.Info "warming cache for startup"] ++ [EvFetchOrgIds] ++ P ++ T), rounds.
  split; [by rewrite <- !app_assoc|].
  split.
  { rewrite !listAnswers_app. cbn [listAnswers app].
    rewrite (listAnswers_logs _ _ P) by done. cbn [app].
    by rewrite <- Hans. }
  split; [done|].
  split.
  { rewrite !countEv_app, Hc. subst P. by destruct (isErr err). }
  split; [done|]. split; [done|]. split; [done|].
  intros o u i. rewrite Hc', cache_get_empty. by destruct (lastWithKey _ _ _).
Qed.

End WarmExact.

(** ** The cache after [Warm] *)

Lemma lastWithKey_Some h key ls l :
  lastWithKey h key ls = Some l → l ∈ ls ∧ keyOf (h !!! l) = key.
Proof.
  unfold lastWithKey. intros Hl%last_Some_elem_of.
  apply list_elem_of_In, List.filter_In in Hl as [Hin Hk].
  split; [by apply list_elem_of_In|]. by apply bool_decide_eq_true in Hk.
Qed.



Lemma elem_of_keptInstances rounds rules entry :
  (rules, entry) ∈ keptInstances rounds
  ↔ ∃ rd, rd ∈ rounds ∧ rules = roundRules rd ∧ entry ∈ roundInstances rd
          ∧ ∃ rule, rule ∈ rules ∧ ngModels.UID rule = ngModels.RuleUID entry.
Proof.
  unfold keptInstances. rewrite list_elem_of_bind. split.
  - intros (rd & Hin & Hrd). apply list_elem_of_fmap in Hin as (entry0 & [= -> ->] & Hin).
    apply list_elem_of_In, List.filter_In in Hin as [Hin Hhas].
    exists rd. split; [done|]. split; [done|]. split; [by apply list_elem_of_In|].
    unfold hasRule in Hhas. apply bool_decide_eq_true, list_elem_of_fmap in Hhas
      as (rule & Hu & Hr). by exists rule.
  - intros (rd & Hrd & -> & Hin & rule & Hr & Hu). exists rd. split; [|done].
    apply list_elem_of_fmap. exists entry. split; [done|].
    apply list_elem_of_In, List.filter_In. split; [by apply list_elem_of_In|].
    unfold hasRule. apply bool_decide_eq_true, list_elem_of_fmap. by exists rule.
Qed.

Lemma elem_of_orphanInstances rounds entry :
  entry ∈ orphanInstances rounds
  ↔ ∃ rd, rd ∈ rounds ∧ entry ∈ roundInstances rd
          ∧ ∀ rule, rule ∈ roundRules rd → ngModels.UID rule ≠ ngModels.RuleUID entry.
Proof.
  unfold orphanInstances. rewrite list_elem_of_bind. split.
  - intros (rd & Hin & Hrd). apply list_elem_of_In, List.filter_In in Hin as [Hin Hhas].
    exists rd. split; [done|]. split; [by apply list_elem_of_In|].
    intros rule Hr Hu. unfold hasRule in Hhas.
    apply negb_true_iff, bool_decide_eq_false in Hhas. apply Hhas.
    apply list_elem_of_fmap. by exists rule.
  - intros (rd & Hrd & Hin & Hno). exists rd. split; [|done].
    apply list_elem_of_In, List.filter_In. split; [by apply list_elem_of_In|].
    apply negb_true_iff, bool_decide_eq_false.
    intros (rule & Hu & Hr)%list_elem_of_fmap. by apply (Hno rule).
Qed.

(** The store answers of [Warm], and what it makes of them, in the terms of
    the run itself. *)
Lemma Warm_by_answers env d w :
  let w' := (Warm env d w).2 in
  let T := drop (length (trace w)) (trace w') in
  let answers := listAnswers env (trace w) T in
  let rounds := warmRounds answers in
  let kept := keptInstances rounds in
  trace w' = trace w ++ T
  ∧ answers = rounds ≫= roundAnswers
  ∧ roundOrg <$> rounds
    = (FetchOrgIds env (trace w ++ [EvLog log.Info "warming cache for startup"])).1
  ∧ countEv (isErrorLog "rule not found for instance, ignoring") T
    = length (orphanInstances rounds)
  ∧ next w' = (next w + length kept)%nat
  ∧ (∀ l, (l < next w)%nat → heap w' !! l = heap w !! l)
  ∧ rebuiltAt d (heap w') (next w) kept
  ∧ ∀ o u i, cache_get (cache w') o u i
             = lastWithKey (heap w') (o, u, i) (seq (next w) (length kept)).
Proof.
  intros w' T answers rounds kept.
  destruct (Warm_exact env d w) as (T0 & rounds0 & HT & Hans & Hrest). fold w' in HT, Hrest.
  assert (T = T0) as Heq.
  { subst T. by rewrite HT, drop_app_length. }
  assert (rounds = rounds0) as Hrd.
  { subst rounds answers. by rewrite Heq, Hans, warmRounds_answers. }
  subst kept. rewrite Hrd. subst answers. rewrite Heq. done.
Qed.

Lemma keyOf_stateForEntry d entry rule :
  keyOf (stateForEntry entry rule (StringKey d (ngModels.InstLabels entry)).1)
  = instanceKey d entry.
Proof. done. Qed.

Lemma cached_after_Warm d (h : gmap loc State) n kept o u i l :
  rebuiltAt d h n kept →
  lastWithKey h (o, u, i) (seq n (length kept)) = Some l →
  ∃ k rules entry rule,
    l = (n + k)%nat ∧ kept !! k = Some (rules, entry)
    ∧ indexRules rules !! ngModels.RuleUID entry = Some rule
    ∧ h !!! l = stateForEntry entry rule (StringKey d (ngModels.InstLabels entry)).1
    ∧ (o, u, i) = instanceKey d entry.
Proof.
  intros Hre [[Hl1 Hl2]%elem_of_seq Hkey]%lastWithKey_Some.
  destruct (lookup_lt_is_Some_2 kept (l - n)) as [[rules entry] Hk]; [lia|].
  destruct (Hre _ _ _ Hk) as (rule & Hr & Hh).
  replace (n + (l - n))%nat with l in Hh by lia.
  apply lookup_total_correct in Hh.
  exists (l - n)%nat, rules, entry, rule. split; [lia|]. split; [done|]. split; [done|].
  split; [done|]. rewrite <- Hkey, <- (keyOf_stateForEntry d entry rule).
  f_equal. exact Hh.
Qed.

(** C10. During [Warm] a persisted instance whose [RuleUID] matches no rule
    that the rule store returned for the org in the same round is skipped.
    With [rounds] the answers the rule store and the instance store gave to
    this [Warm], org by org, [kept] the listed instances whose rule is among
    the rules of their round and [orphans] the others: [Warm] allocates one
    state per kept instance, in order, rebuilt from that instance and a rule
    of its round with the instance's [RuleUID], and none for an orphan, whose
    skip is only logged; the states that existed before are untouched; every
    entry of the cache after [Warm] is the state of a kept instance under
    that instance's identity; and when every listed instance is an orphan
    nothing is allocated and the cache is empty. *)
Theorem Warm_skips_orphans env d w :
  let w' := (Warm env d w).2 in
  let T := drop (length (trace w)) (trace w') in
  let answers := listAnswers env (trace w) T in
  let rounds := warmRounds answers in
  let kept := keptInstances rounds in
  let orphans := orphanInstances rounds in
  (trace w' = trace w ++ T
   ∧ answers = rounds ≫= roundAnswers
   ∧ roundOrg <$> rounds
     = (FetchOrgIds env (trace w ++ [EvLog log.Info "warming cache for startup"])).1)
  ∧ (∀ rules entry, (rules, entry) ∈ kept
       ↔ ∃ rd, rd ∈ rounds ∧ rules = roundRules rd ∧ entry ∈ roundInstances rd
               ∧ ∃ rule, rule ∈ rules ∧ ngModels.UID rule = ngModels.RuleUID entry)
  ∧ (∀ entry, entry ∈ orphans
       ↔ ∃ rd, rd ∈ rounds ∧ entry ∈ roundInstances rd
               ∧ ∀ rule, rule ∈ roundRules rd →
                   ngModels.UID rule ≠ ngModels.RuleUID entry)
  ∧ next w' = (next w + length kept)%nat
  ∧ (∀ l, (l < next w)%nat → heap w' !! l = heap w !! l)
  ∧ (∀ k rules entry, kept !! k = Some (rules, entry) →
       ∃ rule, rule ∈ rules ∧ ngModels.UID rule = ngModels.RuleUID entry
             ∧ heap w' !! (next w + k)%nat
               = Some (stateForEntry entry rule
                         (StringKey d (ngModels.InstLabels entry)).1))
  ∧ countEv (isErrorLog "rule not found for instance, ignoring") T = length orphans
  ∧ (∀ o u i l, cache_get (cache w') o u i = Some l →
       ∃ k rules entry,
         l = (next w + k)%nat ∧ kept !! k = Some (rules, entry)
         ∧ (o, u, i) = instanceKey d entry)
  ∧ ((∀ rd entry, rd ∈ rounds → entry ∈ roundInstances rd →
        hasRule (roundRules rd) entry = false) →
     next w' = next w ∧ ∀ o u i, cache_get (cache w') o u i = None).
Proof.
  intros w' T answers rounds kept orphans.
  destruct (Warm_by_answers env d w)
    as (HT & Hans & Horgs & Hlog & Hnext & Hold & Hre & Hcache).
  fold w' T answers rounds kept in HT, Hans, Horgs, Hlog, Hnext, Hold, Hre, Hcache.
  split; [done|].
  split; [apply elem_of_keptInstances|].
  split; [apply elem_of_orphanInstances|].
  split; [done|]. split; [done|].
  split.
  { intros k rules entry Hk. destruct (Hre _ _ _ Hk) as (rule & Hr & Hh).
    apply indexRules_lookup in Hr as [Hin Hu]. by exists rule. }
  split; [done|].
  split.
  { intros o u i l. rewrite Hcache. intros Hl.
    destruct (cached_after_Warm _ _ _ _ _ _ _ _ Hre Hl)
      as (k & rules & entry & rule & -> & Hk & _ & _ & Hkey).
    by exists k, rules, entry. }
  intros Hall.
  assert (Hnil : kept = []).
  { destruct kept as [|[rules entry] kept'] eqn:Ek; [done|]. exfalso.
    assert (Hin : (rules, entry) ∈ keptInstances rounds).
    { fold kept. rewrite Ek. apply list_elem_of_here. }
    apply elem_of_keptInstances in Hin as (rd & Hrd & -> & Hin & rule & Hr & Hu).
    specialize (Hall rd entry Hrd Hin). unfold hasRule in Hall.
    apply bool_decide_eq_false in Hall. apply Hall, list_elem_of_fmap. by exists rule. }
  rewrite Hnext. split; [rewrite Hnil; simpl; lia|].
  intros o u i. rewrite Hcache, Hnil. done.
Qed.

(** [Warm] over stores that hold four persisted instances, one of them of a
    rule that is gone: three states are rebuilt, nothing is cached under the
    orphan's identity, and its skip is logged. *)
Lemma Warm_skips_orphans_witness :
  let w' := (Warm Restart.stores Demo.deps Demo.empty).2 in
  let T := drop (length (trace Demo.empty)) (trace w') in
  let rounds := warmRounds (listAnswers Restart.stores (trace Demo.empty) T) in
  orphanInstances rounds = [Restart.orphan]
  ∧ next w' = (next Demo.empty + length (keptInstances rounds))%nat
  ∧ length (keptInstances rounds) = 3%nat
  ∧ countEv (isErrorLog "rule not found for instance, ignoring") T
    = length (orphanInstances rounds)
  ∧ cache_get (cache w') 1 "rule-gone" "o" = None.
Proof.
  pose proof (Warm_skips_orphans Restart.stores Demo.deps Demo.empty) as H.
  cbv zeta in H. destruct H as (_ & _ & _ & Hnext & _ & _ & Hlog & _).
  assert (Horph : orphanInstances
            (warmRounds (listAnswers Restart.stores (trace Demo.empty)
               (drop (length (trace Demo.empty))
                  (trace (Warm Restart.stores Demo.deps Demo.empty).2))))
          = [Restart.orphan]) by (vm_compute; reflexivity).
  assert (Hlen : length (keptInstances
            (warmRounds (listAnswers Restart.stores (trace Demo.empty)
               (drop (length (trace Demo.empty))
                  (trace (Warm Restart.stores Demo.deps Demo.empty).2)))))
          = 3%nat) by (vm_compute; reflexivity).
  assert (Hnone : cache_get (cache (Warm Restart.stores Demo.deps Demo.empty).2)
                    1 "rule-gone" "o" = None) by (vm_compute; reflexivity).
  exact (conj Horph (conj Hnext (conj Hlen (conj Hlog Hnone)))).
Defined.



(** * [ProcessEvalResults], result by result *)

Section PerResult.
Variable env : Env.
Variable d : Deps.
Variable alertRule : ngModels.AlertRule.
Variable extraLabels : Labels.
Hypothesis Hd : IdentityPreserving d.

Local Abbreviation org := (ngModels.OrgID alertRule).
Local Abbreviation uid := (ngModels.UID alertRule).
Local Abbreviation idOf := (resultID d alertRule extraLabels).

(** One result: the instance with the result's cache id is looked up, or
    created at the next location, updated in place and filed under that id;
    nothing else changes. *)
Lemma processResult_step sts pr result w :
  manager_inv w →
  let res := processResult env d alertRule extraLabels (sts, pr) result w in
  let l := default (next w) (cache_get (cache w) org uid (idOf result)) in
  res.1 = (sts ++ [l], <[idOf result := l]> pr)
  ∧ manager_inv res.2
  ∧ (next w ≤ next res.2)%nat
  ∧ (∀ o u i, cache_get (cache res.2) o u i
       = if decide ((o, u, i) = (org, uid, idOf result)) then Some l
         else cache_get (cache w) o u i)
  ∧ (∀ l', l' ≠ l → heap res.2 !! l' = heap w !! l').
Proof.
  intros Hw res l. subst res. rewrite processResult_run. cbv zeta. cbn [fst snd].
  pose proof (setNextState_inv env d alertRule result extraLabels w Hd Hw) as Hinv.
  destruct Hw as [Hwf Hn].
  rewrite setNextState_run in Hinv |- *. cbn [fst snd heap cache next] in Hinv |- *.
  unfold getOrCreate, cache_.getOrCreate in Hinv |- *. cbv zeta in Hinv |- *.
  fold (resultID d alertRule extraLabels result) in Hinv |- *.
  subst l.
  destruct (cache_get (cache w) org uid (idOf result)) as [l0|] eqn:Hget.
  - cbn [fst snd default] in Hinv |- *.
    assert (Hk0 : keyOf (heap w !!! l0) = (org, uid, idOf result)).
    { unfold keyOf. by destruct (Hwf _ _ _ _ Hget) as (-> & -> & ->). }
    pose proof (nextState_keyOf d alertRule result (heap w !!! l0) Hd) as Hks.
    rewrite Hk0 in Hks.
    destruct (keyOf_inv _ _ _ _ Hks) as (Ho & Hu & Hi).
    rewrite Ho, Hu, Hi in Hinv |- *.
    rewrite lookup_total_insert_eq.
    pose proof (withImage_keyOf env d alertRule
      (trace w ++ [EvLog log.Debug "setting alert state"]) (heap w !!! l0)
      (nextState d alertRule result (heap w !!! l0))) as Hkn.
    rewrite Hks in Hkn. destruct (keyOf_inv _ _ _ _ Hkn) as (_ & _ & ->).
    split; [done|]. split; [done|]. split; [done|]. split.
    + intros o u i. rewrite cache_get_insert. by repeat case_decide.
    + intros l' Hne. by rewrite lookup_insert_ne.
  - destruct w as [h n c t]. cbn [heap next cache trace] in *.
    revert Hinv. do 2 step. unfold ret, mret, M_ret.
    cbn [fst snd heap cache next default]. rewrite !lookup_total_insert_eq.
    set (old := {| AlertRuleUID := uid; OrgID := org; CacheID := idOf result;
                   StartsAt := _; EndsAt := _; LastEvaluationTime := _;
                   AlertState := _; StateReason := _; LastEvaluationString := _;
                   EvaluationDuration := _; Results := _; Resolved := _; Image := _;
                   Annotations := _; Labels_ := _ |}).
    assert (Hk0 : keyOf old = (org, uid, idOf result)) by done.
    pose proof (nextState_keyOf d alertRule result old Hd) as Hks.
    rewrite Hk0 in Hks.
    destruct (keyOf_inv _ _ _ _ Hks) as (Ho & Hu & Hi).
    rewrite Ho, Hu, Hi.
    pose proof (withImage_keyOf env d alertRule
      (t ++ [EvLog log.Debug "setting alert state"]) old
      (nextState d alertRule result old)) as Hkn.
    rewrite Hks in Hkn. destruct (keyOf_inv _ _ _ _ Hkn) as (_ & _ & ->).
    intros Hinv.
    split; [done|]. split; [done|]. split; [lia|]. split.
    + intros o u i. rewrite !cache_get_insert. by repeat case_decide.
    + intros l' Hne. by rewrite !lookup_insert_ne.
Qed.

(** The first loop of [ProcessEvalResults], from any point on. *)
Lemma processResults_run results :
  ∀ sts pr w,
  manager_inv w →
  let res := foldM (processResult env d alertRule extraLabels) (sts, pr) results w in
  let ids := idOf <$> results in
  manager_inv res.2
  ∧ (next w ≤ next res.2)%nat
  ∧ (∃ news, res.1.1 = sts ++ news ∧ length news = length results
       ∧ ∀ j result, results !! j = Some result →
           ∃ l, news !! j = Some l
              ∧ cache_get (cache res.2) org uid (idOf result) = Some l
              ∧ match cache_get (cache w) org uid (idOf result) with
                | Some l0 => l = l0
                | None => (next w ≤ l)%nat
                end)
  ∧ (∀ o u i, (o, u) ≠ (org, uid) ∨ i ∉ ids →
       cache_get (cache res.2) o u i = cache_get (cache w) o u i)
  ∧ (∀ l, (l < next w)%nat →
       (∀ i, i ∈ ids → cache_get (cache w) org uid i ≠ Some l) →
       heap res.2 !! l = heap w !! l)
  ∧ (∀ i, is_Some (res.1.2 !! i) ↔ is_Some (pr !! i) ∨ i ∈ ids).
Proof.
  induction results as [|r rest IH]; intros sts pr w Hw.
  { cbn [foldM fmap list_fmap]. unfold ret, mret, M_ret. cbn [fst snd].
    split; [done|]. split; [done|].
    split; [exists []; by rewrite app_nil_r|].
    split; [done|]. split; [done|]. intros i. rewrite elem_of_nil. tauto. }
  cbv zeta. rewrite foldM_cons.
  destruct (processResult_step sts pr r w Hw) as (Hstep & Hw1 & Hn1 & Hc1 & Hh1).
  set (l := default (next w) (cache_get (cache w) org uid (idOf r))) in *.
  destruct (processResult env d alertRule extraLabels (sts, pr) r w) as [acc1 w1].
  cbn [fst snd] in *. subst acc1.
  destruct (IH (sts ++ [l]) (<[idOf r := l]> pr) w1 Hw1)
    as (Hinv & Hnext & (news & Hsts & Hlen & Hper) & Hc & Hh & Hpr).
  set (res := foldM (processResult env d alertRule extraLabels)
                (sts ++ [l], <[idOf r := l]> pr) rest w1) in *.
  assert (Hl1 : cache_get (cache w1) org uid (idOf r) = Some l).
  { rewrite Hc1. by rewrite decide_True. }
  assert (Horigin : match cache_get (cache w) org uid (idOf r) with
                    | Some l0 => l = l0
                    | None => (next w ≤ l)%nat
                    end).
  { subst l. by destruct (cache_get (cache w) org uid (idOf r)). }
  split; [done|]. split; [lia|]. split; [|split; [|split]].
  - exists (l :: news). split; [by rewrite Hsts, <- app_assoc|].
    split; [by rewrite !length_cons, Hlen|].
    intros [|j] result; cbn [lookup list_lookup].
    + intros [= <-]. exists l. split; [done|]. split; [|done].
      destruct (decide (idOf r ∈ idOf <$> rest)) as [Hin|Hnin].
      * apply list_elem_of_fmap in Hin as (r' & Hid & [j' Hj']%list_elem_of_lookup).
        destruct (Hper j' r' Hj') as (l' & _ & Hcl' & Hor').
        rewrite <- Hid, Hl1 in Hor'. rewrite Hid, Hcl'. by f_equal.
      * rewrite Hc by (by right). done.
    + intros Hj. destruct (Hper j result Hj) as (l' & Hl' & Hcl' & Hor').
      exists l'. split; [done|]. split; [done|].
      rewrite Hc1 in Hor'. case_decide as Hdec.
      * injection Hdec as Hid. rewrite Hid. by subst l'.
      * destruct (cache_get (cache w) org uid (idOf result)); [done|lia].
  - intros o u i Hor. rewrite Hc.
    + rewrite Hc1. rewrite decide_False; [done|]. intros [= -> -> ->].
      destruct Hor as [Hor|Hor]; [done|]. apply Hor. rewrite fmap_cons. apply list_elem_of_here.
    + destruct Hor as [Hor|Hor]; [by left|]. right. intros Hin. apply Hor.
      rewrite fmap_cons. by apply list_elem_of_further.
  - intros l' Hl' Hno.
    assert (Hne : l' ≠ l).
    { intros ->. specialize (Hno (idOf r)).
      destruct (cache_get (cache w) org uid (idOf r)) as [l0|] eqn:Hget.
      - apply Hno; [rewrite fmap_cons; apply list_elem_of_here|].
        by rewrite Horigin.
      - subst l. cbn in Hl'. lia. }
    rewrite Hh; [by apply Hh1|lia|].
    intros i Hi. rewrite Hc1. case_decide as Hdec; [congruence|].
    apply Hno. rewrite fmap_cons. by apply list_elem_of_further.
  - intros i. rewrite Hpr, lookup_insert_is_Some, fmap_cons, elem_of_cons.
    destruct (decide (idOf r = i)) as [->|Hne]; [tauto|].
    split; [intros [[?|[_ ?]]|?]|intros [?|[?|?]]]; try tauto; congruence.
Qed.

End PerResult.

(** * The saves of [ProcessEvalResults] *)

Lemma emitsOnly_ret {A} p (a : A) : emitsOnly p (ret a).
Proof. intros w. exists []. by rewrite app_nil_r. Qed.

Lemma emitsOnly_bind {A B} p (m : M A) (k : A → M B) :
  emitsOnly p m → (∀ a, emitsOnly p (k a)) → emitsOnly p (m ≫= k).
Proof.
  intros Hm Hk w. unfold mbind, M_bind.
  destruct (Hm w) as (T1 & E1 & F1). destruct (m w) as [a w1]. simpl in E1.
  destruct (Hk a w1) as (T2 & E2 & F2).
  exists (T1 ++ T2). rewrite E2, E1, app_assoc. split; [done|]. by apply Forall_app.
Qed.

Lemma emitsOnly_silent {A} p (m : M A) :
  (∀ w, trace (m w).2 = trace w) → emitsOnly p m.
Proof. intros H w. exists []. by rewrite app_nil_r, H. Qed.

Lemma emitsOnly_emit p e : p e = true → emitsOnly p (emit e).
Proof. intros H w. exists [e]. split; [done|]. by constructor. Qed.

Lemma emitsOnly_call {A} p e (answer : list Event → A) :
  p e = true → emitsOnly p (call e answer).
Proof. intros H w. exists [e]. split; [done|]. by constructor. Qed.

Lemma emitsOnly_when p (b : bool) m : emitsOnly p m → emitsOnly p (when b m).
Proof. destruct b; [done|]. intros _. apply emitsOnly_ret. Qed.

Lemma emitsOnly_foldM {A B} p (f : B → A → M B) xs :
  (∀ b x, emitsOnly p (f b x)) → ∀ b, emitsOnly p (foldM f b xs).
Proof.
  intros Hf. induction xs as [|x xs IH]; intros b; simpl; [apply emitsOnly_ret|].
  apply emitsOnly_bind; [apply Hf|]. apply IH.
Qed.

Ltac emitsOnly_go :=
  repeat match goal with
    | |- emitsOnly _ (ret _) => apply emitsOnly_ret
    | |- emitsOnly _ (mret _) => apply emitsOnly_ret
    | |- emitsOnly _ (deref _) => by apply emitsOnly_silent
    | |- emitsOnly _ (modify _ _) => by apply emitsOnly_silent
    | |- emitsOnly _ (alloc _) => by apply emitsOnly_silent
    | |- emitsOnly _ (with_cache _) => by apply emitsOnly_silent
    | |- emitsOnly _ (cache_.set _) => by apply emitsOnly_silent
    | |- emitsOnly _ (cache_.getStatesForRuleUID _ _) => by apply emitsOnly_silent
    | |- emitsOnly _ (cache_.getOrCreate _ _ _ _) =>
        apply emitsOnly_silent; intros ?; apply getOrCreate_trace
    | |- emitsOnly _ (logf _ _) => apply emitsOnly_emit; reflexivity
    | |- emitsOnly _ (emit _) => apply emitsOnly_emit; reflexivity
    | |- emitsOnly _ (call _ _) => apply emitsOnly_call; reflexivity
    | |- emitsOnly _ (when _ _) => apply emitsOnly_when
    | |- emitsOnly _ (_ ≫= _) => apply emitsOnly_bind; [|intros ?]
    | |- emitsOnly _ (foldM _ _ _) => apply emitsOnly_foldM; intros ? ?
    | |- emitsOnly _ (match ?x with _ => _ end) => destruct x
    end.

Lemma annotateState_noSave env d alertRule labels evaluatedAt cur prev :
  emitsOnly noSave (annotateState env d alertRule labels evaluatedAt cur prev).
Proof. unfold annotateState, annotationsSave. cbv zeta. emitsOnly_go. Qed.

Lemma setNextState_noSave env d alertRule result extraLabels :
  emitsOnly noSave (setNextState env d alertRule result extraLabels).
Proof. unfold setNextState, getOrCreate, set, takeImage. emitsOnly_go. Qed.

Lemma staleResultsHandler_noSave env d r states ev :
  emitsOnly noSave (staleResultsHandler env d r states ev).
Proof.
  unfold staleResultsHandler, GetStatesForRuleUID. emitsOnly_go.
  unfold staleStep, cache_.deleteEntry, takeImage. emitsOnly_go.
  all: apply annotateState_noSave.
Qed.

Lemma processResults_noSave env d alertRule extraLabels results acc :
  emitsOnly noSave (foldM (processResult env d alertRule extraLabels) acc results).
Proof.
  apply emitsOnly_foldM. intros [sts pr] result. unfold processResult. emitsOnly_go.
  apply setNextState_noSave.
Qed.

(** ** Traces without saves, and the trace of the saves *)

Lemma failedSaves_app env pre T1 T2 :
  failedSaves env pre (T1 ++ T2)
  = (failedSaves env pre T1 + failedSaves env (pre ++ T1) T2)%nat.
Proof.
  revert pre. induction T1 as [|e T1 IH]; intros pre; cbn [app failedSaves].
  - by rewrite app_nil_r.
  - rewrite IH, <- app_assoc. cbn [app]. lia.
Qed.

Lemma noSave_spec e :
  noSave e = true →
  (∀ cmd, e ≠ EvSaveAlertInstance cmd) ∧ e ≠ saveFailed
  ∧ isErrorLog "failed to save alert state" e = false
  ∧ ofKinds [KSaveAlertInstance] e = false.
Proof.
  unfold noSave. intros [H1 H2]%andb_true_iff.
  apply negb_true_iff in H1. apply negb_true_iff in H2.
  split; [by intros cmd ->|]. split; [by intros ->|]. done.
Qed.

Lemma noSave_trace env pre P :
  Forall (λ e, noSave e = true) P →
  failedSaves env pre P = 0%nat
  ∧ countEv (isErrorLog "failed to save alert state") P = 0%nat
  ∧ eventsOf KSaveAlertInstance P = [].
Proof.
  intros HP. revert pre. induction HP as [|e P He _ IH]; intros pre; [done|].
  destruct (IH (pre ++ [e])) as (IH1 & IH2 & IH3).
  destruct (noSave_spec e He) as (Hs & _ & Hl & Hk).
  cbn [failedSaves]. rewrite IH1, countEv_cons, Hl, IH2.
  unfold eventsOf in *. cbn [List.filter]. rewrite Hk, IH3.
  split; [|done]. destruct e; first [done | by destruct (Hs cmd)].
Qed.

Lemma noSave_split P T T1 cmd T2 :
  Forall (λ e, noSave e = true) P →
  P ++ T = T1 ++ EvSaveAlertInstance cmd :: T2 →
  ∃ T1', T1 = P ++ T1' ∧ T = T1' ++ EvSaveAlertInstance cmd :: T2.
Proof.
  intros HP. revert T1. induction HP as [|e P He _ IH]; intros T1 Heq.
  { by exists T1. }
  destruct T1 as [|e1 T1]; cbn [app] in Heq.
  - injection Heq as -> _. by destruct (noSave_spec _ He) as (Hs & _).
  - injection Heq as <- Heq. destruct (IH T1 Heq) as (T1' & -> & ->). by exists T1'.
Qed.

Lemma savesLogged_prefix env pre P T :
  Forall (λ e, noSave e = true) P →
  savesLogged env (pre ++ P) T → savesLogged env pre (P ++ T).
Proof.
  intros HP HT T1 cmd T2 Heq.
  destruct (noSave_split P T T1 cmd T2 HP Heq) as (T1' & -> & HT').
  rewrite app_assoc. by apply HT.
Qed.

Lemma savesLogged_noSave env pre P :
  Forall (λ e, noSave e = true) P → savesLogged env pre P.
Proof.
  intros HP T1 cmd T2 Heq. exfalso.
  rewrite Heq in HP. apply Forall_app in HP as [_ HP].
  apply Forall_cons in HP as [He _]. by destruct (noSave_spec _ He) as (Hs & _).
Qed.

(** The saves, one instance after the other: a save, and the line
    [saveFailed] right after it exactly when the store answered with an
    error. *)
Lemma saveStates_logged env states h n c :
  ∀ t,
  ∃ T,
    saveStates env states {| heap := h; next := n; cache := c; trace := t |}
    = (tt, {| heap := h; next := n; cache := c; trace := t ++ T |})
    ∧ savesLogged env t T
    ∧ head T ≠ Some saveFailed
    ∧ failedSaves env t T = countEv (isErrorLog "failed to save alert state") T
    ∧ eventsOf KSaveAlertInstance T
      = (λ l, EvSaveAlertInstance (saveCommand (h !!! l))) <$> states.
Proof.
  induction states as [|l ls IH]; intros t.
  { exists []. rewrite app_nil_r. split; [done|]. split; [|done].
    intros T1 cmd T2 Heq. by destruct T1. }
  set (cmd := saveCommand (h !!! l)).
  set (failed := isErr (SaveAlertInstance env t cmd)).
  set (T0 := EvSaveAlertInstance cmd :: if failed then [saveFailed] else []).
  destruct (IH (t ++ T0)) as (T & Hrun & Hlogged & Hhead & Hcount & Hsaves).
  exists (T0 ++ T). split.
  { unfold saveStates in *. cbn [forM_]. rewrite saveOne_run. fold cmd failed.
    change (EvSaveAlertInstance cmd :: _) with T0. rewrite Hrun. by rewrite app_assoc. }
  split.
  { intros T1 cmd' T2 Heq. destruct T1 as [|e1 T1].
    - cbn [app] in Heq. subst T0. cbn [app] in Heq. injection Heq as <- <-.
      rewrite app_nil_r. fold failed. destruct failed; cbn [app]; [done|].
      split; [done|]. discriminate.
    - subst T0. cbn [app] in Heq. injection Heq as <- Heq.
      destruct failed eqn:Ef; cbn [app] in Heq.
      + destruct T1 as [|e2 T1]; [done|]. cbn [app] in Heq. injection Heq as <- Heq.
        rewrite (Hlogged T1 cmd' T2 Heq). by rewrite <- !app_assoc.
      + rewrite (Hlogged T1 cmd' T2 Heq). by rewrite <- !app_assoc. }
  split; [done|].
  split.
  { rewrite failedSaves_app, countEv_app, Hcount. f_equal.
    subst T0. cbn [failedSaves]. fold failed. by destruct failed. }
  rewrite eventsOf_app, Hsaves, fmap_cons. subst T0. by destruct failed.
Qed.

(** C5. For every call to [ProcessEvalResults]:

    - the saves. One [SaveAlertInstance] is sent per result, in the order of
      the results, each with the fields the instance has when the call ends.
      In the events of the call, the saves that the instance store answered
      with an error are exactly those followed at once by the error line
      "failed to save alert state", and there are as many such lines as
      failed saves;
    - whatever the instance store answers to the saves, the call returns the
      same states and leaves the same states, cache and allocations;
    - the returned list (for transition functions that keep an instance's
      identity, in a world that satisfies the manager's invariant). Its
      [j]-th element, for the [j]-th result, is the instance cached under
      that result's cache id when the call ends: the instance that was cached
      under that id before the call if there was one, a new one otherwise.
      The elements that follow are, each once, exactly the instances of the
      rule that were cached before the call under an id that no result of
      the batch has, whose last evaluation is stale and which were Alerting;
      they come back resolved. *)
Theorem ProcessEvalResults_save env d evaluatedAt alertRule results extraLabels w :
  let res := ProcessEvalResults env d evaluatedAt alertRule results extraLabels w in
  let org := ngModels.OrgID alertRule in
  let uid := ngModels.UID alertRule in
  let idOf := resultID d alertRule extraLabels in
  let updated := take (length results) res.1 in
  let resolved := drop (length results) res.1 in
  let T := drop (length (trace w)) (trace res.2) in
  (trace res.2 = trace w ++ T
   ∧ length updated = length results
   ∧ eventsOf KSaveAlertInstance T
     = (λ l, EvSaveAlertInstance (saveCommand (heap res.2 !!! l))) <$> updated
   ∧ savesLogged env (trace w) T
   ∧ failedSaves env (trace w) T
     = countEv (isErrorLog "failed to save alert state") T)
  ∧ (∀ save,
       let res' := ProcessEvalResults (withSaveAlertInstance save env) d evaluatedAt
                     alertRule results extraLabels w in
       res'.1 = res.1 ∧ heap res'.2 = heap res.2 ∧ cache res'.2 = cache res.2
       ∧ next res'.2 = next res.2)
  ∧ (IdentityPreserving d → manager_inv w →
     (∀ j result, results !! j = Some result →
        ∃ l, res.1 !! j = Some l
           ∧ keyOf (heap res.2 !!! l) = (org, uid, idOf result)
           ∧ cache_get (cache res.2) org uid (idOf result) = Some l
           ∧ match cache_get (cache w) org uid (idOf result) with
             | Some l0 => l = l0
             | None => (next w ≤ l < next res.2)%nat
             end)
     ∧ NoDup resolved
     ∧ (∀ l, l ∈ resolved
          ↔ ∃ i, cache_get (cache w) org uid i = Some l
                 ∧ (i ∉ (idOf <$> results))
                 ∧ isItStale evaluatedAt (LastEvaluationTime (heap w !!! l))
                     (ngModels.IntervalSeconds alertRule) = true
                 ∧ AlertState (heap w !!! l) = eval.Alerting)
     ∧ (∀ l, l ∈ resolved →
          ∃ img, heap res.2 !!! l
                 = set_Image img
                     (Resolve ngModels.StateReasonMissingSeries evaluatedAt
                        (heap w !!! l)))).
Proof.
  intros res org uid idOf updated resolved T. subst idOf.
  destruct (ProcessEvalResults_run env d evaluatedAt alertRule results extraLabels w)
    as (Hres & Hheap & Hcache & Hnext & _).
  fold res in Hres, Hheap, Hcache, Hnext. cbv zeta in Hres, Hheap, Hcache, Hnext.
  set (w0 := (logf log.Debug "state manager processing evaluation results" w).2) in *.
  set (r1 := foldM (processResult env d alertRule extraLabels) ([], ∅) results w0) in *.
  set (r2 := staleResultsHandler env d alertRule r1.1.2 evaluatedAt r1.2) in *.
  assert (Hlen : length r1.1.1 = length results).
  { subst r1. by rewrite processResults_length. }
  assert (Hupd : updated = r1.1.1).
  { subst updated. by rewrite Hres, take_app_length'. }
  assert (Hrsv : resolved = r2.1).
  { subst resolved. by rewrite Hres, drop_app_length'. }
  split; [|split].
  - (* the saves *)
    assert (Htrace : ∃ P Tsv,
      trace res.2 = trace w ++ P ++ Tsv
      ∧ Forall (λ e, noSave e = true) P
      ∧ savesLogged env (trace w ++ P) Tsv
      ∧ failedSaves env (trace w ++ P) Tsv
        = countEv (isErrorLog "failed to save alert state") Tsv
      ∧ eventsOf KSaveAlertInstance Tsv
        = (λ l, EvSaveAlertInstance (saveCommand (heap res.2 !!! l))) <$> r1.1.1).
    { destruct (processResults_noSave env d alertRule extraLabels results ([], ∅) w0)
        as (Tl & HTl & HFl).
      destruct (staleResultsHandler_noSave env d alertRule r1.1.2 evaluatedAt r1.2)
        as (Ts & HTs & HFs).
      fold r1 in HTl. fold r2 in HTs.
      assert (Ht2 : trace r2.2
                    = trace w ++ [EvLog log.Debug "state manager processing evaluation results"]
                        ++ Tl ++ Ts).
      { rewrite HTs, HTl. subst w0. destruct w as [h0 n0 c0 t0].
        cbn [logf emit snd trace]. by rewrite <- !app_assoc. }
      rewrite Hheap. subst res. rewrite ProcessEvalResults_unfold. cbv zeta.
      fold w0. fold r1. fold r2. cbn [snd].
      destruct r2.2 as [h n c t] eqn:E2. cbn [trace heap] in *.
      destruct (bool_decide (0 < length r1.1.1)%nat) eqn:Hpos.
      - cbv beta iota delta [when]. rewrite run_logf.
        destruct (saveStates_logged env r1.1.1 h n c
                    (t ++ [EvLog log.Debug "saving new states to the database"]))
          as (Tsv & -> & Hlogged & _ & Hcount & Hsaves).
        cbn [snd trace].
        exists ([EvLog log.Debug "state manager processing evaluation results"]
                  ++ Tl ++ Ts ++ [EvLog log.Debug "saving new states to the database"]), Tsv.
        assert (Hpre : t ++ [EvLog log.Debug "saving new states to the database"]
                       = trace w ++ [EvLog log.Debug "state manager processing evaluation results"]
                           ++ Tl ++ Ts ++ [EvLog log.Debug "saving new states to the database"]).
        { rewrite Ht2. by rewrite <- !app_assoc. }
        split; [by rewrite Hpre, <- !app_assoc|]. rewrite <- Hpre.
        split; [|done].
        apply Forall_app; split; [by repeat constructor|].
        apply Forall_app; split; [done|].
        apply Forall_app; split; [done|]. by repeat constructor.
      - apply bool_decide_eq_false in Hpos.
        destruct r1.1.1 as [|? ?] eqn:E1; [|simpl in Hpos; lia].
        unfold when, ret, mret, M_ret. cbn [snd trace].
        exists ([EvLog log.Debug "state manager processing evaluation results"]
                  ++ Tl ++ Ts), [].
        split; [by rewrite app_nil_r|].
        split.
        { apply Forall_app; split; [by repeat constructor|].
          by apply Forall_app. }
        split; [|done]. intros T1 cmd T2 Heq. by destruct T1. }
    destruct Htrace as (P & Tsv & Htr & HP & Hlogged & Hcount & Hsaves).
    assert (HT : T = P ++ Tsv).
    { subst T. by rewrite Htr, drop_app_length. }
    destruct (noSave_trace env (trace w) P HP) as (HP1 & HP2 & HP3).
    rewrite HT. split; [done|]. split; [by rewrite Hupd|].
    split; [by rewrite eventsOf_app, HP3, Hupd|].
    split; [by apply savesLogged_prefix|].
    by rewrite failedSaves_app, countEv_app, HP1, HP2, Hcount.
  - (* whatever the saves answer *)
    intros save res'.
    destruct (ProcessEvalResults_run (withSaveAlertInstance save env) d evaluatedAt
                alertRule results extraLabels w) as (H1' & H2' & H3' & H4' & _).
    fold res' in H1', H2', H3', H4'.
    rewrite Hres, Hheap, Hcache, Hnext, H1', H2', H3', H4'. done.
  - (* the returned states *)
    intros Hd Hw.
    assert (Hw0 : manager_inv w0) by (by destruct w as [h0 n0 c0 t0]).
    assert (Hc0 : cache w0 = cache w) by (by destruct w as [h0 n0 c0 t0]).
    assert (Hh0 : heap w0 = heap w) by (by destruct w as [h0 n0 c0 t0]).
    assert (Hn0 : next w0 = next w) by (by destruct w as [h0 n0 c0 t0]).
    destruct (processResults_run env d alertRule extraLabels Hd results [] ∅ w0 Hw0)
      as (Hinv1 & Hnext1 & (news & Hsts & Hlenn & Hper) & Hc1 & Hh1 & Hpr1).
    fold r1 in Hinv1, Hnext1, Hsts, Hper, Hc1, Hh1, Hpr1.
    rewrite Hc0 in Hper, Hc1, Hh1. rewrite Hh0 in Hh1. rewrite Hn0 in Hnext1, Hper, Hh1.
    cbn [app] in Hsts.
    destruct Hinv1 as [Hwf1 Hlt1]. destruct Hw as [Hwf Hlt].
    destruct (staleResultsHandler_exact env d alertRule r1.1.2 evaluatedAt r1.2 Hwf1)
      as (Hr2 & Hn2 & Hc2 & Hh2 & Hi2).
    fold r2 in Hr2, Hn2, Hc2, Hh2, Hi2. cbv zeta in Hr2, Hc2.
    fold org uid in Hr2, Hc2, Hper, Hc1, Hh1.
    assert (Hdom : ∀ i, is_Some (r1.1.2 !! i) ↔ i ∈ (resultID d alertRule extraLabels <$> results)).
    { intros i. rewrite Hpr1, lookup_empty. split; [intros [[? ?]|?]; done|by right]. }
    (* the instances that the batch does not name *)
    assert (Hkeep : ∀ i l, i ∉ (resultID d alertRule extraLabels <$> results) →
              (cache_get (cache r1.2) org uid i = Some l
               ↔ cache_get (cache w) org uid i = Some l)
              ∧ (cache_get (cache w) org uid i = Some l →
                 heap r1.2 !!! l = heap w !!! l)).
    { intros i l Hi. rewrite Hc1 by (by right). split; [done|]. intros Hl.
      apply lookup_total_eq, Hh1; [by eapply Hlt|].
      intros i' Hi' Hl'. destruct (Hwf _ _ _ _ Hl) as (_ & _ & Hid).
      destruct (Hwf _ _ _ _ Hl') as (_ & _ & Hid'). apply Hi. by rewrite <- Hid, Hid'. }
    assert (Hresolved : ∀ l, l ∈ r2.1
              ↔ ∃ i, cache_get (cache r1.2) org uid i = Some l
                     ∧ (i ∉ (resultID d alertRule extraLabels <$> results))
                     ∧ isItStale evaluatedAt (LastEvaluationTime (heap r1.2 !!! l))
                         (ngModels.IntervalSeconds alertRule) = true
                     ∧ AlertState (heap r1.2 !!! l) = eval.Alerting).
    { intros l. rewrite Hr2, list_elem_of_In, List.filter_In, <- list_elem_of_In.
      rewrite elem_of_known_states. unfold resolvedBySweep, evicted.
      rewrite !andb_true_iff, negb_true_iff, !bool_decide_eq_true, bool_decide_eq_false.
      split.
      - intros [[i Hl] [[Hnot Hstale] HA]]. exists i.
        destruct (Hwf1 _ _ _ _ Hl) as (_ & _ & Hid). rewrite Hid, Hdom in Hnot. done.
      - intros (i & Hl & Hi & Hstale & HA). split; [by exists i|].
        destruct (Hwf1 _ _ _ _ Hl) as (_ & _ & Hid). rewrite Hid, Hdom. done. }
    split; [|split; [|split]].
    + intros j result Hj. destruct (Hper j result Hj) as (l & Hl & Hcl & Hor).
      assert (Hin : resultID d alertRule extraLabels result ∈ (resultID d alertRule extraLabels <$> results)).
      { apply list_elem_of_fmap. exists result. split; [done|].
        by apply list_elem_of_lookup_2 in Hj. }
      assert (Hnot : l ∉ r2.1).
      { intros (i & Hl' & Hi & _)%Hresolved.
        destruct (Hwf1 _ _ _ _ Hcl) as (_ & _ & Hid).
        destruct (Hwf1 _ _ _ _ Hl') as (_ & _ & Hid'). apply Hi. by rewrite <- Hid', Hid. }
      exists l. split; [by rewrite Hres, Hsts; apply lookup_app_l_Some|].
      rewrite Hheap, Hcache, Hnext, Hn2, (lookup_total_eq _ _ _ (Hh2 l Hnot)).
      split.
      { unfold keyOf. by destruct (Hwf1 _ _ _ _ Hcl) as (-> & -> & ->). }
      split.
      { rewrite Hc2, Hcl. destruct (evicted _ _ _ _) eqn:Hev; [|by rewrite andb_false_r].
        exfalso. unfold evicted in Hev. apply andb_true_iff in Hev as [Hev _].
        apply negb_true_iff, bool_decide_eq_false in Hev. apply Hev.
        destruct (Hwf1 _ _ _ _ Hcl) as (_ & _ & ->). by apply Hdom. }
      destruct (cache_get (cache w) org uid (resultID d alertRule extraLabels result)); [done|].
      split; [done|]. by eapply Hlt1.
    + rewrite Hrsv, Hr2. apply NoDup_ListNoDup, List.NoDup_filter, NoDup_ListNoDup.
      by apply NoDup_known_states.
    + intros l. rewrite Hrsv, Hresolved. split.
      * intros (i & Hl & Hi & Hstale & HA). exists i.
        destruct (Hkeep i l Hi) as [Hiff Hsame]. apply Hiff in Hl.
        rewrite <- (Hsame Hl). done.
      * intros (i & Hl & Hi & Hstale & HA). exists i.
        destruct (Hkeep i l Hi) as [Hiff Hsame].
        rewrite (Hsame Hl). split; [by apply Hiff|done].
    + intros l Hl. rewrite Hrsv in Hl. destruct (Hi2 l Hl) as [img Himg].
      apply Hresolved in Hl as (i & Hl & Hi & _).
      destruct (Hkeep i l Hi) as [Hiff Hsame]. apply Hiff in Hl.
      exists img. by rewrite Hheap, Himg, (Hsame Hl).
Qed.

(** A batch at 25 s on the world where "a" and "b" are Alerting and "c" is
    Normal, with a result for "a" and for the new series "z", and an instance
    store that refuses the saves of "a": the instance of "a", a new instance
    for "z" and the resolved instance of "b" are returned, one of the two
    saves fails and is logged. *)
Lemma ProcessEvalResults_save_witness :
  let w := Demo.firing 10 in
  let results := [Demo.result "a" eval.Alerting 25000000000;
                  Demo.result "z" eval.Normal 25000000000] in
  let res := ProcessEvalResults Outage.env Demo.deps 25000000000 (Demo.rule 10)
               results ∅ w in
  let T := drop (length (trace w)) (trace res.2) in
  (IdentityPreserving Demo.deps ∧ manager_inv w)
  ∧ res.1 = [0%nat; 3%nat; 1%nat]
  ∧ failedSaves Outage.env (trace w) T = 1%nat
  ∧ failedSaves Outage.env (trace w) T
    = countEv (isErrorLog "failed to save alert state") T
  ∧ savesLogged Outage.env (trace w) T
  ∧ (∀ l, l ∈ drop (length results) res.1
       ↔ ∃ i, cache_get (cache w) (ngModels.OrgID (Demo.rule 10))
                (ngModels.UID (Demo.rule 10)) i = Some l
              ∧ (i ∉ (resultID Demo.deps (Demo.rule 10) ∅ <$> results))
              ∧ isItStale 25000000000 (LastEvaluationTime (heap w !!! l))
                  (ngModels.IntervalSeconds (Demo.rule 10)) = true
              ∧ AlertState (heap w !!! l) = eval.Alerting).
Proof.
  assert (Hw : manager_inv (Demo.firing 10)).
  { exact (ProcessEvalResults_inv Demo.quiet Demo.deps 0 (Demo.rule 10) _ ∅ Demo.empty
             Demo_identity_preserving (empty_inv _ _ _)). }
  pose proof (ProcessEvalResults_save Outage.env Demo.deps 25000000000 (Demo.rule 10)
                [Demo.result "a" eval.Alerting 25000000000;
                 Demo.result "z" eval.Normal 25000000000] ∅ (Demo.firing 10)) as H.
  cbv zeta in H. destruct H as ((_ & _ & _ & Hlogged & Hcount) & _ & Hret).
  destruct (Hret Demo_identity_preserving Hw) as (_ & _ & Hresolved & _).
  assert (Hres : (ProcessEvalResults Outage.env Demo.deps 25000000000 (Demo.rule 10)
                    [Demo.result "a" eval.Alerting 25000000000;
                     Demo.result "z" eval.Normal 25000000000] ∅ (Demo.firing 10)).1
                 = [0%nat; 3%nat; 1%nat]) by (vm_compute; reflexivity).
  assert (Hfailed : failedSaves Outage.env (trace (Demo.firing 10))
            (drop (length (trace (Demo.firing 10)))
               (trace (ProcessEvalResults Outage.env Demo.deps 25000000000 (Demo.rule 10)
                         [Demo.result "a" eval.Alerting 25000000000;
                          Demo.result "z" eval.Normal 25000000000] ∅
                         (Demo.firing 10)).2)) = 1%nat) by (vm_compute; reflexivity).
  exact (conj (conj Demo_identity_preserving Hw)
           (conj Hres (conj Hfailed (conj Hcount (conj Hlogged Hresolved))))).
Defined.
(** * The authentication middleware *)

Module middleware_proofs.
Import middleware.

Lemma accessForbidden_answers s c : answersInKind s c (accessForbidden s c).
Proof.
  right. unfold accessForbidden. destruct (IsApiRequest c).
  - eexists. split; [done|]. by vm_compute.
  - cbn. by rewrite bool_decide_eq_true_2.
Qed.

Lemma notAuthorized_answers s c : answersInKind s c (notAuthorized s c).
Proof.
  right. unfold notAuthorized. destruct (IsApiRequest c).
  - eexists. split; [done|]. by vm_compute.
  - cbn. by rewrite bool_decide_eq_true_2.
Qed.

Lemma tokenRevoked_answers s c max : answersInKind s c (tokenRevoked s c max).
Proof.
  right. unfold tokenRevoked. destruct (IsApiRequest c).
  - eexists. split; [done|]. by vm_compute.
  - cbn. by rewrite bool_decide_eq_true_2.
Qed.

Lemma accessForbidden_nonempty s c : accessForbidden s c ≠ [].
Proof. unfold accessForbidden. by destruct (IsApiRequest c). Qed.

Lemma notAuthorized_nonempty s c : notAuthorized s c ≠ [].
Proof. unfold notAuthorized. by destruct (IsApiRequest c). Qed.

Lemma tokenRevoked_nonempty s c max : tokenRevoked s c max ≠ [].
Proof. unfold tokenRevoked. by destruct (IsApiRequest c). Qed.

(** X23. Every guard of the package answers at most once and in the way that
    fits the request. [Auth], [RoleAuth], [NoAuth], [AdminOrFeatureEnabled],
    [SnapshotPublicModeOrSignedIn] and [EnsureEditorOrViewerCanEdit] either
    let the request through, or answer an API request with one JSON body of
    status 401 or 403 (no cookie, no redirect), or answer a browser request
    with a redirect to the root or with the [redirect_to] cookie followed by
    a redirect to the login page. *)
Theorem guards_answer_in_kind s c :
  (∀ options, answersInKind s c (Auth s options c))
  ∧ (∀ roles, answersInKind s c (RoleAuth s roles c))
  ∧ answersInKind s c (NoAuth s c)
  ∧ (∀ enabled, answersInKind s c (AdminOrFeatureEnabled s enabled c))
  ∧ (∀ publicMode, answersInKind s c (SnapshotPublicModeOrSignedIn s publicMode c))
  ∧ answersInKind s c (EnsureEditorOrViewerCanEdit s c).
Proof.
  pose proof (accessForbidden_answers s c) as Hf.
  pose proof (notAuthorized_answers s c) as Hn.
  pose proof (tokenRevoked_answers s c) as Ht.
  repeat split.
  - intros options. unfold Auth. cbv zeta.
    destruct (_ && _ && _); [by destruct (LookupTokenErr c) as [[max|msg]|]|].
    destruct (_ && _); [done|by left].
  - intros roles. unfold RoleAuth. cbv zeta. destruct (negb _); [done|by left].
  - unfold NoAuth. destruct (shouldForceLogin c); [done|by left].
  - intros enabled. unfold AdminOrFeatureEnabled. case_bool_decide; [by left|].
    destruct (negb enabled); [done|by left].
  - intros publicMode. unfold SnapshotPublicModeOrSignedIn.
    destruct publicMode; [by left|]. destruct (negb _); [done|by left].
  - unfold EnsureEditorOrViewerCanEdit. destruct (_ && _); [done|by left].
Qed.

(** X24. When [Auth] lets a request through. The request passes exactly when
    the login requirement and the admin requirement are both met. The login
    requirement is met by a signed-in user, by a route that does not require
    sign-in, or by an anonymous user when anonymous access is allowed, the
    route does not forbid it, no [forceLogin] parameter asks for a login and
    the [orgId] parameter does not name another org. The admin requirement is
    met by a Grafana admin or by a route that does not require one. *)
Theorem Auth_passes_iff s options c :
  let anonymousOk :=
    AllowAnonymous c && negb (ReqNoAnonynmous options)
    && negb (shouldForceLogin c) && negb (orgMismatch s c) in
  Auth s options c = []
  ↔ (IsSignedIn c || negb (ReqSignedIn options) || anonymousOk)
    && (IsGrafanaAdmin c || negb (ReqGrafanaAdmin options)) = true.
Proof.
  pose proof (accessForbidden_nonempty s c) as Hf.
  pose proof (notAuthorized_nonempty s c) as Hn.
  pose proof (tokenRevoked_nonempty s c) as Ht.
  assert (Hl : match LookupTokenErr c with
               | Some (TokenRevokedError max) => tokenRevoked s c max
               | _ => notAuthorized s c
               end ≠ []).
  { by destruct (LookupTokenErr c) as [[max|msg]|]. }
  unfold Auth, orgMismatch. cbv zeta.
  generalize dependent (match LookupTokenErr c with
               | Some (TokenRevokedError max) => tokenRevoked s c max
               | _ => notAuthorized s c
               end).
  generalize dependent (accessForbidden s c). clear Hn Ht. intros forbidden Hf login Hl.
  destruct (ParseInt s (Query c "orgId")) as [orgID|].
  - assert (Hm : bool_decide (0 < orgID) && negb (bool_decide (orgID = OrgId c))
                 = bool_decide (0 < orgID ∧ orgID ≠ OrgId c)).
    { repeat case_bool_decide; simpl; try done; tauto. }
    rewrite <- Hm. clear Hm.
    destruct (bool_decide (0 < orgID) && negb (bool_decide (orgID = OrgId c))),
      (AllowAnonymous c), (shouldForceLogin c), (IsSignedIn c), (ReqSignedIn options),
      (ReqNoAnonynmous options), (IsGrafanaAdmin c), (ReqGrafanaAdmin options);
      cbn; (split; [intros H|intros H]); done.
  - destruct (AllowAnonymous c), (shouldForceLogin c), (IsSignedIn c), (ReqSignedIn options),
      (ReqNoAnonynmous options), (IsGrafanaAdmin c), (ReqGrafanaAdmin options);
      cbn; (split; [intros H|intros H]); done.
Qed.

(** X25. Who passes [RoleAuth]. The request passes exactly when the user's
    org role is one of the roles listed; with no role listed nobody
    passes. *)
Theorem RoleAuth_passes_iff s roles c :
  RoleAuth s roles c = [] ↔ OrgRole c ∈ roles.
Proof.
  pose proof (accessForbidden_nonempty s c) as Hf.
  unfold RoleAuth. cbv zeta.
  assert (Hok : RoleAuth_ok roles c = true ↔ OrgRole c ∈ roles).
  { induction roles as [|role roles IH]; simpl.
    - split; [done|]. by intros ?%elem_of_nil.
    - rewrite elem_of_cons. case_bool_decide; [by split; [left|]|].
      rewrite IH. split; [by right|]. intros [?|?]; [congruence|done]. }
  destruct (RoleAuth_ok roles c); simpl.
  - split; [intros _; by apply Hok|done].
  - split; [done|]. intros H. apply Hok in H. done.
Qed.

(** X26. The [forceLogin] parameter. [shouldForceLogin] holds exactly when
    the query parameter is one of the six spellings of true that
    [strconv.ParseBool] accepts; any other value, a missing parameter
    included, does not force a login, and [NoAuth] then lets the request
    through. *)
Theorem shouldForceLogin_iff s c :
  (shouldForceLogin c = true
   ↔ Query c "forceLogin" ∈ ["1"; "t"; "T"; "true"; "TRUE"; "True"])
  ∧ (NoAuth s c = []
     ↔ Query c "forceLogin" ∉ ["1"; "t"; "T"; "true"; "TRUE"; "True"]).
Proof.
  pose proof (notAuthorized_nonempty s c) as Hn.
  assert (H1 : shouldForceLogin c = true
               ↔ Query c "forceLogin" ∈ ["1"; "t"; "T"; "true"; "TRUE"; "True"]).
  { unfold shouldForceLogin, ParseBool. cbv zeta.
    case_bool_decide; [done|]. case_bool_decide; done. }
  split; [exact H1|]. unfold NoAuth. rewrite <- H1.
  destruct (shouldForceLogin c); [split; [done|by intros H; destruct H]|done].
Qed.

(** ** [removeForceLoginParams] *)

Lemma contains_cons sub ch rest :
  contains sub (String ch rest) = String.prefix sub (String ch rest) || contains sub rest.
Proof. done. Qed.

Lemma contains_false_prefix sub str : contains sub str = false → String.prefix sub str = false.
Proof. destruct str; simpl; by intros [? _]%orb_false_iff. Qed.

Lemma string_prefix_cons a sub b str :
  String.prefix (String a sub) (String b str)
  = bool_decide (a = b) && String.prefix sub str.
Proof. simpl. destruct (Ascii.ascii_dec a b); by case_bool_decide. Qed.

Lemma string_length_append (a b : string) :
  String.length (a +:+ b) = (String.length a + String.length b)%nat.
Proof. induction a as [|x a IH]; [done|]. rewrite string_append_cons. simpl. by rewrite IH. Qed.

Lemma string_prefix_length sub str :
  String.prefix sub str = true → (String.length sub ≤ String.length str)%nat.
Proof. intros [q ->]%string_prefix_spec. rewrite string_length_append. lia. Qed.

(** A match of [sub] at the head of [x +:+ r] either lies in [x], or starts
    in [x] and goes on in [r] with the rest of [sub]. *)
Lemma string_prefix_append sub x r :
  String.prefix sub (x +:+ r) = true →
  String.prefix sub x = true
  ∨ ∃ sub1 sub2 a, sub = sub1 +:+ String a sub2 ∧ String.prefix (String a sub2) r = true.
Proof.
  revert x. induction sub as [|a sub IH]; intros x H.
  - left. by destruct x.
  - destruct x as [|b x].
    + right. by exists "", sub, a.
    + rewrite string_append_cons, string_prefix_cons in H. apply andb_true_iff in H as [Hab H].
      destruct (IH x H) as [Hx|(sub1 & sub2 & a' & -> & Hr)].
      * left. by rewrite string_prefix_cons, Hab.
      * right. by exists (String a sub1), sub2, a'.
Qed.

Lemma no_ampersand sub1 sub2 a :
  "forceLogin=true" = sub1 +:+ String a sub2 → a ≠ "&"%char.
Proof.
  intros H ->.
  do 15 (destruct sub1 as [|? sub1]; [discriminate H|];
         rewrite string_append_cons in H; injection H as _ H).
  destruct sub1; rewrite ?string_append_cons in H; discriminate H.
Qed.

(** Before a match with its ampersand, text that holds no match stays. *)
Lemma removeForceLoginParams_keep p r :
  contains "forceLogin=true" p = false →
  removeForceLoginParams_from 0 (p +:+ String "&" r)
  = p +:+ removeForceLoginParams_from 0 (String "&" r).
Proof.
  induction p as [|ch p IH]; intros Hp; [done|].
  rewrite contains_cons in Hp. apply orb_false_iff in Hp as [Hhead Hp].
  rewrite !string_append_cons. cbn [removeForceLoginParams_from].
  assert (H1 : String.prefix "forceLogin=true" (String ch (p +:+ String "&" r)) = false).
  { destruct (String.prefix _ (String ch (p +:+ _))) eqn:E; [|done].
    rewrite <- string_append_cons in E. apply string_prefix_append in E as [E|(s1 & s2 & a & Hs & Ha)].
    - congruence.
    - rewrite string_prefix_cons in Ha. apply andb_true_iff in Ha as [Ha%bool_decide_eq_true _].
      by apply no_ampersand in Hs. }
  assert (H2 : String.prefix "&forceLogin=true" (String ch (p +:+ String "&" r)) = false).
  { rewrite string_prefix_cons. apply andb_false_iff. right.
    destruct (String.prefix _ (p +:+ _)) eqn:E; [|done].
    apply string_prefix_append in E as [E|(s1 & s2 & a & Hs & Ha)].
    - apply contains_false_prefix in Hp. congruence.
    - rewrite string_prefix_cons in Ha. apply andb_true_iff in Ha as [Ha%bool_decide_eq_true _].
      by apply no_ampersand in Hs. }
  rewrite H1, H2. by rewrite IH.
Qed.

Lemma removeForceLoginParams_skip k x r :
  String.length x = k → removeForceLoginParams_from k (x +:+ r) = removeForceLoginParams_from 0 r.
Proof.
  revert x. induction k as [|k IH]; intros x Hx.
  - by destruct x.
  - destruct x as [|ch x]; [done|]. rewrite string_append_cons. simpl. apply IH.
    simpl in Hx. lia.
Qed.

Lemma removeForceLoginParams_length k str :
  (String.length (removeForceLoginParams_from k str) ≤ String.length str - k)%nat.
Proof.
  revert k. induction str as [|ch rest IH]; intros k; [simpl; lia|].
  cbn [removeForceLoginParams_from String.length]. destruct k as [|k].
  - destruct (String.prefix "&forceLogin=true" _) eqn:E1;
      [|destruct (String.prefix "forceLogin=true" _) eqn:E2].
    + specialize (IH 15%nat). lia.
    + specialize (IH 14%nat). lia.
    + specialize (IH 0%nat). simpl. lia.
  - specialize (IH k). lia.
Qed.

(** X27. What [removeForceLoginParams] removes. A string that does not hold
    [forceLogin=true] comes back unchanged; a string that holds it gets
    shorter by at least its 15 characters; and a parameter
    [&forceLogin=true] that follows text without the parameter is cut out
    together with its ampersand, the text before it staying as it is and the
    rest being cleaned in the same way. *)
Theorem removeForceLoginParams_removes (str p q : string) :
  (contains "forceLogin=true" str = false → removeForceLoginParams str = str)
  ∧ (contains "forceLogin=true" str = true →
     (String.length (removeForceLoginParams str) + 15 ≤ String.length str)%nat)
  ∧ (contains "forceLogin=true" p = false →
     removeForceLoginParams (p +:+ "&forceLogin=true" +:+ q)
     = p +:+ removeForceLoginParams q).
Proof.
  unfold removeForceLoginParams. split; [|split].
  - induction str as [|ch rest IH]; [done|].
    rewrite contains_cons. intros [Hhead Hrest]%orb_false_iff.
    cbn [removeForceLoginParams_from]. rewrite Hhead.
    rewrite string_prefix_cons, (contains_false_prefix _ _ Hrest), andb_false_r.
    by rewrite IH.
  - induction str as [|ch rest IH]; [done|].
    rewrite contains_cons. cbn [removeForceLoginParams_from].
    destruct (String.prefix "&forceLogin=true" (String ch rest)) eqn:E1.
    { intros _. apply string_prefix_length in E1.
      pose proof (removeForceLoginParams_length 15 rest). simpl in *. lia. }
    destruct (String.prefix "forceLogin=true" (String ch rest)) eqn:E2.
    { intros _. apply string_prefix_length in E2.
      pose proof (removeForceLoginParams_length 14 rest). simpl in *. lia. }
    intros H. simpl in H. specialize (IH H). simpl. lia.
  - intros Hp. change ("&forceLogin=true" +:+ q) with (String "&" ("forceLogin=true" +:+ q)).
    rewrite removeForceLoginParams_keep by done. f_equal.
    cbn [removeForceLoginParams_from].
    replace (String.prefix "&forceLogin=true" (String "&" ("forceLogin=true" +:+ q)))
      with true.
    + apply (removeForceLoginParams_skip 15 "forceLogin=true" q). done.
    + symmetry. apply string_prefix_spec. by exists q.
Qed.

Lemma removeForceLoginParams_removes_witness :
  contains "forceLogin=true" "/d/abc?orgId=1" = false
  ∧ removeForceLoginParams "/d/abc?orgId=1&forceLogin=true&refresh=5s"
    = "/d/abc?orgId=1&refresh=5s".
Proof.
  split; [reflexivity|].
  destruct (removeForceLoginParams_removes "" "/d/abc?orgId=1" "&refresh=5s") as (_ & _ & H).
  exact (H eq_refl).
Defined.

(** X28. The target that [writeRedirectCookie] remembers. One cookie
    [redirect_to] is written, with max-age 0; before the [forceLogin]
    parameters are cut out and the value is escaped, its value is the request
    URI, with the application sub-URL put in front exactly when one is
    configured and the URI does not start with it, so the target always
    starts with the sub-URL. *)
Theorem writeRedirectCookie_target s c :
  ∃ redirectTo,
    writeRedirectCookie s c
    = [EvWriteCookie "redirect_to" (QueryEscape s (removeForceLoginParams redirectTo)) 0]
    ∧ HasPrefix redirectTo (AppSubUrl s) = true
    ∧ redirectTo
      = (if HasPrefix (RequestURI c) (AppSubUrl s) then "" else AppSubUrl s)
        +:+ RequestURI c.
Proof.
  unfold writeRedirectCookie, HasPrefix. cbv zeta.
  case_bool_decide as He; cbn [negb andb].
  - rewrite He. eexists. split; [reflexivity|]. by destruct (RequestURI c).
  - destruct (String.prefix (AppSubUrl s) (RequestURI c)) eqn:E; cbn [negb];
      (eexists; split; [reflexivity|]); (split; [|done]); [done|].
    apply string_prefix_spec. by eexists.
Qed.

(** X29. The outcome of [OrgAdminFolderAdminOrTeamAdmin]. An org admin passes
    without any query. Otherwise the folder query is made, and the team query
    only if the folder query did not grant; the request is answered by
    [accessForbidden] exactly when the user is no org admin and neither query
    grants. A failing query adds a 500 answer but does not decide the
    request: the checks go on with the result the query left. *)
Theorem OrgAdminFolderAdminOrTeamAdmin_outcome s store c :
  let evs := OrgAdminFolderAdminOrTeamAdmin s store c in
  let orgAdmin := bool_decide (OrgRole c = ROLE_ADMIN s) in
  let folderAdmin := (HasAdminPermissionInFolders store).1 in
  let teamAdmin := (IsAdminOfTeams store).1 in
  let granted := orgAdmin || folderAdmin || teamAdmin in
  (orgAdmin = true → evs = [])
  ∧ (EvHasAdminPermissionInFolders ∈ evs ↔ orgAdmin = false)
  ∧ (EvIsAdminOfTeams ∈ evs ↔ orgAdmin = false ∧ folderAdmin = false)
  ∧ ∃ checks,
      evs = checks ++ (if granted then [] else accessForbidden s c)
      ∧ forallb isCheck checks = true
      ∧ length (List.filter isServerError checks)
        = ((if negb orgAdmin && isErr (HasAdminPermissionInFolders store).2 then 1 else 0)
           + (if negb orgAdmin && negb folderAdmin && isErr (IsAdminOfTeams store).2
              then 1 else 0))%nat.
Proof.
  unfold OrgAdminFolderAdminOrTeamAdmin. cbv zeta.
  destruct (bool_decide (OrgRole c = ROLE_ADMIN s)).
  { split; [done|]. split; [by split; [intros ?%elem_of_nil|]|].
    split; [by split; [intros ?%elem_of_nil|intros [? _]]|]. by exists []. }
  destruct (HasAdminPermissionInFolders store) as [folderResult ferr].
  destruct (IsAdminOfTeams store) as [teamResult terr]. cbn [fst snd orb negb andb].
  split; [done|].
  split; [split; [done|intros _; apply elem_of_cons; by left]|].
  split.
  { destruct folderResult.
    - split; [|by intros [_ ?]]. rewrite app_nil_r. intros H%list_elem_of_In.
      destruct (isErr ferr); simpl in H; intuition discriminate.
    - split; [done|]. intros _. rewrite !elem_of_app. right. right. left.
      by apply list_elem_of_singleton. }
  exists ([EvHasAdminPermissionInFolders]
          ++ (if isErr ferr
              then [EvJsonApiErr 500 "Failed to check if user is a folder admin"] else [])
          ++ if folderResult then []
             else [EvIsAdminOfTeams]
                  ++ (if isErr terr
                      then [EvJsonApiErr 500 "Failed to check if user is a team admin"]
                      else [])).
  split; [|split].
  - destruct folderResult, teamResult; cbn [orb]; by rewrite ?app_nil_r, <- ?app_assoc.
  - by destruct folderResult, (isErr ferr), (isErr terr).
  - by destruct folderResult, (isErr ferr), (isErr terr).
Qed.

End middleware_proofs.
